(** * Chunked transfer and registry engine of the GitHub file store

    A shallow embedding of the two source variants of the browser client,
    [src/script.js] (module [Script], the batched-parallel variant) and
    [src/unnamed/part_000] (module [Part0], the sequential variant), and the
    properties of their chunker, category detection, transfer engine and
    registry manager.

    Modelling conventions.
    - JavaScript numbers that hold sizes, counts, offsets and times are
      integers below 2^53 and are modelled as [Z]; the one floating-point
      computation, the compression ratio, is modelled bit-exactly with the
      binary64 operations of [SpecFloat].
    - A string is a sequence of code units below 256 (type [string]); file
      names with other code units are outside the model.  [btoa], which
      throws on a code unit above 255, returns on every text made of these
      strings, so the serialization of the registry and of the metadata
      is no step of its own and every statement about a write of them is
      about strings that [btoa] encodes.
    - [async] functions run in a state-and-exception monad over a [World]
      that holds the application state, the remote store, what the network
      will do to the next requests, and the chronological trace of requests,
      log lines, status messages, progress reports and delays.
    - DOM elements are assumed present; a DOM update is recorded as an event
      of the trace. *)

From Stdlib Require Import ZArith Lia SpecFloat Ascii String.
From stdpp Require Import base numbers list strings gmap pretty.

Local Open Scope Z_scope.

(** ** Arrays, blobs and typed arrays *)

Abbreviation byte := Byte.byte.
Abbreviation Blob := (list byte).
Abbreviation Uint8Array := (list byte).

(** [Array.prototype.slice(start, end)] and [Blob.prototype.slice(start, end)]:
    a negative bound counts from the end, both bounds are clamped to
    [0, length], and the span is [max (end - start) 0]. *)
Definition relative_bound (size k : Z) : Z :=
  if k <? 0 then Z.max (size + k) 0 else Z.min k size.

Definition js_slice {A} (l : list A) (start stop : Z) : list A :=
  let size := Z.of_nat (length l) in
  let rs := relative_bound size start in
  let re := relative_bound size stop in
  let span := Z.max (re - rs) 0 in
  take (Z.to_nat span) (drop (Z.to_nat rs) l).

Definition blob_size (blob : Blob) : Z := Z.of_nat (length blob).
Definition blob_slice (blob : Blob) (start stop : Z) : Blob := js_slice blob start stop.

(** ** Chunker *)

(** The loop of [createChunks]:
<<
    while (offset < blob.size) {
        chunks.push(blob.slice(offset, offset + CONFIG.CHUNK_SIZE));
        offset += CONFIG.CHUNK_SIZE;
    }
>>
    [fuel] bounds the number of iterations; [None] means the bound was
    reached with the loop condition still true. *)
Fixpoint createChunks_loop (CHUNK_SIZE : Z) (fuel : nat) (blob : Blob)
    (offset : Z) (chunks : list Blob) : option (list Blob) :=
  if offset <? blob_size blob then
    match fuel with
    | O => None
    | S fuel' =>
        createChunks_loop CHUNK_SIZE fuel' blob (offset + CHUNK_SIZE)
          (chunks ++ [blob_slice blob offset (offset + CHUNK_SIZE)])
    end
  else Some chunks.

(** [createChunks(blob)] for a configuration whose chunk size is
    [CHUNK_SIZE].  A blob of [n] bytes needs at most [n] iterations when
    the chunk size is positive, so [n] is the fuel. *)
Definition createChunksWith (CHUNK_SIZE : Z) (blob : Blob) : option (list Blob) :=
  createChunks_loop CHUNK_SIZE (length blob) blob 0 [].

(** [TypedArray.prototype.set(source, offset)]: a [RangeError] ([None])
    when the source does not fit. *)
Definition typed_set (target : Uint8Array) (source : Uint8Array) (offset : Z)
    : option Uint8Array :=
  if (offset <? 0) || (blob_size target <? offset + blob_size source) then None
  else Some (take (Z.to_nat offset) target ++ source
             ++ drop (Z.to_nat (offset + blob_size source)) target).

(** [new Uint8Array(total)]: [total] zero bytes. *)
Definition new_Uint8Array (total : Z) : Uint8Array :=
  replicate (Z.to_nat total) Byte.x00.

(** [chunks.forEach(chunk => { combined.set(chunk, offset); offset += chunk.length; })] *)
Fixpoint combine_forEach (chunks : list Uint8Array) (combined : Uint8Array)
    (offset : Z) : option Uint8Array :=
  match chunks with
  | [] => Some combined
  | chunk :: rest =>
      match typed_set combined chunk offset with
      | None => None
      | Some combined' => combine_forEach rest combined' (offset + blob_size chunk)
      end
  end.

(** [combineChunks(chunks)] of [src/script.js]; the sequential variant
    inlines the same three statements in [downloadFile]. *)
Definition combineChunks (chunks : list Uint8Array) : option Uint8Array :=
  let total := foldl (fun sum c => sum + blob_size c) 0 chunks in
  combine_forEach chunks (new_Uint8Array total) 0.

(** Ceiling of the quotient, for a positive divisor. *)
Definition ceil_div (n s : Z) : Z := (n + s - 1) / s.

(** ** Strings *)

(** [String.prototype.split(sep)] for a one-character separator: the
    result is never empty. *)
Fixpoint js_split (sep : ascii) (s : string) : list string :=
  match s with
  | EmptyString => [EmptyString]
  | String c s' =>
      if Ascii.eqb c sep then EmptyString :: js_split sep s'
      else match js_split sep s' with
           | [] => [String c EmptyString]
           | p :: ps => String c p :: ps
           end
  end.

(** [Array.prototype.pop()] as used on the result of [split], which has
    a last element. *)
Definition js_pop (parts : list string) : string := default EmptyString (last parts).

(** [String.prototype.toLowerCase()] on code units below 256: the letters
    A-Z and the Latin-1 capitals U+00C0-U+00DE, U+00D7 excepted, move up
    by 32. *)
Definition lower_unit (c : ascii) : ascii :=
  let n := Ascii.N_of_ascii c in
  if ((65 <=? n) && (n <=? 90) || (192 <=? n) && (n <=? 222) && negb (n =? 215))%N
  then Ascii.ascii_of_N (n + 32) else c.

Fixpoint toLowerCase (s : string) : string :=
  match s with
  | EmptyString => EmptyString
  | String c s' => String (lower_unit c) (toLowerCase s')
  end.

(** [Array.prototype.includes] on an array of strings. *)
Definition js_includes (l : list string) (x : string) : bool :=
  existsb (String.eqb x) l.

(** [s.replace(/[/\?*:|"<>]/g, '_')]: the characters of the class are
    [/ ? * : | " < >]. *)
Definition path_breaking (c : ascii) : bool :=
  existsb (Ascii.eqb c)
    ["/"; "?"; "*"; ":"; "|"; Ascii.ascii_of_nat 34; "<"; ">"]%char.

Fixpoint sanitize (s : string) : string :=
  match s with
  | EmptyString => EmptyString
  | String c s' => String (if path_breaking c then "_"%char else c) (sanitize s')
  end.

(** [String(n).padStart(5, '0')] for an integer [n]. *)
Definition padStart5 (n : Z) : string :=
  let digits := pretty n in
  String.concat "" (replicate (5 - String.length digits) "0"%string) +:+ digits.

(** ** Category detection *)

(** [FILE_CATEGORIES], the same table in both variants: the keys in their
    declared order, each with its [extensions] (the [icon] is left out). *)
Definition FILE_CATEGORIES : list (string * list string) :=
  [ ("game", ["iso"; "exe"; "msi"; "dmg"; "app"; "apk"; "obb"; "xapk"; "gba"; "nes"; "snes"; "zip"]);
    ("archive", ["zip"; "rar"; "7z"; "tar"; "gz"; "bz2"; "xz"; "iso"]);
    ("video", ["mp4"; "mkv"; "avi"; "mov"; "flv"; "wmv"; "webm"; "mpg"; "mpeg"; "m4v"]);
    ("image", ["jpg"; "jpeg"; "png"; "gif"; "bmp"; "svg"; "webp"; "tiff"; "ico"]);
    ("document", ["pdf"; "doc"; "docx"; "xls"; "xlsx"; "ppt"; "pptx"; "txt"; "rtf"]);
    ("executable", ["exe"; "msi"; "dmg"; "app"; "sh"; "bat"; "cmd"]);
    ("iso", ["iso"; "bin"; "cue"]);
    ("apk", ["apk"; "xapk"; "obb"]) ]%string.

(** The loop over [Object.entries(table)], which lists the string keys of
    an object literal in their declared order:
<<
    for (const [category, data] of Object.entries(FILE_CATEGORIES)) {
        if (data.extensions.includes(ext)) return category;
    }
    return 'other';
>> *)
Fixpoint first_category (entries : list (string * list string)) (ext : string) : string :=
  match entries with
  | [] => "other"
  | (category, extensions) :: rest =>
      if js_includes extensions ext then category else first_category rest ext
  end.

(** [filename.split('.').pop().toLowerCase()] *)
Definition extension_of (filename : string) : string :=
  toLowerCase (js_pop (js_split "." filename)).

(** [detectFileCategory] over a table of categories. *)
Definition detectFileCategoryIn (table : list (string * list string)) (filename : string)
    : string :=
  let ext := extension_of filename in
  first_category table ext.

(** [detectFileCategory(filename)], identical in both variants. *)
Definition detectFileCategory (filename : string) : string :=
  detectFileCategoryIn FILE_CATEGORIES filename.

(** ** Numbers: the compression ratio *)

(** The Number whose value is the integer [z] (exact below 2^53). *)
Definition num (z : Z) : spec_float := binary_normalize 53 1024 z 0 false.

Definition num_div := SFdiv 53 1024.
Definition num_sub := SFsub 53 1024.
Definition num_mul := SFmul 53 1024.

(** The text that [Number.prototype.toFixed(2)] returns. *)
Inductive FixedText :=
  | FixedDigits (negative : bool) (n : Z)
      (** the decimal digits of [n], at least three of them, with a point
          before the last two, after a minus sign when [negative] *)
  | FixedInfinity (negative : bool)   (** ["Infinity"] and ["-Infinity"] *)
  | FixedNaN                          (** ["NaN"] *)
  | FixedExponent (x : spec_float).   (** [String(x)] for a magnitude of 1e21 or more *)

(** The integer [n] for which [n / 100 - m * 2^e] is closest to zero, the
    larger one of two. *)
Definition nearest_hundredth (m : positive) (e : Z) : Z :=
  if 0 <=? e then 100 * Z.pos m * 2 ^ e
  else (200 * Z.pos m + 2 ^ (- e)) / 2 ^ (1 - e).

(** [x.toFixed(2)]: a value that is not finite prints as itself; otherwise
    the sign is set aside, a magnitude of at least 10^21 prints in
    exponent form, and a smaller one is rounded to the nearest hundredth. *)
Definition toFixed2 (x : spec_float) : FixedText :=
  match x with
  | S754_nan => FixedNaN
  | S754_infinity s => FixedInfinity s
  | S754_zero _ => FixedDigits false 0
  | S754_finite s m e =>
      if SFleb (num (10 ^ 21)) (S754_finite false m e) then FixedExponent x
      else FixedDigits s (nearest_hundredth m e)
  end.


(** [((1 - compressedSize / originalSize) * 100).toFixed(2)] *)
Definition compressionRatio (compressedSize originalSize : Z) : FixedText :=
  toFixed2 (num_mul (num_sub (num 1) (num_div (num compressedSize) (num originalSize))) (num 100)).

(** ** The registry and the other stored documents *)

(** A FileEntry.  [fe_id] is the time in [`file_${Date.now()}`]; times are
    milliseconds, standing for their ISO-8601 text.  [fe_folder] is set by
    the parallel variant, [fe_chunks] and [fe_status] by the sequential
    one. *)
Record FileEntry := {
  fe_id : Z;
  fe_name : string;
  fe_category : string;
  fe_originalSize : Z;
  fe_compressedSize : Z;
  fe_compressionRatio : FixedText;
  fe_chunkCount : Z;
  fe_uploadedAt : Z;
  fe_folder : option string;
  fe_chunks : option (list string);
  fe_status : option string;
}.

(** [data.json]: [{version, createdAt, lastUpdated, files}]. *)
Record Registry := {
  version : string;
  createdAt : Z;
  lastUpdated : Z;
  files : list FileEntry;
}.

(** The per-file metadata object of either variant. *)
Record Metadata := {
  md_name : string;
  md_chunkCount : Z;
  md_originalSize : option Z;
  md_compressedSize : Z;
  md_category : string;
  md_uploadDate : Z;
}.

(** What a path of the repository holds.  The base64 transport encoding
    and the JSON text of a document are not modelled: a document is its
    value. *)
Inductive Document :=
  | DocChunk (payload : Blob)
  | DocRegistry (r : Registry)
  | DocMetadata (m : Metadata).

(** ** The remote object store and the network *)

Inductive Method := GET | PUT | DELETE.

(** The [message] of the body of a write: [`...chunk ${n}/${total}`],
    the metadata and the registry messages, and the delete messages. *)
Inductive CommitMessage :=
  | MChunk (n total : Z)
  | MMetadata (fileName : string)
  | MRegistry
  | MDelete.

(** A request to [`${GITHUB_API}/repos/${owner}/${repo}/contents/${path}`]:
    its method and path and the [message], [content] and [sha] of its
    body.  The authorization header and the branch play no part in what
    follows and are left out. *)
Record Request := {
  rq_method : Method;
  rq_path : string;
  rq_message : option CommitMessage;
  rq_content : option Document;
  rq_sha : option Z;
}.

(** A response: its status and the [content], [sha] and [message] fields
    of its JSON body. *)
Record Response := {
  status : Z;
  body_content : option Document;
  body_sha : option Z;
  body_message : option string;
}.

(** [response.ok] *)
Definition ok (r : Response) : bool := (200 <=? status r) && (status r <=? 299).

(** The store maps a path to its document and its concurrency token. *)
Abbreviation Store := (gmap string (Document * Z)).

Definition reply (st : Z) (c : option Document) (t : option Z) (m : option string) : Response :=
  {| status := st; body_content := c; body_sha := t; body_message := m |}.

(** The contents endpoint (section 4.3 of the specification): [get]
    returns the content and its token or not-found; [put] creates an
    absent object when no token is given and overwrites a present one when
    the token given is the current one, and answers a conflict otherwise;
    [delete] needs the current token.  Every accepted write gives the
    object the fresh token [fresh]. *)
Definition store_handle (rq : Request) (st : Store) (fresh : Z) : Response * Store * Z :=
  match rq_method rq with
  | GET =>
      match st !! rq_path rq with
      | Some (doc, token) => (reply 200 (Some doc) (Some token) None, st, fresh)
      | None => (reply 404 None None (Some "Not Found"%string), st, fresh)
      end
  | PUT =>
      match rq_content rq with
      | None => (reply 422 None None (Some "Invalid request"%string), st, fresh)
      | Some doc =>
          match st !! rq_path rq, rq_sha rq with
          | None, None =>
              (reply 201 None (Some fresh) None, <[rq_path rq := (doc, fresh)]> st, fresh + 1)
          | Some (_, token), Some given =>
              if given =? token
              then (reply 200 None (Some fresh) None, <[rq_path rq := (doc, fresh)]> st, fresh + 1)
              else (reply 409 None None (Some "Conflict"%string), st, fresh)
          | _, _ => (reply 409 None None (Some "Conflict"%string), st, fresh)
          end
      end
  | DELETE =>
      match st !! rq_path rq, rq_sha rq with
      | None, _ => (reply 404 None None (Some "Not Found"%string), st, fresh)
      | Some (_, token), Some given =>
          if given =? token
          then (reply 200 None None None, delete (rq_path rq) st, fresh)
          else (reply 409 None None (Some "Conflict"%string), st, fresh)
      | Some _, None => (reply 409 None None (Some "Conflict"%string), st, fresh)
      end
  end.

(** What the network does to one request. *)
Inductive NetEvent :=
  | Deliver                     (** the store handles it and answers *)
  | Unreachable                 (** [fetch] rejects; the store is not reached *)
  | Refuse (st : Z)             (** an error status (401, 403, 5xx) without handling *)
  | Rival (path : string) (doc : Document).
      (** another client writes [doc] at [path] first; then as [Deliver] *)

(** ** Errors, events and the world *)

Inductive Error :=
  | NetworkFailure              (** the rejection of [fetch] *)
  | HttpError (st : Z)          (** [`HTTP ${response.status}`] *)
  | ApiError (message : string) (** [errorData.message] *)
  | ChunkFailed (n : Z)         (** [`Chunk ${n} failed`] *)
  | CompressionFailed           (** ['Compression failed: ...'], ['Read failed'] *)
  | CodecUnavailable            (** ['Compression library failed to load'] *)
  | UndefinedRead               (** the TypeError of a property read on [undefined] *)
  | FileNotInRegistry           (** ['File not found in registry'] *)
  | CouldNotDelete              (** ['Could not delete file'] *)
  | DataJsonNotUpdated.         (** ['Failed to update data.json'] *)

Inductive Severity := info | success | error.

(** The lines of [addLog] and [console.log], one constructor for each
    kind of line, with the values interpolated in it. *)
Inductive LogLine :=
  | LUploading (name : string)
  | LUploadingChunks
  | LCompressing
  | LCompressed (size : Z)
  | LFolder (folder : string)
  | LChunking
  | LChunks (n : Z)
  | LUploadingBatches
  | LChunkDone (n total : Z)
  | LSavingMetadata
  | LUpdatingRegistry
  | LComplete
  | LFailed (e : Error)
  | LUploadingChunk (n total size : Z)
  | LRetry (attempt last n : Z)
  | LChunkUploadFailed (n : Z) (e : Error)
  | LMetadataSaved
  | LMetadataWarning (e : Error)
  | LRegistryUpdated
  | LUpdateWarning (e : Error)
  | LUploadWarning (e : Error)
  | LConsole (text : string).

(** The messages of [showStatus]. *)
Inductive StatusLine :=
  | SConfigure
  | SUploaded
  | SUploadFailed (e : Error)
  | SNoFile
  | SNoCodec (e : Error)
  | SDeleted (name : string)
  | SDeleteFailed (e : option Error).

(** [(num / den) * 100], the percentage given to [updateProgress]. *)
Record Percentage := Pct { pct_num : Z; pct_den : Z }.

Inductive Event :=
  | Fetched (rq : Request) (rs : option Response)  (** [None]: rejected *)
  | Logged (line : LogLine) (type : Severity)
  | Status (line : StatusLine) (type : Severity)
  | Progress (elementId : string) (p : Percentage)
  | Delayed (ms : Z)
  | Confirmed (answer : bool)
  | Dom (update : string)      (** another change of the page *)
  | Spawned (task : string).   (** a call that is not awaited, or a timer *)

Record File := { file_name : string; file_bytes : list byte }.

(** [file.size] *)
Definition file_size (f : File) : Z := Z.of_nat (length (file_bytes f)).

Record Settings := { token : string; owner : string; repo : string; branch : string }.

(** [appState] *)
Record AppState := {
  selectedFile : option File;
  settings : Settings;
  isUploading : bool;
  isDownloading : bool;
  dataJson : Registry;
}.

(** The state of a run: the application state, the remote store with the
    next token it will hand out, what the network does to the coming
    requests (an exhausted list delivers), the codec ([None] when reading
    or compressing fails), whether a compression library has loaded, the
    answer of the user to [confirm], the clock, and the trace, oldest
    event first. *)
Record World := {
  appState : AppState;
  remote : Store;
  fresh : Z;
  network : list NetEvent;
  gzip : list byte -> option Blob;
  libraryLoaded : bool;
  userConfirms : bool;
  clock : Z;
  trace : list Event;
}.

Definition with_appState (f : AppState -> AppState) (w : World) : World :=
  {| appState := f (appState w); remote := remote w; fresh := fresh w;
     network := network w; gzip := gzip w; libraryLoaded := libraryLoaded w;
     userConfirms := userConfirms w; clock := clock w; trace := trace w |}.

Definition with_store (st : Store) (t : Z) (w : World) : World :=
  {| appState := appState w; remote := st; fresh := t;
     network := network w; gzip := gzip w; libraryLoaded := libraryLoaded w;
     userConfirms := userConfirms w; clock := clock w; trace := trace w |}.

Definition with_network (n : list NetEvent) (w : World) : World :=
  {| appState := appState w; remote := remote w; fresh := fresh w;
     network := n; gzip := gzip w; libraryLoaded := libraryLoaded w;
     userConfirms := userConfirms w; clock := clock w; trace := trace w |}.

Definition with_clock (c : Z) (w : World) : World :=
  {| appState := appState w; remote := remote w; fresh := fresh w;
     network := network w; gzip := gzip w; libraryLoaded := libraryLoaded w;
     userConfirms := userConfirms w; clock := c; trace := trace w |}.

Definition with_event (e : Event) (w : World) : World :=
  {| appState := appState w; remote := remote w; fresh := fresh w;
     network := network w; gzip := gzip w; libraryLoaded := libraryLoaded w;
     userConfirms := userConfirms w; clock := clock w; trace := trace w ++ [e] |}.

Definition with_dataJson (f : Registry -> Registry) (s : AppState) : AppState :=
  {| selectedFile := selectedFile s; settings := settings s; isUploading := isUploading s;
     isDownloading := isDownloading s; dataJson := f (dataJson s) |}.

Definition with_isUploading (b : bool) (s : AppState) : AppState :=
  {| selectedFile := selectedFile s; settings := settings s; isUploading := b;
     isDownloading := isDownloading s; dataJson := dataJson s |}.

Definition with_files (f : list FileEntry -> list FileEntry) (r : Registry) : Registry :=
  {| version := version r; createdAt := createdAt r; lastUpdated := lastUpdated r;
     files := f (files r) |}.

Definition with_lastUpdated (t : Z) (r : Registry) : Registry :=
  {| version := version r; createdAt := createdAt r; lastUpdated := t; files := files r |}.

(** The network takes its next event and the store handles the request. *)
Definition deliver (rq : Request) (w : World) : option Response * World :=
  let '(rs, st, t) := store_handle rq (remote w) (fresh w) in
  (Some rs, with_store st t w).

Definition transport (rq : Request) (w : World) : option Response * World :=
  match network w with
  | [] => deliver rq w
  | ev :: rest =>
      let w := with_network rest w in
      match ev with
      | Deliver => deliver rq w
      | Unreachable => (None, w)
      | Refuse st => (Some (reply (if 400 <=? st then st else 500) None None None), w)
      | Rival path doc =>
          deliver rq (with_store (<[path := (doc, fresh w)]> (remote w)) (fresh w + 1) w)
      end
  end.

(** ** The monad of asynchronous code *)

(** An [async] function returns, throws, or (in the model only) uses up
    the fuel of one of its loops. *)
Inductive Outcome (A : Type) :=
  | Returned (a : A)
  | Thrown (e : Error)
  | OutOfFuel.
Arguments Returned {A} a.
Arguments Thrown {A} e.
Arguments OutOfFuel {A}.

Definition M (A : Type) : Type := World -> Outcome A * World.

Definition ret {A} (a : A) : M A := fun w => (Returned a, w).

Definition bind {A B} (m : M A) (k : A -> M B) : M B := fun w =>
  match m w with
  | (Returned a, w') => k a w'
  | (Thrown e, w') => (Thrown e, w')
  | (OutOfFuel, w') => (OutOfFuel, w')
  end.

Definition throw {A} (e : Error) : M A := fun w => (Thrown e, w).

Definition out_of_fuel {A} : M A := fun w => (OutOfFuel, w).

(** [try { m } catch (error) { handler error }] *)
Definition try_catch {A} (m : M A) (handler : Error -> M A) : M A := fun w =>
  match m w with
  | (Thrown e, w') => handler e w'
  | other => other
  end.

(** [try { m } finally { cleanup }], for a [cleanup] that returns. *)
Definition try_finally {A} (m : M A) (cleanup : M unit) : M A := fun w =>
  let '(o, w') := m w in
  match cleanup w' with
  | (Returned _, w'') => (o, w'')
  | (Thrown e, w'') => (Thrown e, w'')
  | (OutOfFuel, w'') => (OutOfFuel, w'')
  end.

(** The monad is used through the notations [x ← m; k] and [m;; k]. *)
#[global] Instance M_ret : MRet M := @ret.
#[global] Instance M_bind : MBind M := fun A B k m => bind m k.

Definition emit (e : Event) : M unit := fun w => (Returned tt, with_event e w).

Definition gets {A} (f : World -> A) : M A := fun w => (Returned (f w), w).

Definition modify (f : World -> World) : M unit := fun w => (Returned tt, f w).

(** [await fetch(url, ...)] *)
Definition fetch (rq : Request) : M Response := fun w =>
  let '(r, w') := transport rq w in
  let w'' := with_event (Fetched rq r) w' in
  match r with
  | Some rs => (Returned rs, w'')
  | None => (Thrown NetworkFailure, w'')
  end.

(** [await delay(ms)] *)
Definition delay (ms : Z) : M unit := fun w =>
  (Returned tt, with_event (Delayed ms) (with_clock (clock w + ms) w)).

(** [Date.now()] and [new Date().toISOString()] *)
Definition Date_now : M Z := gets clock.

Definition addLog (line : LogLine) (type : Severity) : M unit := emit (Logged line type).
Definition console_log (text : string) : M unit := emit (Logged (LConsole text) info).
Definition showStatus (line : StatusLine) (type : Severity) : M unit := emit (Status line type).
Definition updateProgress (elementId : string) (p : Percentage) : M unit :=
  emit (Progress elementId p).

(** [confirm(...)] *)
Definition confirm : M bool :=
  b ← gets userConfirms; emit (Confirmed b);; ret b.

(** [validateSettings()]: the three strings are non-empty. *)
Definition validateSettings : M bool :=
  s ← gets (fun w => settings (appState w));
  ret (negb (String.eqb (token s) "") && negb (String.eqb (owner s) "")
       && negb (String.eqb (repo s) "")).

(** [compressFile(file)]: the file is read and gzipped into a blob. *)
Definition compressFile (file : File) : M Blob :=
  codec ← gets gzip;
  match codec (file_bytes file) with
  | Some compressed => ret compressed
  | None => throw CompressionFailed
  end.

(** [await Promise.all(members)].  The members of a batch address distinct
    paths without tokens, so the outcome of each is the same whatever the
    interleaving; they are run to completion in index order, and the
    rejection reported is that of the first failing member. *)
Fixpoint promise_all (members : list (M unit)) : M unit :=
  match members with
  | [] => ret tt
  | m :: rest => fun w =>
      let '(o, w1) := m w in
      let '(os, w2) := promise_all rest w1 in
      (match o with Returned _ => os | failed => failed end, w2)
  end.

(** ** Further updates of the state and combinators *)

Definition with_isDownloading (b : bool) (s : AppState) : AppState :=
  {| selectedFile := selectedFile s; settings := settings s; isUploading := isUploading s;
     isDownloading := b; dataJson := dataJson s |}.

Definition with_selectedFile (f : option File) (s : AppState) : AppState :=
  {| selectedFile := f; settings := settings s; isUploading := isUploading s;
     isDownloading := isDownloading s; dataJson := dataJson s |}.

Definition with_settings (st : Settings) (s : AppState) : AppState :=
  {| selectedFile := selectedFile s; settings := st; isUploading := isUploading s;
     isDownloading := isDownloading s; dataJson := dataJson s |}.

(** [await Promise.all(members)] for members that resolve to values, under
    the convention of [promise_all]: the members are run to completion in
    index order, the values are collected in that order, and the rejection
    reported is that of the first failing member. *)
Fixpoint promise_all_values {A} (members : list (M A)) : M (list A) :=
  match members with
  | [] => ret []
  | m :: rest => fun w =>
      let '(o, w1) := m w in
      let '(os, w2) := promise_all_values rest w1 in
      (match o, os with
       | Returned a, Returned l => Returned (a :: l)
       | Returned _, Thrown e => Thrown e
       | Returned _, OutOfFuel => OutOfFuel
       | Thrown e, _ => Thrown e
       | OutOfFuel, _ => OutOfFuel
       end, w2)
  end.

(** [addLog(message, type)] for a line that [LogLine] has no constructor
    for: the line is given as its text. *)
Definition addLogText (message : string) (type : Severity) : M unit :=
  addLog (LConsole message) type.

(** [showStatus(message, type)] for a message that [StatusLine] has no
    constructor for: the change of the status element is recorded as a
    change of the page. *)
Definition showStatusText (message : string) (type : Severity) : M unit :=
  emit (Dom ("statusMessage." +:+
             match type with info => "info" | success => "success" | error => "error" end
             +:+ ": " +:+ message)).

(** The empty registry that [appState.dataJson] starts as. *)
Definition emptyRegistry (t : Z) : Registry :=
  {| version := "1.0"; createdAt := t; lastUpdated := t; files := [] |}.

(** [appState.dataJson.files.push(entry)] *)
Definition files_push (entry : FileEntry) : M unit :=
  modify (with_appState (with_dataJson (with_files (fun fs => fs ++ [entry])))).

(** [appState.dataJson.files = appState.dataJson.files.filter(f => f.name !== fileName)] *)
Definition files_remove (fileName : string) : M unit :=
  modify (with_appState (with_dataJson (with_files
    (filter (fun f => fe_name f ≠ fileName))))).

(** [appState.dataJson.files.find(f => f.name === fileName)] *)
Definition files_find (fileName : string) : M (option FileEntry) :=
  gets (fun w => list_find (fun f => fe_name f = fileName) (files (dataJson (appState w)))
                 ≫= (fun p => Some (snd p))).

(** [appState.dataJson.lastUpdated = new Date().toISOString()] *)
Definition touch_lastUpdated : M unit :=
  t ← Date_now;
  modify (with_appState (with_dataJson (with_lastUpdated t))).

(** ** The batched-parallel variant, [src/script.js] *)

Module Script.

Definition CHUNK_SIZE : Z := 20 * 1024 * 1024.
Definition MAX_FILE_SIZE : Z := 50 * 1024 * 1024 * 1024.
Definition PARALLEL_BATCH : Z := 5.
Definition ASSETS_FOLDER : string := "files".
Definition DATA_FILE : string := "data.json".

(** [createChunks(blob)] *)
Definition createChunks (blob : Blob) : option (list Blob) :=
  createChunksWith CHUNK_SIZE blob.

(** The [try] block of [uploadChunk]: one PUT of the chunk, which
    returns from the function on status 201 or 200 and throws
    otherwise.  [blobToBase64] is taken to resolve. *)
Definition uploadChunk_try (fileFolder : string) (chunkData : Blob)
    (chunkIndex totalChunks : Z) : M unit :=
  let chunkName := "chunk_" +:+ padStart5 (chunkIndex + 1) +:+ ".gz" in
  let filePath := fileFolder +:+ "/" +:+ chunkName in
  response ← fetch {| rq_method := PUT; rq_path := filePath;
                      rq_message := Some (MChunk (chunkIndex + 1) totalChunks);
                      rq_content := Some (DocChunk chunkData); rq_sha := None |};
  if (status response =? 201) || (status response =? 200) then
    addLog (LChunkDone (chunkIndex + 1) totalChunks) success
  else throw (HttpError (status response)).

(** The loop of [uploadChunk]:
<<
  while (attempt < 3) {
      try { ...; return; }
      catch (error) {
          attempt++;
          if (attempt < 3) { await delay(1000 * attempt); }
          else { throw new Error(`Chunk ${chunkIndex + 1} failed`); }
      }
  }
>>
    The [try] block yields [None] when the function returns and the
    [catch] block yields the new value of [attempt] when the loop goes
    on. *)
Fixpoint uploadChunk_loop (fuel : nat) (attempt : Z) (fileFolder : string)
    (chunkData : Blob) (chunkIndex totalChunks : Z) : M unit :=
  if attempt <? 3 then
    match fuel with
    | O => out_of_fuel
    | S fuel' =>
        next ← try_catch
          (uploadChunk_try fileFolder chunkData chunkIndex totalChunks;; ret None)
          (fun _ =>
             let attempt := attempt + 1 in
             if attempt <? 3 then delay (1000 * attempt);; ret (Some attempt)
             else throw (ChunkFailed (chunkIndex + 1)));
        match next with
        | None => ret tt
        | Some attempt => uploadChunk_loop fuel' attempt fileFolder chunkData chunkIndex totalChunks
        end
    end
  else ret tt.

(** [uploadChunk(fileFolder, chunkData, chunkIndex, totalChunks)] *)
Definition uploadChunk (fileFolder : string) (chunkData : Blob)
    (chunkIndex totalChunks : Z) : M unit :=
  uploadChunk_loop 3 0 fileFolder chunkData chunkIndex totalChunks.

(** The loop of [uploadChunksParallel]:
<<
  for (let i = 0; i < total; i += CONFIG.PARALLEL_BATCH) {
      const batch = chunks.slice(i, Math.min(i + CONFIG.PARALLEL_BATCH, total));
      await Promise.all(batch.map((chunk, idx) => uploadChunk(fileFolder, chunk, i + idx, total)));
      updateProgress('uploadProgress', ((i + batch.length) / total) * 100);
  }
>> *)
Fixpoint uploadChunksParallel_loop (fuel : nat) (i : Z) (chunks : list Blob)
    (fileFolder : string) : M unit :=
  let total := Z.of_nat (length chunks) in
  if i <? total then
    match fuel with
    | O => out_of_fuel
    | S fuel' =>
        let batch := js_slice chunks i (Z.min (i + PARALLEL_BATCH) total) in
        promise_all
          (imap (fun idx chunk => uploadChunk fileFolder chunk (i + Z.of_nat idx) total) batch);;
        updateProgress "uploadProgress" (Pct (i + Z.of_nat (length batch)) total);;
        uploadChunksParallel_loop fuel' (i + PARALLEL_BATCH) chunks fileFolder
    end
  else ret tt.

(** [uploadChunksParallel(chunks, fileFolder)] *)
Definition uploadChunksParallel (chunks : list Blob) (fileFolder : string) : M unit :=
  uploadChunksParallel_loop (length chunks) 0 chunks fileFolder.

(** [saveMetadata(fileFolder, fileName, chunkCount, originalSize, compressedSize)].
    The [btoa] of the metadata text, inside the [try] block, returns on
    strings of code units below 256. *)
Definition saveMetadata (fileFolder fileName : string)
    (chunkCount originalSize compressedSize : Z) : M unit :=
  t ← Date_now;
  let metadata := {| md_name := fileName; md_chunkCount := chunkCount;
                     md_originalSize := Some originalSize;
                     md_compressedSize := compressedSize;
                     md_category := detectFileCategory fileName;
                     md_uploadDate := t |} in
  let metaPath := fileFolder +:+ "/metadata.json" in
  try_catch
    (fetch {| rq_method := PUT; rq_path := metaPath;
              rq_message := Some (MMetadata fileName);
              rq_content := Some (DocMetadata metadata); rq_sha := None |};; ret tt)
    (fun _ => console_log "Metadata error").

(** The [entry] object that [updateRegistry] builds at time [t]. *)
Definition newEntry (fileName : string) (chunkCount originalSize compressedSize : Z)
    (category : string) (t : Z) : FileEntry :=
  {| fe_id := t; fe_name := fileName; fe_category := category;
     fe_originalSize := originalSize; fe_compressedSize := compressedSize;
     fe_compressionRatio := compressionRatio compressedSize originalSize;
     fe_chunkCount := chunkCount; fe_uploadedAt := t;
     fe_folder := Some (ASSETS_FOLDER +:+ "/" +:+ sanitize fileName);
     fe_chunks := None; fe_status := None |}.

(** The two requests of [updateRegistry]: the read of the registry and
    the write of [content] under the token [sha]. *)
Definition registryGet : Request :=
  {| rq_method := GET; rq_path := DATA_FILE; rq_message := None;
     rq_content := None; rq_sha := None |}.

Definition registryPut (content : Document) (sha : option Z) : Request :=
  {| rq_method := PUT; rq_path := DATA_FILE; rq_message := Some MRegistry;
     rq_content := Some content; rq_sha := sha |}.

(** [updateRegistry(fileName, chunkCount, originalSize, compressedSize, category)]:
    the entry is pushed on the in-memory registry and the whole of it
    serialized; then the token is read and the write is made.  The
    serialization, [btoa(JSON.stringify(appState.dataJson, null, 2))],
    lies between the push and the [try] block and returns on strings of
    code units below 256. *)
Definition updateRegistry (fileName : string) (chunkCount originalSize compressedSize : Z)
    (category : string) : M unit :=
  t ← Date_now;
  let entry := newEntry fileName chunkCount originalSize compressedSize category t in
  files_push entry;;
  touch_lastUpdated;;
  content ← gets (fun w => DocRegistry (dataJson (appState w)));
  try_catch
    (sha ← try_catch
       (get ← fetch registryGet;
        if ok get then ret (body_sha get) else ret None)
       (fun _ => ret None);
     fetch (registryPut content sha);;
     ret tt)
    (fun _ => console_log "Registry error").

(** [deleteGitHubFile(filePath)] *)
Definition deleteGitHubFile (filePath : string) : M unit :=
  get ← fetch {| rq_method := GET; rq_path := filePath; rq_message := None;
                  rq_content := None; rq_sha := None |};
  if negb (ok get) then ret tt
  else
    fetch {| rq_method := DELETE; rq_path := filePath; rq_message := Some MDelete;
             rq_content := None; rq_sha := body_sha get |};;
    ret tt.

(** The loop [for (let i = 1; i <= entry.chunkCount; i++)] of
    [deleteFile]; [remaining] is the number of iterations left. *)
Fixpoint deleteChunks_loop (remaining : nat) (i : Z) (folderPath : string) : M unit :=
  match remaining with
  | O => ret tt
  | S remaining' =>
      let chunkName := "chunk_" +:+ padStart5 i +:+ ".gz" in
      deleteGitHubFile (folderPath +:+ "/" +:+ chunkName);;
      deleteChunks_loop remaining' (i + 1) folderPath
  end.

(** [deleteFile(fileName, folderPath)].  Reading [entry.chunkCount] of an
    [entry] that [find] did not find throws. *)
Definition deleteFile (fileName folderPath : string) : M unit :=
  confirmed ← confirm;
  if negb confirmed then ret tt
  else
    try_catch
      (deleteGitHubFile (folderPath +:+ "/metadata.json");;
       entry ← files_find fileName;
       chunkCount ← match entry with
                    | Some e => ret (fe_chunkCount e)
                    | None => throw UndefinedRead
                    end;
       deleteChunks_loop (Z.to_nat chunkCount) 1 folderPath;;
       files_remove fileName;;
       updateRegistry "" 0 0 0 "";;
       showStatus (SDeleted fileName) success;;
       emit (Spawned "loadUploadedFiles"))
      (fun _ => showStatus (SDeleteFailed None) error).

(** The [try] block of [startUpload] for the selected [file]: compress,
    chunk, transfer, save the metadata, update the registry.  The reload
    [loadUploadedFiles()] is not awaited and the reset of the selection is
    left to a timer of two seconds: both are recorded as spawned and run
    after [startUpload] has settled, outside this run. *)
Definition startUpload_try (file : File) : M unit :=
  addLog (LUploading (file_name file)) info;;
  addLog LCompressing info;;
  compressed ← compressFile file;
  addLog (LCompressed (blob_size compressed)) success;;
  let fileFolder := ASSETS_FOLDER +:+ "/" +:+ sanitize (file_name file) in
  addLog (LFolder fileFolder) info;;
  addLog LChunking info;;
  chunks ← match createChunks compressed with
           | Some chunks => ret chunks
           | None => out_of_fuel
           end;
  let n := Z.of_nat (length chunks) in
  addLog (LChunks n) success;;
  addLog LUploadingBatches info;;
  uploadChunksParallel chunks fileFolder;;
  addLog LSavingMetadata info;;
  saveMetadata fileFolder (file_name file) n (file_size file) (blob_size compressed);;
  addLog LUpdatingRegistry info;;
  updateRegistry (file_name file) n (file_size file) (blob_size compressed)
    (detectFileCategory (file_name file));;
  addLog LComplete success;;
  showStatus SUploaded success;;
  emit (Spawned "loadUploadedFiles");;
  emit (Spawned "setTimeout(reset, 2000)").

(** [startUpload()] *)
Definition startUpload : M unit :=
  st ← gets appState;
  match isUploading st, selectedFile st with
  | false, Some file =>
      valid ← validateSettings;
      if negb valid then
        showStatus SConfigure error;;
        emit (Dom "switchTab('settings')")
      else
        modify (with_appState (with_isUploading true));;
        emit (Dom "uploadBtn.disabled = true");;
        emit (Dom "progressSection, uploadLog shown; logContent cleared");;
        try_finally
          (try_catch
             (startUpload_try file)
             (fun e =>
                addLog (LFailed e) error;;
                showStatus (SUploadFailed e) error))
          (modify (with_appState (with_isUploading false));;
           emit (Dom "uploadBtn.disabled = false"))
  | _, _ => ret tt
  end.

(** *** Selecting a file *)

(** [handleFileSelect(e)], for the files [e.target.files].  The texts of
    the size and of the type of the file that it shows are left out of the
    changes of the page. *)
Definition handleFileSelect (files : list File) : M unit :=
  match files with
  | [] => ret tt
  | file :: _ =>
      if MAX_FILE_SIZE <? file_size file then showStatusText "File exceeds 50GB" error
      else
        modify (with_appState (with_selectedFile (Some file)));;
        let category := detectFileCategory (file_name file) in
        emit (Dom ("fileInfo shown; fileName.textContent = " +:+ file_name file));;
        emit (Dom ("fileCategory.className = category-badge " +:+ category));;
        emit (Dom "uploadBtn shown")
  end.

(** *** Download *)

Section Download.

(** [pako.ungzip]: it returns the decompressed bytes or throws. *)
Variable ungzip : Uint8Array -> Error + list byte.

(** The bytes that [atob] gives for the stored content of a document that
    is not a chunk, that is, the bytes of its JSON text. *)
Variable document_text : Document -> Uint8Array.

(** The bytes of [atob(data.content)]: for a chunk, whose content is the
    base64 text of its payload, the payload. *)
Definition content_bytes (doc : Document) : Uint8Array :=
  match doc with
  | DocChunk payload => payload
  | other => document_text other
  end.

(** [downloadChunk(folderPath, chunkNum)]; [atob] throws on a body
    without [content]. *)
Definition downloadChunk (folderPath : string) (chunkNum : Z) : M Uint8Array :=
  let chunkName := "chunk_" +:+ padStart5 chunkNum +:+ ".gz" in
  let filePath := folderPath +:+ "/" +:+ chunkName in
  response ← fetch {| rq_method := GET; rq_path := filePath; rq_message := None;
                      rq_content := None; rq_sha := None |};
  if negb (ok response) then
    throw (ApiError ("Chunk " +:+ pretty chunkNum +:+ " not found"))
  else
    match body_content response with
    | Some doc => ret (content_bytes doc)
    | None => throw (ApiError "InvalidCharacterError")
    end.

(** The loop of [downloadFile]:
<<
  for (let i = 0; i < chunkCount; i += CONFIG.PARALLEL_BATCH) {
      const batch = Array.from(
          { length: Math.min(CONFIG.PARALLEL_BATCH, chunkCount - i) },
          (_, idx) => i + idx + 1);
      const batchChunks = await Promise.all(batch.map(idx => downloadChunk(folderPath, idx)));
      chunks.push(...batchChunks);
      updateProgress('uploadProgress', (chunks.length / chunkCount) * 100);
  }
>> *)
Fixpoint downloadFile_loop (fuel : nat) (i chunkCount : Z) (folderPath : string)
    (chunks : list Uint8Array) : M (list Uint8Array) :=
  if i <? chunkCount then
    match fuel with
    | O => out_of_fuel
    | S fuel' =>
        let batch := (fun idx : nat => i + Z.of_nat idx + 1)
                       <$> seq 0 (Z.to_nat (Z.min PARALLEL_BATCH (chunkCount - i))) in
        batchChunks ← promise_all_values (downloadChunk folderPath <$> batch);
        let chunks := chunks ++ batchChunks in
        updateProgress "uploadProgress" (Pct (Z.of_nat (length chunks)) chunkCount);;
        downloadFile_loop fuel' (i + PARALLEL_BATCH) chunkCount folderPath chunks
    end
  else ret chunks.

(** The [try] block of [downloadFile]; its value is the blob that is
    offered to the user under the name [fileName]. *)
Definition downloadFile_try (fileName folderPath : string) (chunkCount : Z)
    : M (list byte) :=
  addLogText ("Downloading: " +:+ fileName +:+ "...") info;;
  chunks ← downloadFile_loop (Z.to_nat chunkCount) 0 chunkCount folderPath [];
  addLogText ("Combining " +:+ pretty chunkCount +:+ " chunks...") info;;
  combined ← match combineChunks chunks with
             | Some combined => ret combined
             | None => throw (ApiError "RangeError")
             end;
  addLogText "Decompressing..." info;;
  decompressed ← match ungzip combined with
                 | inr decompressed => ret decompressed
                 | inl e => throw e
                 end;
  emit (Dom ("a.download = " +:+ fileName +:+ "; a.click()"));;
  addLogText "Downloaded!" success;;
  showStatusText "Download complete!" success;;
  ret decompressed.

(** [downloadFile(fileName, folderPath, chunkCount)]; the value is the
    blob offered to the user, if one is. *)
Definition downloadFile (fileName folderPath : string) (chunkCount : Z)
    : M (option (list byte)) :=
  st ← gets appState;
  if isDownloading st then ret None
  else
    modify (with_appState (with_isDownloading true));;
    try_finally
      (try_catch
         (decompressed ← downloadFile_try fileName folderPath chunkCount;
          ret (Some decompressed))
         (fun e =>
            addLog (LFailed e) error;;
            showStatusText "Download failed" error;;
            ret None))
      (modify (with_appState (with_isDownloading false))).

End Download.

End Script.

(** ** The sequential variant, [src/unnamed/part_000] *)

Module Part0.

Definition CHUNK_SIZE : Z := 90 * 1024 * 1024.
Definition MAX_FILE_SIZE : Z := 50 * 1024 * 1024 * 1024.
Definition RETRY_ATTEMPTS : Z := 3.
Definition RETRY_DELAY : Z := 2000.
Definition ASSETS_FOLDER : string := "assets".
Definition DATA_FILE : string := "data.json".

(** [waitForCompressionLib()]: resolves when a library has loaded and
    rejects when the polling gives up. *)
Definition waitForCompressionLib : M unit :=
  loaded ← gets libraryLoaded;
  if negb loaded then throw CodecUnavailable else ret tt.

(** [compressFile(file)], with its two progress reports (50 and 100
    percent). *)
Definition compressFile (file : File) : M Blob :=
  updateProgress "compressionProgress" (Pct 50 100);;
  loaded ← gets libraryLoaded;
  if negb loaded then throw CompressionFailed
  else
    compressed ← compressFile file;
    updateProgress "compressionProgress" (Pct 100 100);;
    ret compressed.

(** [createChunks(blob)], which also reports the chunking as complete. *)
Definition createChunks (blob : Blob) : M (list Blob) :=
  match createChunksWith CHUNK_SIZE blob with
  | Some chunks => updateProgress "chunkingProgress" (Pct 100 100);; ret chunks
  | None => out_of_fuel
  end.

(** The [try] block of [uploadChunkToGitHub]: one PUT of the chunk,
    which throws the message of the response, or its status when there
    is none, unless the response is [ok]. *)
Definition uploadChunkToGitHub_try (filePath : string) (chunkData : Blob)
    (chunkIndex totalChunks : Z) : M unit :=
  response ← fetch {| rq_method := PUT; rq_path := filePath;
                      rq_message := Some (MChunk (chunkIndex + 1) totalChunks);
                      rq_content := Some (DocChunk chunkData); rq_sha := None |};
  if negb (ok response) then
    match body_message response with
    | Some message =>
        if String.eqb message "" then throw (HttpError (status response))
        else throw (ApiError message)
    | None => throw (HttpError (status response))
    end
  else addLog (LChunkDone (chunkIndex + 1) totalChunks) success.

(** The loop of [uploadChunkToGitHub]:
<<
  while (attempt < CONFIG.RETRY_ATTEMPTS) {
      try { ...; return; }
      catch (error) {
          attempt++;
          if (attempt < CONFIG.RETRY_ATTEMPTS) {
              addLog(`Retry ${attempt}/${CONFIG.RETRY_ATTEMPTS - 1} for chunk ...`, 'info');
              await delay(CONFIG.RETRY_DELAY);
          } else { throw error; }
      }
  }
>> *)
Fixpoint uploadChunkToGitHub_loop (fuel : nat) (attempt : Z) (filePath : string)
    (chunkData : Blob) (chunkIndex totalChunks : Z) : M unit :=
  if attempt <? RETRY_ATTEMPTS then
    match fuel with
    | O => out_of_fuel
    | S fuel' =>
        next ← try_catch
          (uploadChunkToGitHub_try filePath chunkData chunkIndex totalChunks;; ret None)
          (fun e =>
             let attempt := attempt + 1 in
             if attempt <? RETRY_ATTEMPTS then
               addLog (LRetry attempt (RETRY_ATTEMPTS - 1) (chunkIndex + 1)) info;;
               delay RETRY_DELAY;;
               ret (Some attempt)
             else throw e);
        match next with
        | None => ret tt
        | Some attempt =>
            uploadChunkToGitHub_loop fuel' attempt filePath chunkData chunkIndex totalChunks
        end
    end
  else ret tt.

(** [uploadChunkToGitHub(filePath, chunkData, chunkIndex, totalChunks)] *)
Definition uploadChunkToGitHub (filePath : string) (chunkData : Blob)
    (chunkIndex totalChunks : Z) : M unit :=
  uploadChunkToGitHub_loop (Z.to_nat RETRY_ATTEMPTS) 0 filePath chunkData chunkIndex totalChunks.

(** The loop of [uploadChunks]:
<<
  for (let i = 0; i < totalChunks; i++) {
      const chunk = chunks[i];
      ...
      try {
          await uploadChunkToGitHub(chunkPath, chunk, i, totalChunks);
          updateProgress('uploadProgress', ((i + 1) / totalChunks) * 100);
      } catch (error) { addLog(...); throw error; }
  }
>> *)
Fixpoint uploadChunks_loop (fuel : nat) (i : Z) (chunks : list Blob)
    (originalFilename : string) : M unit :=
  let totalChunks := Z.of_nat (length chunks) in
  if i <? totalChunks then
    match fuel with
    | O => out_of_fuel
    | S fuel' =>
        match chunks !! Z.to_nat i with
        | None => throw UndefinedRead
        | Some chunk =>
            let chunkName := originalFilename +:+ ".part" +:+ pretty (i + 1) +:+ ".gz" in
            let chunkPath := ASSETS_FOLDER +:+ "/" +:+ chunkName in
            addLog (LUploadingChunk (i + 1) totalChunks (blob_size chunk)) info;;
            try_catch
              (uploadChunkToGitHub chunkPath chunk i totalChunks;;
               updateProgress "uploadProgress" (Pct (i + 1) totalChunks))
              (fun e => addLog (LChunkUploadFailed (i + 1) e) error;; throw e);;
            uploadChunks_loop fuel' (i + 1) chunks originalFilename
        end
    end
  else ret tt.

(** [uploadChunks(chunks, originalFilename)] *)
Definition uploadChunks (chunks : list Blob) (originalFilename : string) : M unit :=
  uploadChunks_loop (length chunks) 0 chunks originalFilename.

(** The two requests of [uploadDataJsonToGitHub]: the read of the
    registry and the write of [content] under the token [sha]. *)
Definition registryGet : Request :=
  {| rq_method := GET; rq_path := DATA_FILE; rq_message := None;
     rq_content := None; rq_sha := None |}.

Definition registryPut (content : Document) (sha : option Z) : Request :=
  {| rq_method := PUT; rq_path := DATA_FILE; rq_message := Some MRegistry;
     rq_content := Some content; rq_sha := sha |}.

(** [uploadDataJsonToGitHub()]: the in-memory registry is serialized;
    then the token is read and the write is made.  The serialization,
    [btoa(jsonContent)], lies before the [try] block and returns on
    strings of code units below 256. *)
Definition uploadDataJsonToGitHub : M unit :=
  content ← gets (fun w => DocRegistry (dataJson (appState w)));
  try_catch
    (getResponse ← fetch registryGet;
     let sha := if ok getResponse then body_sha getResponse else None in
     putResponse ← fetch (registryPut content sha);
     if negb (ok putResponse) then throw DataJsonNotUpdated else ret tt)
    (fun e => addLog (LUploadWarning e) info).

(** [Array.from({length: chunkCount}, (_, i) => `${filename}.part${i + 1}.gz`)] *)
Definition chunk_names (filename : string) (chunkCount : Z) : list string :=
  map (fun i => filename +:+ ".part" +:+ pretty (Z.of_nat i + 1) +:+ ".gz")
      (seq 0 (Z.to_nat chunkCount)).

(** The [fileEntry] object that [updateDataJson] builds at time [t]. *)
Definition newEntry (filename : string) (chunkCount originalSize compressedSize : Z)
    (t : Z) : FileEntry :=
  {| fe_id := t; fe_name := filename; fe_category := detectFileCategory filename;
     fe_originalSize := originalSize; fe_compressedSize := compressedSize;
     fe_compressionRatio := compressionRatio compressedSize originalSize;
     fe_chunkCount := chunkCount; fe_uploadedAt := t;
     fe_folder := None;
     fe_chunks := Some (chunk_names filename chunkCount);
     fe_status := Some "complete"%string |}.

(** [updateDataJson(filename, chunkCount, originalSize, compressedSize)] *)
Definition updateDataJson (filename : string) (chunkCount originalSize compressedSize : Z)
    : M unit :=
  try_catch
    (t ← Date_now;
     let fileEntry := newEntry filename chunkCount originalSize compressedSize t in
     files_push fileEntry;;
     touch_lastUpdated;;
     uploadDataJsonToGitHub;;
     addLog LRegistryUpdated success)
    (fun e => addLog (LUpdateWarning e) info).

(** [saveFileMetadata(filename, chunkCount, compressedSize)].  The [btoa]
    of the metadata text, inside the [try] block, returns on strings of
    code units below 256. *)
Definition saveFileMetadata (filename : string) (chunkCount compressedSize : Z) : M unit :=
  t ← Date_now;
  let metadata := {| md_name := filename; md_chunkCount := chunkCount;
                     md_originalSize := None; md_compressedSize := compressedSize;
                     md_category := detectFileCategory filename;
                     md_uploadDate := t |} in
  let metadataPath := ASSETS_FOLDER +:+ "/" +:+ filename +:+ ".meta.json" in
  try_catch
    (response ← fetch {| rq_method := PUT; rq_path := metadataPath;
                         rq_message := Some (MMetadata filename);
                         rq_content := Some (DocMetadata metadata); rq_sha := None |};
     if ok response then addLog LMetadataSaved success else ret tt)
    (fun e => addLog (LMetadataWarning e) info).

(** [deleteFileFromGitHub(filePath)] *)
Definition deleteFileFromGitHub (filePath : string) : M unit :=
  getResponse ← fetch {| rq_method := GET; rq_path := filePath; rq_message := None;
                         rq_content := None; rq_sha := None |};
  deleteResponse ← fetch {| rq_method := DELETE; rq_path := filePath;
                            rq_message := Some MDelete; rq_content := None;
                            rq_sha := body_sha getResponse |};
  if negb (ok deleteResponse) then throw CouldNotDelete else ret tt.

(** The loop [for (let i = 1; i <= fileEntry.chunkCount; i++)] of
    [deleteFile]; [remaining] is the number of iterations left. *)
Fixpoint deleteChunks_loop (remaining : nat) (i : Z) (filename : string) : M unit :=
  match remaining with
  | O => ret tt
  | S remaining' =>
      let chunkName := filename +:+ ".part" +:+ pretty i +:+ ".gz" in
      let chunkPath := ASSETS_FOLDER +:+ "/" +:+ chunkName in
      deleteFileFromGitHub chunkPath;;
      deleteChunks_loop remaining' (i + 1) filename
  end.

(** [deleteFile(filename)] *)
Definition deleteFile (filename : string) : M unit :=
  confirmed ← confirm;
  if negb confirmed then ret tt
  else
    try_catch
      (fileEntry ← files_find filename;
       chunkCount ← match fileEntry with
                    | Some e => ret (fe_chunkCount e)
                    | None => throw FileNotInRegistry
                    end;
       deleteChunks_loop (Z.to_nat chunkCount) 1 filename;;
       let metaPath := ASSETS_FOLDER +:+ "/" +:+ filename +:+ ".meta.json" in
       deleteFileFromGitHub metaPath;;
       files_remove filename;;
       touch_lastUpdated;;
       uploadDataJsonToGitHub;;
       showStatus (SDeleted filename) success;;
       emit (Spawned "loadUploadedFiles"))
      (fun e => showStatus (SDeleteFailed (Some e)) error).

(** The [try] block of [startUpload] for the selected [file]: compress,
    chunk, transfer, save the metadata, update the registry.  The reload
    [loadUploadedFiles()] is not awaited and the reset of the selection is
    left to a timer of two seconds: both are recorded as spawned and run
    after [startUpload] has settled, outside this run. *)
Definition startUpload_try (file : File) : M unit :=
  addLog (LUploading (file_name file)) info;;
  compressed ← compressFile file;
  addLog (LCompressed (blob_size compressed)) success;;
  chunks ← createChunks compressed;
  let n := Z.of_nat (length chunks) in
  addLog (LChunks n) success;;
  addLog LUploadingChunks info;;
  uploadChunks chunks (file_name file);;
  saveFileMetadata (file_name file) n (blob_size compressed);;
  updateDataJson (file_name file) n (file_size file) (blob_size compressed);;
  addLog LComplete success;;
  showStatus SUploaded success;;
  emit (Spawned "loadUploadedFiles");;
  emit (Spawned "setTimeout(reset, 2000)").

(** [startUpload()] *)
Definition startUpload : M unit :=
  st ← gets appState;
  match selectedFile st with
  | None => showStatus SNoFile error
  | Some file =>
      valid ← validateSettings;
      if negb valid then
        showStatus SConfigure error;;
        emit (Dom "switchTab('settings')")
      else
        available ← try_catch (waitForCompressionLib;; ret true)
                              (fun e => showStatus (SNoCodec e) error;; ret false);
        if negb available then ret tt
        else
          modify (with_appState (with_isUploading true));;
          emit (Dom "uploadBtn.disabled = true");;
          emit (Dom "progressSection, uploadLog shown; statusMessage hidden; logContent cleared");;
          try_finally
            (try_catch
               (startUpload_try file)
               (fun e =>
                  addLog (LFailed e) error;;
                  showStatus (SUploadFailed e) error))
            (modify (with_appState (with_isUploading false));;
             emit (Dom "uploadBtn.disabled = false"))
  end.
(** *** Selecting a file *)

(** [handleFileSelect(e)], for the files [e.target.files].  The texts of
    the size and of the type of the file that it shows are left out of the
    changes of the page. *)
Definition handleFileSelect (files : list File) : M unit :=
  match files with
  | [] => ret tt
  | file :: _ =>
      if MAX_FILE_SIZE <? file_size file then
        showStatusText "File size exceeds 50GB limit" error;;
        emit (Dom "fileInput.value cleared")
      else
        modify (with_appState (with_selectedFile (Some file)));;
        let category := detectFileCategory (file_name file) in
        emit (Dom ("fileInfo shown; fileName.textContent = " +:+ file_name file));;
        emit (Dom ("fileCategory.className = category-badge " +:+ category));;
        emit (Dom "uploadBtn shown; uploadBtn.disabled = false");;
        emit (Dom "progressSection, uploadLog, statusMessage hidden")
  end.

(** *** Download *)

Section Download.

(** [gunzipSync] of fflate or [ungzip] of pako, whichever has loaded: it
    returns the decompressed bytes or throws. *)
Variable ungzip : Uint8Array -> Error + list byte.

(** The bytes that [atob] gives for the stored content of a document that
    is not a chunk. *)
Variable document_text : Document -> Uint8Array.

(** [JSON.parse(atob(metaData.content))] for stored content that is not a
    metadata object: it throws, or gives an object whose [chunkCount]
    bounds the loop like that of some metadata object and whose
    [originalName] reads as its name. *)
Variable parse_other : Document -> Error + Metadata.

(** [error.message] *)
Variable message_of : Error -> string.

(** [JSON.parse(atob(metaData.content))]; [md_name] is the
    [originalName] of the object that [saveFileMetadata] wrote. *)
Definition parse_metadata (doc : Document) : Error + Metadata :=
  match doc with
  | DocMetadata metadata => inr metadata
  | other => parse_other other
  end.

(** The loop [for (let i = 1; i <= metadata.chunkCount; i++)] of
    [downloadFile]; [remaining] is the number of iterations left and
    [chunks] the array pushed on so far. *)
Fixpoint downloadChunks_loop (remaining : nat) (i : Z) (filename : string)
    (chunks : list Uint8Array) : M (list Uint8Array) :=
  match remaining with
  | O => ret chunks
  | S remaining' =>
      let chunkName := filename +:+ ".part" +:+ pretty i +:+ ".gz" in
      let chunkPath := ASSETS_FOLDER +:+ "/" +:+ chunkName in
      chunkResponse ← fetch {| rq_method := GET; rq_path := chunkPath; rq_message := None;
                               rq_content := None; rq_sha := None |};
      if negb (ok chunkResponse) then
        throw (ApiError ("Could not download chunk " +:+ pretty i))
      else
        bytes ← match body_content chunkResponse with
                | Some doc => ret (Script.content_bytes document_text doc)
                | None => throw (ApiError "InvalidCharacterError")
                end;
        downloadChunks_loop remaining' (i + 1) filename (chunks ++ [bytes])
  end.

(** The [try] block of [downloadFile]; its value is the blob that is
    offered to the user under the name [metadata.originalName].  The
    chunks are concatenated as [combineChunks] of the batched variant
    does: a buffer of the total length, filled by [set] at the running
    offset. *)
Definition downloadFile_try (filename : string) : M (list byte) :=
  waitForCompressionLib;;
  let metaPath := ASSETS_FOLDER +:+ "/" +:+ filename +:+ ".meta.json" in
  metaResponse ← fetch {| rq_method := GET; rq_path := metaPath; rq_message := None;
                          rq_content := None; rq_sha := None |};
  if negb (ok metaResponse) then throw (ApiError "Could not find metadata")
  else
    metadata ← match body_content metaResponse with
               | Some doc =>
                   match parse_metadata doc with
                   | inr metadata => ret metadata
                   | inl e => throw e
                   end
               | None => throw (ApiError "InvalidCharacterError")
               end;
    chunks ← downloadChunks_loop (Z.to_nat (md_chunkCount metadata)) 1 filename [];
    concatenated ← match combineChunks chunks with
                   | Some concatenated => ret concatenated
                   | None => throw (ApiError "RangeError")
                   end;
    decompressed ← match ungzip concatenated with
                   | inr decompressed => ret decompressed
                   | inl e => throw e
                   end;
    emit (Dom ("a.download = " +:+ md_name metadata +:+ "; a.click()"));;
    showStatusText ("Downloaded: " +:+ md_name metadata) success;;
    ret decompressed.

(** [downloadFile(filename)]; the value is the blob offered to the user,
    if one is. *)
Definition downloadFile (filename : string) : M (option (list byte)) :=
  try_catch
    (decompressed ← downloadFile_try filename;
     ret (Some decompressed))
    (fun e =>
       showStatusText ("Download failed: " +:+ message_of e) error;;
       ret None).

End Download.

End Part0.

(** ** Observations on a run *)

(** The events that a run from [w] to [w'] added to the trace. *)
Definition events_since (w w' : World) : list Event :=
  drop (length (trace w)) (trace w').

Fixpoint fetches (evs : list Event) : list (Request * option Response) :=
  match evs with
  | [] => []
  | Fetched rq rs :: rest => (rq, rs) :: fetches rest
  | _ :: rest => fetches rest
  end.

Fixpoint delays_of (evs : list Event) : list Z :=
  match evs with
  | [] => []
  | Delayed ms :: rest => ms :: delays_of rest
  | _ :: rest => delays_of rest
  end.

(** The reports made to the upload progress bar. *)
Fixpoint progress_reports (evs : list Event) : list Percentage :=
  match evs with
  | [] => []
  | Progress elementId p :: rest =>
      if String.eqb elementId "uploadProgress" then p :: progress_reports rest
      else progress_reports rest
  | _ :: rest => progress_reports rest
  end.

(** The numbers of the chunks whose transfer completed. *)
Fixpoint completions (evs : list Event) : list Z :=
  match evs with
  | [] => []
  | Logged (LChunkDone n _) _ :: rest => n :: completions rest
  | _ :: rest => completions rest
  end.

(** The status that [uploadChunk] accepts, and the one a failed response
    has for a variant that accepts [accepted]. *)
Definition created_or_ok (rs : Response) : bool := (status rs =? 201) || (status rs =? 200).

Definition failed (accepted : Response -> bool) (rs : option Response) : bool :=
  match rs with
  | None => true
  | Some rs => negb (accepted rs)
  end.

(** Whether an event is a failed attempt to transfer chunk number [n]. *)
Definition failed_attempt (accepted : Response -> bool) (n : Z) (e : Event) : bool :=
  match e with
  | Fetched rq rs =>
      match rq_method rq, rq_message rq with
      | PUT, Some (MChunk k _) => (k =? n) && failed accepted rs
      | _, _ => false
      end
  | _ => false
  end.

Definition failed_attempts (accepted : Response -> bool) (n : Z) (evs : list Event) : nat :=
  length (List.filter (failed_attempt accepted n) evs).

(** Whether an event is a request. *)
Definition is_fetch (e : Event) : Prop :=
  match e with
  | Fetched _ _ => True
  | _ => False
  end.

(** Whether an event is the write of a registry document. *)
Definition registry_write (e : Event) : bool :=
  match e with
  | Fetched rq _ =>
      match rq_method rq, rq_content rq with
      | PUT, Some (DocRegistry _) => true
      | _, _ => false
      end
  | _ => false
  end.

(** The events of the transfer of chunk number [n]: its PUT requests, the
    delays and retry lines between them, and its completion line. *)
Definition chunk_event (n : Z) (e : Event) : Prop :=
  match e with
  | Fetched rq _ =>
      rq_method rq = PUT
      /\ (exists total, rq_message rq = Some (MChunk n total))
      /\ (exists payload, rq_content rq = Some (DocChunk payload))
  | Delayed _ => True
  | Logged (LChunkDone k _) _ => k = n
  | Logged (LRetry _ _ k) _ => k = n
  | _ => False
  end.

(** The events of the transfer of the chunks numbered above [lo] and up
    to [hi]: their PUT requests, delays, log lines and progress reports. *)
Definition upload_event (lo hi : Z) (e : Event) : Prop :=
  match e with
  | Fetched rq _ =>
      rq_method rq = PUT
      /\ (exists n total, lo < n <= hi /\ rq_message rq = Some (MChunk n total))
      /\ (exists payload, rq_content rq = Some (DocChunk payload))
  | Delayed _ | Progress _ _ | Logged _ _ => True
  | _ => False
  end.

(** Whether, each time a chunk completes and when the transfer ends, as
    many progress reports have been made as chunks had completed before:
    [done] and [reported] count the completions and the reports so far. *)
Fixpoint keeps_up (done reported : nat) (evs : list Event) : bool :=
  match evs with
  | [] => (done <=? reported)%nat
  | Logged (LChunkDone _ _) _ :: rest =>
      (done <=? reported)%nat && keeps_up (S done) reported rest
  | Progress elementId _ :: rest =>
      if String.eqb elementId "uploadProgress" then keeps_up done (S reported) rest
      else keeps_up done reported rest
  | _ :: rest => keeps_up done reported rest
  end.


(** What a run of a per-chunk transfer of chunk [n] that starts at attempt
    [attempt] of [limit] looks like: its events are those of the chunk, it
    makes between one and [limit - attempt] requests, [delay_before k] is
    waited before attempt [k + 1], and it returns after one accepted
    request or throws after [limit - attempt] failed ones. *)
Definition transfer_run (accepted : Response -> bool) (delay_after : Z -> Z)
    (limit attempt n : Z) (o : Outcome unit) (evs : list Event) : Prop :=
  Forall (chunk_event n) evs
  /\ 1 <= Z.of_nat (length (fetches evs)) <= limit - attempt
  /\ delays_of evs
     = delay_after <$> seqZ (attempt + 1) (Z.of_nat (length (fetches evs)) - 1)
  /\ match o with
     | Returned _ =>
         completions evs = [n]
         /\ S (failed_attempts accepted n evs) = length (fetches evs)
     | Thrown e =>
         completions evs = []
         /\ failed_attempts accepted n evs = length (fetches evs)
         /\ Z.of_nat (length (fetches evs)) = limit - attempt
     | OutOfFuel => False
     end.

(** What a run of a transfer loop over the chunks numbered above [lo] and
    up to [hi] looks like: its events are those of these chunks, and when
    it returns no chunk has failed three times and the chunks completed in
    order. *)
Definition engine_run (accepted : Response -> bool) (lo hi : Z)
    (o : Outcome unit) (evs : list Event) : Prop :=
  Forall (upload_event lo hi) evs
  /\ match o with
     | Returned _ =>
         (forall n, failed_attempts accepted n evs <= 2)%nat
         /\ completions evs = seqZ (lo + 1) (hi - lo)
     | Thrown _ => True
     | OutOfFuel => False
     end.

(** Whether an event reports a failure to the user. *)
Definition failure_status (e : Event) : bool :=
  match e with
  | Status _ error => true
  | _ => false
  end.

(** The registry that the remote store holds. *)
Definition remote_registry (w : World) : option Registry :=
  match remote w !! "data.json"%string with
  | Some (DocRegistry r, _) => Some r
  | _ => None
  end.

(** What the failure of a request leaves of the store and its next
    token: the write of another client, when the network event was one. *)
Definition rival_step (st : Store * Z) (ev : NetEvent) : Store * Z :=
  match ev with
  | Rival path doc => (<[path := (doc, snd st)]> (fst st), snd st + 1)
  | _ => st
  end.

(** The store and its next token after the writes of the other clients
    that the network events [evs] hold. *)
Definition other_clients (evs : list NetEvent) (st : Store * Z) : Store * Z :=
  foldl rival_step st evs.

(** The token that a read of the registry gives for the write. *)
Definition token_of (get : option Response) : option Z :=
  match get with
  | Some rs => if ok rs then body_sha rs else None
  | None => None
  end.

(** The events of [uploadDataJsonToGitHub] when the read of the registry
    gets [g] and the write of [content], if it is made, gets [p]: a read
    that is rejected by the network leaves no write. *)
Definition uploadDataJson_events (content : Document) (g p : option Response) : list Event :=
  Fetched Part0.registryGet g ::
  match g with
  | None => [Logged (LUploadWarning NetworkFailure) info]
  | Some _ =>
      Fetched (Part0.registryPut content (token_of g)) p ::
      match p with
      | None => [Logged (LUploadWarning NetworkFailure) info]
      | Some rs => if ok rs then [] else [Logged (LUploadWarning DataJsonNotUpdated) info]
      end
  end.

(** The in-memory registry. *)
Definition cached_files (w : World) : list FileEntry := files (dataJson (appState w)).

(** Each element is less than the next. *)
Fixpoint strictly_increasing (l : list Z) : Prop :=
  match l with
  | a :: (b :: _) as rest => a < b /\ strictly_increasing rest
  | _ => True
  end.

(** Whether the character occurs in the string. *)
Fixpoint occurs (c : ascii) (s : string) : bool :=
  match s with
  | EmptyString => false
  | String c' s' => Ascii.eqb c' c || occurs c s'
  end.

(** ** Sample data *)

Definition sampleFile : File :=
  {| file_name := "notes.txt"; file_bytes := [Byte.x01; Byte.x02; Byte.x03] |}.

Definition sampleSettings : Settings :=
  {| token := "t"; owner := "o"; repo := "r"; branch := "main" |}.

(** A stand-in for gzip: a two-byte header before the input. *)
Definition sampleCodec (input : list byte) : option Blob :=
  Some (Byte.x1f :: Byte.x8b :: input).

(** A world with a file selected, valid settings, the registry [cache] in
    memory, the store [st] and the network schedule [net]. *)
Definition sampleWorld (cache : list FileEntry) (st : Store) (net : list NetEvent) : World :=
  {| appState := {| selectedFile := Some sampleFile; settings := sampleSettings;
                    isUploading := false; isDownloading := false;
                    dataJson := with_files (fun _ => cache) (emptyRegistry 0) |};
     remote := st; fresh := 100; network := net; gzip := sampleCodec;
     libraryLoaded := true; userConfirms := true; clock := 1000; trace := [] |}.

(** An entry uploaded earlier, by this or another client. *)
Definition earlierEntry : FileEntry :=
  {| fe_id := 500; fe_name := "report.pdf"; fe_category := "document";
     fe_originalSize := 1000; fe_compressedSize := 400;
     fe_compressionRatio := compressionRatio 400 1000;
     fe_chunkCount := 1; fe_uploadedAt := 500;
     fe_folder := Some "files/report.pdf"%string; fe_chunks := None; fe_status := None |}.

(** A store whose registry holds [earlierEntry] under token 7. *)
Definition earlierStore : Store :=
  {[ "data.json"%string := (DocRegistry (with_files (fun _ => [earlierEntry]) (emptyRegistry 0)), 7) ]}.

(** The registry another client writes when it registers its own upload. *)
Definition rivalRegistry : Registry :=
  with_files (fun _ => [earlierEntry; earlierEntry]) (emptyRegistry 0).

(** What the [catch] block of [startUpload] leaves in the trace when the
    upload was rejected: the error logged and reported as a failure. *)
Definition upload_rejected (evs : list Event) : Prop :=
  exists e, Logged (LFailed e) error ∈ evs /\ Status (SUploadFailed e) error ∈ evs.

(** Nothing was registered between [w] and [w']: the in-memory registry is
    the same and no registry document was written. *)
Definition nothing_registered (w w' : World) : Prop :=
  dataJson (appState w') = dataJson (appState w)
  /\ Forall (fun ev => registry_write ev = false) (events_since w w').

(** ** The statistics tab, the same in both variants *)

(** The names that the object [{}] inherits from [Object.prototype]:
    reading such a key of an object literal gives a function or an
    object, which is truthy, and writing a property of that value leaves
    the object literal without an own entry. *)
Definition inherited_key (k : string) : bool :=
  js_includes ["constructor"; "hasOwnProperty"; "isPrototypeOf"; "propertyIsEnumerable";
               "toLocaleString"; "toString"; "valueOf"; "__proto__"; "__defineGetter__";
               "__defineSetter__"; "__lookupGetter__"; "__lookupSetter__"] k.

(** [file.category || 'other'] *)
Definition category_or_other (file : FileEntry) : string :=
  if String.eqb (fe_category file) "" then "other" else fe_category file.

(** The body of the [forEach] of [updateStatistics], on the object
    [stats] as a map from its own keys to [{count, totalSize}]:
<<
    const category = file.category || 'other';
    if (!stats[category]) { stats[category] = { count: 0, totalSize: 0 }; }
    stats[category].count++;
    stats[category].totalSize += file.compressedSize;
>> *)
Definition stats_step (stats : gmap string (Z * Z)) (file : FileEntry) : gmap string (Z * Z) :=
  let category := category_or_other file in
  if inherited_key category then stats
  else
    let stats := match stats !! category with
                 | None => <[category := (0, 0)]> stats
                 | Some _ => stats
                 end in
    alter (fun d => (fst d + 1, snd d + fe_compressedSize file)) category stats.

(** The [stats] object of [updateStatistics] after the [forEach]. *)
Definition categoryStats (files : list FileEntry) : gmap string (Z * Z) :=
  foldl stats_step ∅ files.

(** [files.reduce((sum, f) => sum + f.originalSize, 0)] and
    [files.reduce((sum, f) => sum + f.compressedSize, 0)] of
    [updateStorageInfo]. *)
Definition totalOriginal (files : list FileEntry) : Z :=
  foldl (fun sum f => sum + fe_originalSize f) 0 files.

Definition totalCompressed (files : list FileEntry) : Z :=
  foldl (fun sum f => sum + fe_compressedSize f) 0 files.

(** ** Further observations *)

(** Whether no character of the string is one of the class that
    [sanitize] replaces. *)
Fixpoint path_safe (s : string) : bool :=
  match s with
  | EmptyString => true
  | String c s' => negb (path_breaking c) && path_safe s'
  end.




(** The path of chunk number [n] of an upload into [fileFolder], in the
    batched variant, and of chunk number [n] of the file [filename], in
    the sequential one. *)
Definition Script_chunkPath (fileFolder : string) (n : Z) : string :=
  fileFolder +:+ "/" +:+ ("chunk_" +:+ padStart5 n +:+ ".gz").

Definition Part0_chunkPath (filename : string) (n : Z) : string :=
  Part0.ASSETS_FOLDER +:+ "/" +:+ (filename +:+ ".part" +:+ pretty n +:+ ".gz").

(** The sum of a field over the entries of the [stats] object. *)
Definition stats_total (field : Z * Z -> Z) (stats : gmap string (Z * Z)) : Z :=
  map_fold (fun _ d sum => field d + sum) 0 stats.

(** ** Undisturbed runs *)

(** What a run that started in [w] with a network that delivers every
    request leaves of the network, the codec and the user in [w']. *)
Definition quiet_after (w w' : World) : Prop :=
  network w' = [] /\ gzip w' = gzip w /\ libraryLoaded w' = libraryLoaded w
  /\ userConfirms w' = userConfirms w /\ clock w' = clock w.


(** The bytes that a download reads at a path of the store. *)
Definition stored_bytes (document_text : Document -> Uint8Array) (st : Store) (path : string)
    : Uint8Array :=
  match st !! path with
  | Some (doc, _) => Script.content_bytes document_text doc
  | None => []
  end.

(** A world that differs from [w] by its trace only, as reads on a
    network that delivers leave it. *)
Definition read_only (w w' : World) : Prop :=
  remote w' = remote w /\ fresh w' = fresh w /\ appState w' = appState w /\ quiet_after w w'.

(** The store after the objects at [paths] have been deleted. *)
Definition delete_all (paths : list string) (st : Store) : Store :=
  foldl (fun st p => delete p st) st paths.

(** The read of the object at [path]. *)
Definition getRequest (path : string) : Request :=
  {| rq_method := GET; rq_path := path; rq_message := None; rq_content := None;
     rq_sha := None |}.

(** A store that holds the one chunk of a compressed [sampleFile] in the
    folder of the batched variant, and a codec that undoes [sampleCodec]. *)
Definition sampleChunkStore : Store :=
  {[ "files/notes.txt/chunk_00001.gz"%string
       := (DocChunk [Byte.x1f; Byte.x8b; Byte.x01; Byte.x02; Byte.x03], 7) ]}.

Definition sampleUngzip (compressed : Uint8Array) : Error + list byte :=
  match compressed with
  | b1 :: b2 :: rest =>
      if Byte.eqb b1 Byte.x1f && Byte.eqb b2 Byte.x8b then inr rest
      else inl CompressionFailed
  | _ => inl CompressionFailed
  end.

Definition sampleText (doc : Document) : Uint8Array := [].

(** A store that holds the chunk of [earlierEntry] in its folder beside
    the registry. *)
Definition earlierChunkStore : Store :=
  <[ "files/report.pdf/chunk_00001.gz"%string := (DocChunk [Byte.x1f; Byte.x8b], 8) ]>
    earlierStore.

(** An entry of the sequential variant for a compressed [sampleFile], and
    a store that holds its chunk and its metadata object. *)
Definition sequentialEntry : FileEntry := Part0.newEntry "notes.txt" 1 3 5 500.

Definition sequentialStore : Store :=
  <[ "assets/notes.txt.part1.gz"%string
       := (DocChunk [Byte.x1f; Byte.x8b; Byte.x01; Byte.x02; Byte.x03], 7) ]>
    {[ "assets/notes.txt.meta.json"%string
         := (DocMetadata {| md_name := "notes.txt"; md_chunkCount := 1;
                            md_originalSize := None; md_compressedSize := 5;
                            md_category := "document"; md_uploadDate := 500 |}, 8) ]}.

(** ** The list of files and its filter, the same in both variants *)

(** [s.startsWith(sub)] *)
Fixpoint starts_with (s sub : string) {struct sub} : bool :=
  match sub, s with
  | EmptyString, _ => true
  | String b sub', String a s' => Ascii.eqb a b && starts_with s' sub'
  | String _ _, EmptyString => false
  end.

(** [s.includes(sub)]: [sub] starts at some position of [s]. *)
Fixpoint string_includes (s sub : string) : bool :=
  starts_with s sub
  || match s with
     | EmptyString => false
     | String _ s' => string_includes s' sub
     end.

(** [div.dataset.name] of the item that [createFileItem] and
    [createFileItemFromData] build for an entry,
    [(file.name || '').toLowerCase()]; its [dataset.category] is
    [category_or_other]. *)
Definition dataset_name (file : FileEntry) : string := toLowerCase (fe_name file).

(** Whether [filterFiles] shows the item of [file], for the values of
    the search input and of the category filter:
<<
    const search = document.getElementById('searchInput').value.toLowerCase();
    const category = document.getElementById('categoryFilter').value;
    ...
    const matchSearch = item.dataset.name.includes(search);
    const matchCat = !category || item.dataset.category === category;
    item.style.display = (matchSearch && matchCat) ? 'flex' : 'none';
>> *)
Definition displayed (searchInput categoryFilter : string) (file : FileEntry) : bool :=
  let search := toLowerCase searchInput in
  let matchSearch := string_includes (dataset_name file) search in
  let matchCat := String.eqb categoryFilter "" || String.eqb (category_or_other file) categoryFilter in
  matchSearch && matchCat.

(** ** Sessions *)

(** What the user does on the page of the batched variant and on that of
    the sequential variant: choosing files in the file input, and the
    upload, download and delete buttons. *)
Inductive ScriptAction :=
  | ScriptPick (files : list File)
  | ScriptUpload
  | ScriptDownload (fileName folderPath : string) (chunkCount : Z)
  | ScriptDelete (fileName folderPath : string).

Inductive Part0Action :=
  | Part0Pick (files : list File)
  | Part0Upload
  | Part0Download (filename : string)
  | Part0Delete (filename : string).

(** The application is idle and within the limit: no transfer is marked
    as under way and the selected file, if any, has at most [limit]
    bytes. *)
Definition idle (limit : Z) (w : World) : Prop :=
  isUploading (appState w) = false
  /\ isDownloading (appState w) = false
  /\ match selectedFile (appState w) with
     | Some file => file_size file <= limit
     | None => True
     end.

Section Sessions.

Variable ungzip : Uint8Array -> Error + list byte.
Variable document_text : Document -> Uint8Array.
Variable parse_other : Document -> Error + Metadata.
Variable message_of : Error -> string.

(** The handler of an action. *)
Definition Script_perform (action : ScriptAction) : M unit :=
  match action with
  | ScriptPick files => Script.handleFileSelect files
  | ScriptUpload => Script.startUpload
  | ScriptDownload fileName folderPath chunkCount =>
      Script.downloadFile ungzip document_text fileName folderPath chunkCount;; ret tt
  | ScriptDelete fileName folderPath => Script.deleteFile fileName folderPath
  end.

Definition Part0_perform (action : Part0Action) : M unit :=
  match action with
  | Part0Pick files => Part0.handleFileSelect files
  | Part0Upload => Part0.startUpload
  | Part0Download filename =>
      Part0.downloadFile ungzip document_text parse_other message_of filename;; ret tt
  | Part0Delete filename => Part0.deleteFile filename
  end.

(** A session: the handlers of the actions run one after the other, each
    after the one before it has settled, whatever its outcome was.  The
    value is the list of the outcomes and the last world. *)
Fixpoint session {Action} (perform : Action -> M unit) (actions : list Action) (w : World)
    : list (Outcome unit) * World :=
  match actions with
  | [] => ([], w)
  | action :: rest =>
      let '(o, w1) := perform action w in
      let '(os, w2) := session perform rest w1 in
      (o :: os, w2)
  end.

End Sessions.


(** * Properties *)

(** ** The chunker *)

Section Chunker.
Variable CHUNK_SIZE : Z.
Hypothesis CHUNK_SIZE_pos : 1 <= CHUNK_SIZE.

Lemma blob_size_nonneg (b : Blob) : 0 <= blob_size b.
Proof. unfold blob_size. lia. Qed.

Lemma blob_size_app (a b : Blob) : blob_size (a ++ b) = blob_size a + blob_size b.
Proof. unfold blob_size. rewrite length_app. lia. Qed.

(** Inside the blob, [slice] is [take] after [drop]. *)
Lemma blob_slice_inside (blob : Blob) (k : nat) :
  (k < length blob)%nat ->
  blob_slice blob (Z.of_nat k) (Z.of_nat k + CHUNK_SIZE)
  = take (Z.to_nat CHUNK_SIZE) (drop k blob).
Proof using CHUNK_SIZE_pos.
  intros Hk. unfold blob_slice, js_slice, relative_bound, blob_size.
  destruct (Z.ltb_spec (Z.of_nat k) 0) as [?|_]; [lia|].
  destruct (Z.ltb_spec (Z.of_nat k + CHUNK_SIZE) 0) as [?|_]; [lia|].
  rewrite (Z.min_l (Z.of_nat k)) by lia.
  rewrite Nat2Z.id.
  destruct (Z.le_ge_cases (Z.of_nat k + CHUNK_SIZE) (Z.of_nat (length blob))) as [Hle|Hge].
  - rewrite Z.min_l by lia. rewrite Z.max_l by lia.
    f_equal. lia.
  - rewrite Z.min_r by lia. rewrite Z.max_l by lia.
    rewrite !take_ge; [done| |]; rewrite length_drop; lia.
Qed.

(** The loop invariant: started at byte [k] with enough fuel, the loop
    ends and appends the chunks [rest], whose [i]-th element is the
    window of [CHUNK_SIZE] bytes that starts at [k + i * CHUNK_SIZE]. *)
Lemma createChunks_loop_spec (blob : Blob) (fuel k : nat) (chunks : list Blob) :
  (length blob - k <= fuel)%nat ->
  exists rest,
    createChunks_loop CHUNK_SIZE fuel blob (Z.of_nat k) chunks = Some (chunks ++ rest)
    /\ concat rest = drop k blob
    /\ (Z.of_nat k < blob_size blob + CHUNK_SIZE ->
        Z.of_nat (length rest) = ceil_div (blob_size blob - Z.of_nat k) CHUNK_SIZE)
    /\ (forall (i : nat) (c : Blob), rest !! i = Some c ->
          (k + i * Z.to_nat CHUNK_SIZE < length blob)%nat
          /\ c = take (Z.to_nat CHUNK_SIZE) (drop (k + i * Z.to_nat CHUNK_SIZE) blob)).
Proof using CHUNK_SIZE_pos.
  revert k chunks. induction fuel as [|fuel IH]; intros k chunks Hfuel.
  - exists []. cbn [createChunks_loop]. unfold blob_size.
    destruct (Z.ltb_spec (Z.of_nat k) (Z.of_nat (length blob))) as [?|Hge]; [lia|].
    rewrite app_nil_r, drop_ge by lia.
    split; [done|]. split; [done|]. split; [|intros i c Hi; discriminate].
    intros Hk. unfold ceil_div, blob_size in *. cbn. symmetry. apply Z.div_small. lia.
  - cbn [createChunks_loop].
    destruct (Z.ltb_spec (Z.of_nat k) (blob_size blob)) as [Hlt|Hge].
    + unfold blob_size in Hlt.
      rewrite blob_slice_inside by lia.
      set (sn := Z.to_nat CHUNK_SIZE).
      replace (Z.of_nat k + CHUNK_SIZE) with (Z.of_nat (k + sn)) by lia.
      destruct (IH (k + sn)%nat (chunks ++ [take sn (drop k blob)]))
        as (rest & Hrun & Hcat & Hlen & Hsz); [lia|].
      exists (take sn (drop k blob) :: rest).
      split; [|split; [|split]].
      * rewrite Hrun, <- app_assoc. done.
      * cbn [concat]. rewrite Hcat.
        rewrite <- (take_drop sn (drop k blob)) at 2.
        rewrite drop_drop. done.
      * intros _. cbn [length]. rewrite Nat2Z.inj_succ, Hlen by (unfold blob_size; lia).
        unfold ceil_div, blob_size.
        replace (Z.of_nat (length blob) - Z.of_nat k + CHUNK_SIZE - 1)
          with ((Z.of_nat (length blob) - Z.of_nat (k + sn) + CHUNK_SIZE - 1) + 1 * CHUNK_SIZE)
          by lia.
        rewrite Z.div_add by lia. lia.
      * intros i c Hi. destruct i as [|i]; cbn in Hi.
        -- injection Hi as <-. rewrite Nat.add_0_r. split; [lia|done].
        -- apply Hsz in Hi as [Hin ->]. split; [lia|]. f_equal. f_equal. lia.
    + unfold blob_size in Hge. exists []. rewrite app_nil_r, drop_ge by lia.
      split; [done|]. split; [done|]. split; [|intros i c Hi; discriminate].
      intros Hk. unfold ceil_div, blob_size in *. cbn. symmetry. apply Z.div_small. lia.
Qed.

Lemma foldl_sizes (chunks : list Uint8Array) (acc : Z) :
  foldl (fun sum c => sum + blob_size c) acc chunks = acc + blob_size (concat chunks).
Proof.
  revert acc. induction chunks as [|c chunks IH]; intros acc; cbn.
  - unfold blob_size. cbn. lia.
  - rewrite IH, blob_size_app. lia.
Qed.

End Chunker.

(** Filling a buffer chunk by chunk from [offset] writes the concatenation
    of the chunks there and leaves the rest of the buffer as it was. *)
Lemma combine_forEach_spec (chunks : list Uint8Array) (combined : Uint8Array) (k : nat) :
  (k + length (concat chunks) <= length combined)%nat ->
  combine_forEach chunks combined (Z.of_nat k)
  = Some (take k combined ++ concat chunks ++ drop (k + length (concat chunks)) combined).
Proof.
  revert combined k. induction chunks as [|c chunks IH]; intros combined k Hfit.
  - cbn. rewrite Nat.add_0_r, take_drop. done.
  - cbn [combine_forEach concat]. cbn [concat] in Hfit. rewrite length_app in Hfit.
    unfold typed_set, blob_size.
    destruct (Z.ltb_spec (Z.of_nat k) 0) as [?|_]; [lia|].
    destruct (Z.ltb_spec (Z.of_nat (length combined)) (Z.of_nat k + Z.of_nat (length c))) as [?|_];
      [lia|]. cbn [orb].
    rewrite Nat2Z.id.
    replace (Z.of_nat k + Z.of_nat (length c)) with (Z.of_nat (k + length c)) by lia.
    rewrite Nat2Z.id, IH.
    + f_equal. rewrite length_app.
      rewrite take_app_ge; rewrite length_take_le by lia; [|lia].
      rewrite take_app_ge by lia.
      replace (k + length c - k - length c)%nat with 0%nat by lia. rewrite take_0, app_nil_r.
      rewrite <- !app_assoc. f_equal. f_equal. f_equal.
      rewrite drop_app_ge; rewrite length_take_le by lia; [|lia].
      rewrite drop_app_ge by lia.
      rewrite drop_drop. f_equal. lia.
    + rewrite !length_app, length_take_le, length_drop by lia. lia.
Qed.

Lemma combineChunks_concat (chunks : list Uint8Array) :
  combineChunks chunks = Some (concat chunks).
Proof.
  unfold combineChunks. rewrite foldl_sizes, Z.add_0_l.
  unfold new_Uint8Array, blob_size. rewrite Nat2Z.id.
  change 0 with (Z.of_nat 0). rewrite combine_forEach_spec.
  - cbn. rewrite drop_ge by (rewrite length_replicate; lia). rewrite app_nil_r. done.
  - rewrite length_replicate. lia.
Qed.

(** The chunker, for a chunk size of at least one byte. *)
Lemma createChunksWith_spec (CHUNK_SIZE : Z) (blob : Blob) :
  1 <= CHUNK_SIZE ->
  exists chunks,
    createChunksWith CHUNK_SIZE blob = Some chunks
    /\ concat chunks = blob
    /\ Z.of_nat (length chunks) = ceil_div (blob_size blob) CHUNK_SIZE
    /\ (forall (i : nat) (c : Blob), chunks !! i = Some c ->
          (S i < length chunks -> blob_size c = CHUNK_SIZE)%nat
          /\ (S i = length chunks -> 1 <= blob_size c <= CHUNK_SIZE)).
Proof.
  intros Hs.
  destruct (createChunks_loop_spec CHUNK_SIZE Hs blob (length blob) 0 [])
    as (chunks & Hrun & Hcat & Hlen & Hsz); [lia|].
  cbn in Hrun, Hcat. rewrite Z.sub_0_r in Hlen.
  specialize (Hlen ltac:(pose proof (blob_size_nonneg blob); lia)).
  exists chunks. split; [exact Hrun|]. split; [exact Hcat|]. split; [exact Hlen|].
  intros i c Hi. destruct (Hsz i c Hi) as [Hin ->]. cbn in Hin.
  unfold blob_size. rewrite length_take, length_drop. cbn [Nat.add].
  split.
  - intros Hnext.
    destruct (lookup_lt_is_Some_2 chunks (S i) Hnext) as [c' Hc'].
    apply Hsz in Hc' as [Hin' _]. cbn in Hin'. lia.
  - intros _. lia.
Qed.

(** C1. Chunk round-trip: for every blob and every chunk size of at least
    one byte, [createChunks] returns a chunk list whose combination by
    [combineChunks] is the blob; the number of chunks is the ceiling of
    the blob size over the chunk size (zero for the empty blob); every
    chunk but the last has exactly the chunk size and the last has between
    one byte and the chunk size. *)
Theorem createChunks_roundtrip (CHUNK_SIZE : Z) (blob : Blob) :
  1 <= CHUNK_SIZE ->
  exists chunks,
    createChunksWith CHUNK_SIZE blob = Some chunks
    /\ combineChunks chunks = Some blob
    /\ Z.of_nat (length chunks) = ceil_div (blob_size blob) CHUNK_SIZE
    /\ (blob_size blob = 0 -> length chunks = 0%nat)
    /\ (forall (i : nat) (c : Blob), chunks !! i = Some c ->
          (S i < length chunks -> blob_size c = CHUNK_SIZE)%nat
          /\ (S i = length chunks -> 1 <= blob_size c <= CHUNK_SIZE)).
Proof.
  intros Hs.
  destruct (createChunksWith_spec CHUNK_SIZE blob Hs) as (chunks & Hrun & Hcat & Hlen & Hsz).
  exists chunks. split; [exact Hrun|]. split; [|split; [exact Hlen|split; [|exact Hsz]]].
  - rewrite combineChunks_concat, Hcat. done.
  - intros H0. rewrite H0 in Hlen. unfold ceil_div in Hlen.
    rewrite Z.div_small in Hlen by lia. lia.
Qed.

Lemma createChunks_roundtrip_witness :
  exists chunks,
    createChunksWith Script.CHUNK_SIZE (file_bytes sampleFile) = Some chunks
    /\ combineChunks chunks = Some (file_bytes sampleFile)
    /\ Z.of_nat (length chunks) = ceil_div (blob_size (file_bytes sampleFile)) Script.CHUNK_SIZE
    /\ (blob_size (file_bytes sampleFile) = 0 -> length chunks = 0%nat)
    /\ (forall (i : nat) (c : Blob), chunks !! i = Some c ->
          (S i < length chunks -> blob_size c = Script.CHUNK_SIZE)%nat
          /\ (S i = length chunks -> 1 <= blob_size c <= Script.CHUNK_SIZE)).
Proof.
  apply (createChunks_roundtrip Script.CHUNK_SIZE (file_bytes sampleFile)).
  unfold Script.CHUNK_SIZE. lia.
Defined.

(** Both configured chunk sizes are positive, so [createChunks] returns in
    both variants. *)
Lemma createChunks_returns (blob : Blob) :
  (exists chunks, Script.createChunks blob = Some chunks /\ concat chunks = blob)
  /\ (exists chunks, createChunksWith Part0.CHUNK_SIZE blob = Some chunks /\ concat chunks = blob).
Proof.
  split.
  - destruct (createChunksWith_spec Script.CHUNK_SIZE blob) as (chunks & Hrun & Hcat & _);
      [unfold Script.CHUNK_SIZE; lia|].
    by exists chunks.
  - destruct (createChunksWith_spec Part0.CHUNK_SIZE blob) as (chunks & Hrun & Hcat & _);
      [unfold Part0.CHUNK_SIZE; lia|].
    by exists chunks.
Qed.

(** A chunk size of zero never advances the offset: the loop does not end
    on a blob that is not empty. *)
Lemma createChunks_zero_size_diverges (fuel : nat) (blob : Blob) (chunks : list Blob) :
  blob <> [] -> createChunks_loop 0 fuel blob 0 chunks = None.
Proof.
  intros Hne. revert chunks. induction fuel as [|fuel IH]; intros chunks; cbn [createChunks_loop].
  - destruct (Z.ltb_spec 0 (blob_size blob)) as [_|Hge]; [done|].
    destruct blob; [done|]. unfold blob_size in Hge. cbn in Hge. lia.
  - destruct (Z.ltb_spec 0 (blob_size blob)) as [_|Hge].
    + rewrite Z.add_0_l. apply IH.
    + destruct blob; [done|]. unfold blob_size in Hge. cbn in Hge. lia.
Qed.

(** ** Category detection *)

Lemma js_includes_elem_of (l : list string) (x : string) :
  js_includes l x = true <-> x ∈ l.
Proof.
  unfold js_includes. rewrite existsb_exists. split.
  - intros (y & Hin & Heq). apply String.eqb_eq in Heq as ->. by apply list_elem_of_In.
  - intros Hin. exists x. split; [by apply list_elem_of_In|apply String.eqb_refl].
Qed.

Lemma js_includes_not_elem_of (l : list string) (x : string) :
  js_includes l x = false <-> x ∉ l.
Proof.
  rewrite <- js_includes_elem_of. destruct (js_includes l x); split; congruence.
Qed.

(** The loop returns the key of the first entry that lists the extension,
    and ["other"] when no entry does. *)
Lemma first_category_first_match (table : list (string * list string)) (ext : string) :
  (exists (i : nat) category extensions,
      table !! i = Some (category, extensions)
      /\ ext ∈ extensions
      /\ (forall (j : nat) c e, (j < i)%nat -> table !! j = Some (c, e) -> ext ∉ e)
      /\ first_category table ext = category)
  \/ ((forall c e, (c, e) ∈ table -> ext ∉ e)
      /\ first_category table ext = "other"%string).
Proof.
  induction table as [|[category extensions] rest IH]; cbn [first_category].
  - right. split; [|done]. intros c e Hin. by apply elem_of_nil in Hin.
  - destruct (js_includes extensions ext) eqn:Hinc.
    + left. exists 0%nat, category, extensions. split; [done|].
      split; [by apply js_includes_elem_of|]. split; [|done]. intros j c e Hj. lia.
    + apply js_includes_not_elem_of in Hinc.
      destruct IH as [(i & c & e & Hi & Hin & Hfirst & Hres)|[Hnone Hres]].
      * left. exists (S i), c, e. split; [done|]. split; [done|]. split; [|done].
        intros [|j] c' e' Hj Hlook; cbn in Hlook.
        -- by injection Hlook as <- <-.
        -- apply (Hfirst j c' e'); [lia|done].
      * right. split; [|done]. intros c e Hin.
        apply elem_of_cons in Hin as [Heq|Hin]; [by injection Heq as -> ->|].
        by apply (Hnone c e).
Qed.

Lemma js_split_nonempty (sep : ascii) (s : string) : js_split sep s <> [].
Proof.
  destruct s as [|c s]; cbn; [done|].
  destruct (Ascii.eqb c sep); [done|]. by destruct (js_split sep s).
Qed.

(** Splitting a string that does not hold the separator gives the string. *)
Lemma js_split_absent (sep : ascii) (s : string) :
  occurs sep s = false -> js_split sep s = [s].
Proof.
  induction s as [|c s IH]; cbn; [done|].
  intros Hocc. apply orb_false_iff in Hocc as [Hc Hs].
  rewrite Hc, (IH Hs). done.
Qed.

(** C6. Category detection: for every file name, [detectFileCategory]
    returns the first category, in the declared order of the table, whose
    extension list holds the lowercased extension of the name, and
    ["other"] when no category lists it; ["noext"] is ["other"]; over any
    table, ["game.ISO"] is detected as ["iso"] only if an ["iso"] category
    comes before every other category that lists the ["iso"] extension,
    and in the declared table, where ["game"] comes first, it is
    ["game"]. *)
Theorem detectFileCategory_first_match :
  (forall filename : string,
     let ext := extension_of filename in
     (exists (i : nat) category extensions,
         FILE_CATEGORIES !! i = Some (category, extensions)
         /\ ext ∈ extensions
         /\ (forall (j : nat) c e, (j < i)%nat -> FILE_CATEGORIES !! j = Some (c, e) -> ext ∉ e)
         /\ detectFileCategory filename = category)
     \/ ((forall c e, (c, e) ∈ FILE_CATEGORIES -> ext ∉ e)
         /\ detectFileCategory filename = "other"%string))
  /\ detectFileCategory "noext" = "other"%string
  /\ (forall table : list (string * list string),
        detectFileCategoryIn table "game.ISO" = "iso"%string ->
        exists (i : nat) extensions,
          table !! i = Some ("iso"%string, extensions)
          /\ "iso"%string ∈ extensions
          /\ (forall (j : nat) c e, (j < i)%nat -> table !! j = Some (c, e) -> "iso"%string ∉ e))
  /\ detectFileCategory "game.ISO" = "game"%string.
Proof.
  split; [|split; [|split]].
  - intros filename ext. apply first_category_first_match.
  - reflexivity.
  - intros table Hiso. unfold detectFileCategoryIn in Hiso.
    change (extension_of "game.ISO") with "iso"%string in Hiso.
    destruct (first_category_first_match table "iso")
      as [(i & c & e & Hi & Hin & Hfirst & Hres)|[_ Hres]].
    + exists i, e. rewrite Hres in Hiso. subst c. done.
    + rewrite Hres in Hiso. discriminate.
  - reflexivity.
Qed.

(** A table in which the ["iso"] category is declared first. *)
Lemma detectFileCategory_first_match_witness :
  exists (i : nat) extensions,
    [("iso", ["iso"; "bin"; "cue"]); ("game", ["iso"; "exe"])]%string !! i
      = Some ("iso"%string, extensions)
    /\ "iso"%string ∈ extensions
    /\ (forall (j : nat) c e, (j < i)%nat ->
          [("iso", ["iso"; "bin"; "cue"]); ("game", ["iso"; "exe"])]%string !! j = Some (c, e) ->
          "iso"%string ∉ e).
Proof.
  apply (proj1 (proj2 (proj2 detectFileCategory_first_match))).
  reflexivity.
Defined.

(** Every key of the table differs from the fallback tag. *)
Lemma category_keys_not_other (c : string) (e : list string) :
  (c, e) ∈ FILE_CATEGORIES -> c <> "other"%string.
Proof.
  intros Hin Heq. subst c. unfold FILE_CATEGORIES in Hin.
  repeat (apply elem_of_cons in Hin as [Hin|Hin]; [discriminate Hin|]).
  by apply elem_of_nil in Hin.
Qed.

(** C10. A file name without a dot is its own extension: the whole name,
    lowercased, is looked up in the table, so a dotless name that a
    category lists gets that category and not ["other"] (["zip"] is a
    ["game"]); and for every file name the function returns a declared
    category key or ["other"]. *)
Theorem detectFileCategory_dotless :
  (forall filename : string,
     occurs "." filename = false ->
     extension_of filename = toLowerCase filename
     /\ (forall category extensions,
           (category, extensions) ∈ FILE_CATEGORIES ->
           toLowerCase filename ∈ extensions ->
           exists c e, (c, e) ∈ FILE_CATEGORIES /\ toLowerCase filename ∈ e
                       /\ detectFileCategory filename = c
                       /\ detectFileCategory filename <> "other"%string))
  /\ detectFileCategory "zip" = "game"%string
  /\ (forall filename : string,
        detectFileCategory filename ∈ map fst FILE_CATEGORIES ++ ["other"%string]).
Proof.
  split; [|split].
  - intros filename Hdot.
    assert (Hext : extension_of filename = toLowerCase filename).
    { unfold extension_of. rewrite (js_split_absent _ _ Hdot). done. }
    split; [exact Hext|]. intros category extensions Hin Hlisted.
    unfold detectFileCategory, detectFileCategoryIn. rewrite Hext.
    destruct (first_category_first_match FILE_CATEGORIES (toLowerCase filename))
      as [(i & c & e & Hi & Hine & _ & Hres)|[Hnone _]].
    + exists c, e. apply list_elem_of_lookup_2 in Hi.
      repeat split; [done..|]. rewrite Hres. by apply (category_keys_not_other c e).
    + exfalso. by apply (Hnone category extensions).
  - reflexivity.
  - intros filename. unfold detectFileCategory, detectFileCategoryIn.
    destruct (first_category_first_match FILE_CATEGORIES (extension_of filename))
      as [(i & c & e & Hi & _ & _ & ->)|[_ ->]].
    + apply elem_of_app. left. apply list_elem_of_lookup_2 in Hi.
      apply list_elem_of_fmap. by exists (c, e).
    + apply elem_of_app. right. apply list_elem_of_singleton. done.
Qed.

Lemma detectFileCategory_dotless_witness :
  extension_of "zip" = toLowerCase "zip"
  /\ (forall category extensions,
        (category, extensions) ∈ FILE_CATEGORIES ->
        toLowerCase "zip" ∈ extensions ->
        exists c e, (c, e) ∈ FILE_CATEGORIES /\ toLowerCase "zip" ∈ e
                    /\ detectFileCategory "zip" = c
                    /\ detectFileCategory "zip" <> "other"%string).
Proof.
  apply (proj1 detectFileCategory_dotless "zip"%string).
  reflexivity.
Defined.

(** ** Runs of the monad *)

(** The network and the store change neither the application state nor
    the trace, the clock, the codec or the answers of the user. *)
Lemma transport_frame (rq : Request) (w : World) :
  let w' := snd (transport rq w) in
  appState w' = appState w /\ trace w' = trace w /\ clock w' = clock w
  /\ gzip w' = gzip w /\ libraryLoaded w' = libraryLoaded w
  /\ userConfirms w' = userConfirms w.
Proof.
  unfold transport, deliver.
  destruct (network w) as [|[| |st|path doc] rest]; cbn;
    repeat match goal with
           | |- context [store_handle ?a ?b ?c] => destruct (store_handle a b c) as [[? ?] ?]
           end; cbn; done.
Qed.

Lemma fetch_run (rq : Request) (w : World) :
  exists r w1,
    transport rq w = (r, w1)
    /\ fetch rq w = (match r with
                     | Some rs => Returned rs
                     | None => Thrown NetworkFailure
                     end, with_event (Fetched rq r) w1)
    /\ appState w1 = appState w /\ trace w1 = trace w /\ clock w1 = clock w.
Proof.
  pose proof (transport_frame rq w) as Hf.
  unfold fetch. destruct (transport rq w) as [r w1]. cbn in Hf.
  exists r, w1. split; [done|]. split; [by destruct r|]. tauto.
Qed.

(** Counting over a concatenation. *)
Lemma fetches_app (a b : list Event) : fetches (a ++ b) = fetches a ++ fetches b.
Proof. induction a as [|[] a IH]; cbn; by rewrite ?IH. Qed.

Lemma delays_of_app (a b : list Event) : delays_of (a ++ b) = delays_of a ++ delays_of b.
Proof. induction a as [|[] a IH]; cbn; by rewrite ?IH. Qed.

Lemma completions_app (a b : list Event) : completions (a ++ b) = completions a ++ completions b.
Proof.
  induction a as [|e a IH]; cbn; [done|].
  destruct e as [| [] | | | | | |]; cbn; by rewrite ?IH.
Qed.

Lemma progress_reports_app (a b : list Event) :
  progress_reports (a ++ b) = progress_reports a ++ progress_reports b.
Proof.
  induction a as [|e a IH]; cbn; [done|].
  destruct e; cbn; rewrite ?IH; try done.
  by destruct (String.eqb _ _).
Qed.

Lemma failed_attempts_app (accepted : Response -> bool) (n : Z) (a b : list Event) :
  failed_attempts accepted n (a ++ b)
  = (failed_attempts accepted n a + failed_attempts accepted n b)%nat.
Proof. unfold failed_attempts. by rewrite List.filter_app, length_app. Qed.

(** The events of one chunk are no failed attempts of another. *)
Lemma chunk_events_other (accepted : Response -> bool) (n m : Z) (evs : list Event) :
  Forall (chunk_event n) evs -> m <> n -> failed_attempts accepted m evs = 0%nat.
Proof.
  intros Hall Hne. unfold failed_attempts.
  induction Hall as [|e evs He _ IH]; cbn; [done|].
  destruct e as [rq rs| | | | | | |]; cbn; try exact IH.
  destruct He as (-> & [total ->] & _).
  destruct (Z.eqb_spec n m) as [->|_]; [done|]. exact IH.
Qed.

(** The events of a chunk transfer write no registry document. *)
Lemma chunk_events_no_registry_write (n : Z) (evs : list Event) :
  Forall (chunk_event n) evs -> Forall (fun e => registry_write e = false) evs.
Proof.
  intros Hall. eapply Forall_impl; [exact Hall|].
  intros [rq rs| | | | | | |] He; cbn; try done.
  destruct He as (-> & _ & [payload ->]). done.
Qed.

(** Equations for running the operations of the monad in a world. *)
Lemma run_bind {A B} (m : M A) (k : A -> M B) (w : World) :
  (m ≫= k) w = match m w with
               | (Returned a, w') => k a w'
               | (Thrown e, w') => (Thrown e, w')
               | (OutOfFuel, w') => (OutOfFuel, w')
               end.
Proof. reflexivity. Qed.

Lemma run_try_catch {A} (m : M A) (handler : Error -> M A) (w : World) :
  try_catch m handler w = match m w with
                          | (Thrown e, w') => handler e w'
                          | other => other
                          end.
Proof. reflexivity. Qed.

Lemma run_try_finally {A} (m : M A) (cleanup : M unit) (w : World) :
  try_finally m cleanup w
  = match cleanup (snd (m w)) with
    | (Returned _, w'') => (fst (m w), w'')
    | (Thrown e, w'') => (Thrown e, w'')
    | (OutOfFuel, w'') => (OutOfFuel, w'')
    end.
Proof. unfold try_finally. by destruct (m w). Qed.

Lemma run_ret {A} (a : A) (w : World) : ret a w = (Returned a, w).
Proof. reflexivity. Qed.

Lemma run_mret {A} (a : A) (w : World) : mret (M := M) a w = (Returned a, w).
Proof. reflexivity. Qed.

Lemma run_throw {A} (e : Error) (w : World) : throw (A := A) e w = (Thrown e, w).
Proof. reflexivity. Qed.

Lemma run_out_of_fuel {A} (w : World) : out_of_fuel (A := A) w = (OutOfFuel, w).
Proof. reflexivity. Qed.

Lemma run_emit (e : Event) (w : World) : emit e w = (Returned tt, with_event e w).
Proof. reflexivity. Qed.

Lemma run_addLog (line : LogLine) (type : Severity) (w : World) :
  addLog line type w = (Returned tt, with_event (Logged line type) w).
Proof. reflexivity. Qed.

Lemma run_console_log (text : string) (w : World) :
  console_log text w = (Returned tt, with_event (Logged (LConsole text) info) w).
Proof. reflexivity. Qed.

Lemma run_showStatus (line : StatusLine) (type : Severity) (w : World) :
  showStatus line type w = (Returned tt, with_event (Status line type) w).
Proof. reflexivity. Qed.

Lemma run_updateProgress (elementId : string) (p : Percentage) (w : World) :
  updateProgress elementId p w = (Returned tt, with_event (Progress elementId p) w).
Proof. reflexivity. Qed.

Lemma run_delay (ms : Z) (w : World) :
  delay ms w = (Returned tt, with_event (Delayed ms) (with_clock (clock w + ms) w)).
Proof. reflexivity. Qed.

Lemma run_gets {A} (f : World -> A) (w : World) : gets f w = (Returned (f w), w).
Proof. reflexivity. Qed.

Lemma run_modify (f : World -> World) (w : World) : modify f w = (Returned tt, f w).
Proof. reflexivity. Qed.

Lemma run_Date_now (w : World) : Date_now w = (Returned (clock w), w).
Proof. reflexivity. Qed.

Create Rewrite HintDb run.

#[local] Hint Rewrite @run_bind @run_try_catch @run_ret @run_mret @run_throw @run_out_of_fuel
  run_emit run_addLog run_console_log run_showStatus run_updateProgress run_delay
  @run_gets run_modify run_Date_now : run.

(** Runs a program up to its next request. *)
Ltac run := repeat (autorewrite with run; cbn beta iota).

(** Simplifies the projections of an updated world. *)
Ltac world :=
  cbn [fst snd trace appState clock remote fresh network gzip libraryLoaded userConfirms
       with_event with_clock with_appState with_store with_network] in *.

(** ** The per-chunk retry loops *)

(** One attempt of [uploadChunk]: a request for the chunk, then the
    completion line when the status is 201 or 200. *)
Lemma uploadChunk_try_run (fileFolder : string) (chunkData : Blob)
    (chunkIndex totalChunks : Z) (w : World) :
  exists rq r w1,
    transport rq w = (r, w1)
    /\ chunk_event (chunkIndex + 1) (Fetched rq r)
    /\ Script.uploadChunk_try fileFolder chunkData chunkIndex totalChunks w
       = if failed created_or_ok r
         then (Thrown (match r with Some rs => HttpError (status rs) | None => NetworkFailure end),
               with_event (Fetched rq r) w1)
         else (Returned tt,
               with_event (Logged (LChunkDone (chunkIndex + 1) totalChunks) success)
                 (with_event (Fetched rq r) w1)).
Proof.
  unfold Script.uploadChunk_try.
  match goal with |- context [fetch ?rq] => destruct (fetch_run rq w) as (r & w1 & Htr & Hrun & _);
    exists rq, r, w1 end.
  split; [exact Htr|]. split.
  { cbn. eauto. }
  run. rewrite Hrun. destruct r as [rs|]; cbn [failed]; [|done].
  unfold created_or_ok. destruct ((status rs =? 201) || (status rs =? 200)); cbn [negb]; run; done.
Qed.
Lemma failed_attempts_cons (accepted : Response -> bool) (n : Z) (e : Event) (evs : list Event) :
  failed_attempts accepted n (e :: evs)
  = ((if failed_attempt accepted n e then 1 else 0) + failed_attempts accepted n evs)%nat.
Proof. unfold failed_attempts. cbn. by destruct (failed_attempt accepted n e). Qed.

(** A failed request of chunk [n] is a failed attempt of chunk [n]. *)
Lemma failed_attempt_chunk_event (accepted : Response -> bool) (n : Z) (rq : Request)
    (r : option Response) :
  chunk_event n (Fetched rq r) ->
  failed_attempt accepted n (Fetched rq r) = failed accepted r.
Proof.
  intros (Hm & [total Hmsg] & _). cbn. rewrite Hm, Hmsg, Z.eqb_refl. done.
Qed.

Lemma uploadChunk_loop_spec (fuel : nat) (attempt : Z) (fileFolder : string)
    (chunkData : Blob) (chunkIndex totalChunks : Z) (w : World) :
  0 <= attempt < 3 -> 3 - attempt <= Z.of_nat fuel ->
  let run := Script.uploadChunk_loop fuel attempt fileFolder chunkData chunkIndex totalChunks w in
  exists evs,
    trace (snd run) = trace w ++ evs
    /\ appState (snd run) = appState w
    /\ transfer_run created_or_ok (fun k => 1000 * k) 3 attempt (chunkIndex + 1) (fst run) evs
    /\ (forall e, fst run = Thrown e -> e = ChunkFailed (chunkIndex + 1)).
Proof.
  revert attempt w. induction fuel as [|fuel IH]; intros attempt w Hatt Hfuel run; [lia|].
  subst run. cbn [Script.uploadChunk_loop].
  destruct (Z.ltb_spec attempt 3) as [_|?]; [|lia].
  destruct (uploadChunk_try_run fileFolder chunkData chunkIndex totalChunks w)
    as (rq & r & w1 & Htr & Hev & Htry).
  pose proof (transport_frame rq w) as Hframe. rewrite Htr in Hframe. cbn in Hframe.
  destruct Hframe as (Happ & Htrace & _).
  pose proof (failed_attempt_chunk_event created_or_ok _ _ _ Hev) as Hfa.
  run. rewrite Htry. destruct (failed created_or_ok r) eqn:Hfail; run.
  - destruct (Z.ltb_spec (attempt + 1) 3) as [Hmore|Hlast]; run.
    + match goal with |- context [Script.uploadChunk_loop fuel _ _ _ _ _ ?w2] =>
        destruct (IH (attempt + 1) w2) as (evs & Htr' & Happ' & Hrun' & Herr'); [lia|lia|] end.
      world.
      exists (Fetched rq r :: Delayed (1000 * (attempt + 1)) :: evs).
      split; [rewrite Htr', Htrace, <- !app_assoc; done|].
      split; [rewrite Happ'; done|]. split; [|exact Herr'].
      destruct Hrun' as (Hall & Hlen & Hdel & Hout).
      split; [constructor; [exact Hev|constructor; [exact I|exact Hall]]|].
      cbn [fetches delays_of length].
      split; [lia|]. split.
      * rewrite Hdel.
        replace (Z.of_nat (S (length (fetches evs))) - 1)
          with (Z.succ (Z.of_nat (length (fetches evs)) - 1)) by lia.
        rewrite (seqZ_cons (attempt + 1)) by lia. rewrite Z.pred_succ.
        cbn [fmap list_fmap]. f_equal.
      * rewrite !failed_attempts_cons, Hfa. cbn [failed_attempt completions].
        destruct (Script.uploadChunk_loop _ _ _ _ _ _ _) as [[[]|e|] w3]; cbn [fst] in *.
        -- destruct Hout as [Hc Hf]. split; [done|]. lia.
        -- destruct Hout as (Hc & Hf & Hn). split; [done|]. split; lia.
        -- done.
    + world. exists [Fetched rq r].
      split; [by rewrite Htrace|]. split; [done|]. split; [|intros e [= <-]; done].
      split; [constructor; [exact Hev|constructor]|]. cbn [fetches delays_of length].
      split; [lia|]. split; [done|].
      rewrite failed_attempts_cons, Hfa. cbn. split; [done|]. split; [done|]. lia.
  - world. exists [Fetched rq r; Logged (LChunkDone (chunkIndex + 1) totalChunks) success].
    split; [rewrite Htrace, <- app_assoc; done|]. split; [done|]. split; [|intros e [=]].
    split; [constructor; [exact Hev|constructor; [done|constructor]]|].
    cbn [fetches delays_of length].
    split; [lia|]. split; [done|].
    rewrite !failed_attempts_cons, Hfa. cbn. done.
Qed.

(** One attempt of [uploadChunkToGitHub]: a request for the chunk, then
    the completion line when the response is [ok]. *)
Lemma uploadChunkToGitHub_try_run (filePath : string) (chunkData : Blob)
    (chunkIndex totalChunks : Z) (w : World) :
  exists rq r w1 e,
    transport rq w = (r, w1)
    /\ chunk_event (chunkIndex + 1) (Fetched rq r)
    /\ Part0.uploadChunkToGitHub_try filePath chunkData chunkIndex totalChunks w
       = if failed ok r
         then (Thrown e, with_event (Fetched rq r) w1)
         else (Returned tt,
               with_event (Logged (LChunkDone (chunkIndex + 1) totalChunks) success)
                 (with_event (Fetched rq r) w1)).
Proof.
  unfold Part0.uploadChunkToGitHub_try.
  match goal with |- context [fetch ?rq] => destruct (fetch_run rq w) as (r & w1 & Htr & Hrun & _);
    exists rq, r, w1 end.
  destruct r as [rs|].
  - destruct (ok rs) eqn:Hok.
    + exists NetworkFailure. split; [exact Htr|]. split; [cbn; eauto|].
      run. rewrite Hrun. cbn [failed]. rewrite Hok. cbn [negb]. run. done.
    + destruct (body_message rs) as [message|] eqn:Hmsg;
        [destruct (String.eqb message "") eqn:Hempty|].
      * exists (HttpError (status rs)). split; [exact Htr|]. split; [cbn; eauto|].
        run. rewrite Hrun. cbn [failed]. rewrite Hok, Hmsg, Hempty. cbn [negb]. run. done.
      * exists (ApiError message). split; [exact Htr|]. split; [cbn; eauto|].
        run. rewrite Hrun. cbn [failed]. rewrite Hok, Hmsg, Hempty. cbn [negb]. run. done.
      * exists (HttpError (status rs)). split; [exact Htr|]. split; [cbn; eauto|].
        run. rewrite Hrun. cbn [failed]. rewrite Hok, Hmsg. cbn [negb]. run. done.
  - exists NetworkFailure. split; [exact Htr|]. split; [cbn; eauto|].
    run. rewrite Hrun. done.
Qed.

Lemma uploadChunkToGitHub_loop_spec (fuel : nat) (attempt : Z) (filePath : string)
    (chunkData : Blob) (chunkIndex totalChunks : Z) (w : World) :
  0 <= attempt < Part0.RETRY_ATTEMPTS -> Part0.RETRY_ATTEMPTS - attempt <= Z.of_nat fuel ->
  let run := Part0.uploadChunkToGitHub_loop fuel attempt filePath chunkData chunkIndex
               totalChunks w in
  exists evs,
    trace (snd run) = trace w ++ evs
    /\ appState (snd run) = appState w
    /\ transfer_run ok (fun _ => Part0.RETRY_DELAY) Part0.RETRY_ATTEMPTS attempt
         (chunkIndex + 1) (fst run) evs.
Proof.
  revert attempt w. induction fuel as [|fuel IH]; intros attempt w Hatt Hfuel run; [lia|].
  subst run. cbn [Part0.uploadChunkToGitHub_loop].
  destruct (Z.ltb_spec attempt Part0.RETRY_ATTEMPTS) as [_|?]; [|lia].
  destruct (uploadChunkToGitHub_try_run filePath chunkData chunkIndex totalChunks w)
    as (rq & r & w1 & e & Htr & Hev & Htry).
  pose proof (transport_frame rq w) as Hframe. rewrite Htr in Hframe. cbn in Hframe.
  destruct Hframe as (Happ & Htrace & _).
  pose proof (failed_attempt_chunk_event ok _ _ _ Hev) as Hfa.
  run. rewrite Htry. destruct (failed ok r) eqn:Hfail; run.
  - destruct (Z.ltb_spec (attempt + 1) Part0.RETRY_ATTEMPTS) as [Hmore|Hlast]; run.
    + match goal with |- context [Part0.uploadChunkToGitHub_loop fuel _ _ _ _ _ ?w2] =>
        destruct (IH (attempt + 1) w2) as (evs & Htr' & Happ' & Hrun'); [lia|lia|] end.
      world.
      exists (Fetched rq r
              :: Logged (LRetry (attempt + 1) (Part0.RETRY_ATTEMPTS - 1) (chunkIndex + 1)) info
              :: Delayed Part0.RETRY_DELAY :: evs).
      split; [rewrite Htr', Htrace, <- !app_assoc; done|].
      split; [rewrite Happ'; done|].
      destruct Hrun' as (Hall & Hlen & Hdel & Hout).
      split; [constructor; [exact Hev|constructor; [done|constructor; [exact I|exact Hall]]]|].
      cbn [fetches delays_of length].
      split; [lia|]. split.
      * rewrite Hdel.
        replace (Z.of_nat (S (length (fetches evs))) - 1)
          with (Z.succ (Z.of_nat (length (fetches evs)) - 1)) by lia.
        rewrite (seqZ_cons (attempt + 1)) by lia. rewrite Z.pred_succ.
        cbn [fmap list_fmap]. f_equal.
      * rewrite !failed_attempts_cons, Hfa. cbn [failed_attempt completions].
        destruct (Part0.uploadChunkToGitHub_loop _ _ _ _ _ _ _) as [[[]|e'|] w3]; cbn [fst] in *.
        -- destruct Hout as [Hc Hf]. split; [done|]. lia.
        -- destruct Hout as (Hc & Hf & Hn). split; [done|]. split; lia.
        -- done.
    + world. exists [Fetched rq r].
      split; [by rewrite Htrace|]. split; [done|].
      split; [constructor; [exact Hev|constructor]|]. cbn [fetches delays_of length].
      split; [lia|]. split; [done|].
      rewrite failed_attempts_cons, Hfa. cbn. split; [done|]. split; [done|]. lia.
  - world. exists [Fetched rq r; Logged (LChunkDone (chunkIndex + 1) totalChunks) success].
    split; [rewrite Htrace, <- app_assoc; done|]. split; [done|].
    split; [constructor; [exact Hev|constructor; [done|constructor]]|].
    cbn [fetches delays_of length].
    split; [unfold Part0.RETRY_ATTEMPTS in *; lia|]. split; [done|].
    rewrite !failed_attempts_cons, Hfa. cbn. done.
Qed.

(** ** The transfer loops *)

Lemma upload_event_weaken (lo hi lo' hi' : Z) (e : Event) :
  lo' <= lo -> hi <= hi' -> upload_event lo hi e -> upload_event lo' hi' e.
Proof.
  intros Hlo Hhi. destruct e as [rq rs| | | | | | |]; cbn; try done.
  intros (Hm & (n & total & Hn & Hmsg) & Hc). split; [done|]. split; [|done].
  exists n, total. split; [lia|done].
Qed.

Lemma chunk_event_upload_event (n lo hi : Z) (e : Event) :
  lo < n <= hi -> chunk_event n e -> upload_event lo hi e.
Proof.
  intros Hn. destruct e as [rq rs|line type| | | | | |]; cbn; try done.
  intros (Hm & [total Hmsg] & Hc). split; [done|]. split; [|done]. by exists n, total.
Qed.

Lemma upload_events_outside (accepted : Response -> bool) (lo hi n : Z) (evs : list Event) :
  Forall (upload_event lo hi) evs -> ~ (lo < n <= hi) ->
  failed_attempts accepted n evs = 0%nat.
Proof.
  intros Hall Hout. induction Hall as [|e evs He _ IH]; [done|].
  rewrite failed_attempts_cons, IH.
  destruct e as [rq rs| | | | | | |]; cbn; try done.
  destruct He as (-> & (k & total & Hk & ->) & _).
  destruct (Z.eqb_spec k n) as [->|_]; [lia|done].
Qed.

Lemma upload_events_no_registry_write (lo hi : Z) (evs : list Event) :
  Forall (upload_event lo hi) evs -> Forall (fun e => registry_write e = false) evs.
Proof.
  intros Hall. eapply Forall_impl; [exact Hall|].
  intros [rq rs| | | | | | |] He; cbn; try done.
  destruct He as (-> & _ & [payload ->]). done.
Qed.

Lemma chunk_events_no_progress (n : Z) (evs : list Event) :
  Forall (chunk_event n) evs -> progress_reports evs = [].
Proof.
  intros Hall. induction Hall as [|e evs He _ IH]; [done|].
  destruct e; cbn in *; done.
Qed.

(** [uploadChunk] runs the loop from attempt zero with fuel for three
    attempts. *)
Lemma uploadChunk_spec (fileFolder : string) (chunkData : Blob)
    (chunkIndex totalChunks : Z) (w : World) :
  let run := Script.uploadChunk fileFolder chunkData chunkIndex totalChunks w in
  exists evs,
    trace (snd run) = trace w ++ evs
    /\ appState (snd run) = appState w
    /\ transfer_run created_or_ok (fun k => 1000 * k) 3 0 (chunkIndex + 1) (fst run) evs
    /\ (forall e, fst run = Thrown e -> e = ChunkFailed (chunkIndex + 1)).
Proof. apply uploadChunk_loop_spec; lia. Qed.

Lemma uploadChunkToGitHub_spec (filePath : string) (chunkData : Blob)
    (chunkIndex totalChunks : Z) (w : World) :
  let run := Part0.uploadChunkToGitHub filePath chunkData chunkIndex totalChunks w in
  exists evs,
    trace (snd run) = trace w ++ evs
    /\ appState (snd run) = appState w
    /\ transfer_run ok (fun _ => Part0.RETRY_DELAY) Part0.RETRY_ATTEMPTS 0
         (chunkIndex + 1) (fst run) evs.
Proof. apply uploadChunkToGitHub_loop_spec; unfold Part0.RETRY_ATTEMPTS; cbn; lia. Qed.


Lemma run_promise_all_cons (m : M unit) (rest : list (M unit)) (w : World) :
  promise_all (m :: rest) w
  = (match fst (m w) with
     | Returned _ => fst (promise_all rest (snd (m w)))
     | failed => failed
     end, snd (promise_all rest (snd (m w)))).
Proof.
  cbn [promise_all]. destruct (m w) as [o w1]. cbn [fst snd].
  destruct (promise_all rest w1). by destruct o.
Qed.

(** A batch of [uploadChunk] calls for the chunks numbered [base + 1] to
    [base + length batch]. *)
Lemma promise_all_uploadChunk_spec (fileFolder : string) (total : Z) (batch : list Blob)
    (base : Z) (w : World) :
  let run := promise_all
               (imap (fun idx chunk =>
                        Script.uploadChunk fileFolder chunk (base + Z.of_nat idx) total) batch)
               w in
  exists evs,
    trace (snd run) = trace w ++ evs
    /\ appState (snd run) = appState w
    /\ engine_run created_or_ok base (base + Z.of_nat (length batch)) (fst run) evs
    /\ progress_reports evs = []
    /\ (forall e, fst run = Thrown e -> exists n, e = ChunkFailed n).
Proof.
  revert base w. induction batch as [|chunk batch IH]; intros base w run.
  - exists []. subst run. cbn [imap promise_all length fst snd]. rewrite run_ret. cbn [fst snd].
    rewrite app_nil_r. split; [done|]. split; [done|]. split; [|split; [done|intros e [=]]].
    split; [constructor|]. split; [intros n; cbn; lia|].
    cbn. by rewrite Z.add_0_r, Z.sub_diag.
  - subst run. rewrite imap_cons, run_promise_all_cons.
    rewrite Z.add_0_r.
    destruct (uploadChunk_spec fileFolder chunk base total w)
      as (evs1 & Htr1 & Happ1 & (Hall1 & Hlen1 & _ & Hout1) & Herr1).
    set (run1 := Script.uploadChunk fileFolder chunk base total w) in *.
    rewrite (imap_ext _ (fun idx chunk =>
               Script.uploadChunk fileFolder chunk (base + 1 + Z.of_nat idx) total))
      by (intros idx x _; unfold compose;
          replace (base + Z.of_nat (S idx)) with (base + 1 + Z.of_nat idx) by lia; done).
    destruct (IH (base + 1) (snd run1)) as (evs2 & Htr2 & Happ2 & (Hall2 & Hout2) & Hprog2 & Herr2).
    set (run2 := promise_all _ (snd run1)) in *.
    cbn [fst snd length].
    replace (base + 1 + Z.of_nat (length batch)) with (base + Z.of_nat (S (length batch))) in * by lia.
    exists (evs1 ++ evs2).
    split; [rewrite Htr2, Htr1, app_assoc; done|].
    split; [congruence|].
    split; [|split].
    + split.
      * apply Forall_app. split.
        -- eapply Forall_impl; [exact Hall1|]. intros e.
           apply chunk_event_upload_event. lia.
        -- eapply Forall_impl; [exact Hall2|]. intros e.
           apply upload_event_weaken; lia.
      * destruct (fst run1) as [[]|e1|]; [|done|done].
        destruct (fst run2) as [[]|e2|]; [|done|done].
        destruct Hout1 as [Hc1 Hf1]. destruct Hout2 as [Hf2 Hc2]. split.
        -- intros n. rewrite failed_attempts_app.
           destruct (decide (n = base + 1)) as [->|Hne].
           ++ rewrite (upload_events_outside _ (base + 1) _ _ _ Hall2) by lia. lia.
           ++ rewrite (chunk_events_other _ _ _ _ Hall1 Hne). apply Hf2.
        -- rewrite completions_app, Hc1, Hc2.
           rewrite (seqZ_cons (base + 1)) by lia. cbn. f_equal. f_equal; lia.
    + by rewrite progress_reports_app, (chunk_events_no_progress _ _ Hall1), Hprog2.
    + intros e He. destruct (fst run1) as [[]|e1|] eqn:Ho1.
      * by apply Herr2.
      * injection He as <-. exists (base + 1). by apply Herr1.
      * done.
Qed.

(** Inside the array, [slice] is [take] after [drop]. *)
Lemma js_slice_inside {A} (l : list A) (i j : Z) :
  0 <= i <= j -> j <= Z.of_nat (length l) ->
  js_slice l i j = take (Z.to_nat (j - i)) (drop (Z.to_nat i) l).
Proof.
  intros Hij Hj. unfold js_slice, relative_bound.
  destruct (Z.ltb_spec i 0) as [?|_]; [lia|].
  destruct (Z.ltb_spec j 0) as [?|_]; [lia|].
  rewrite !Z.min_l by lia. rewrite Z.max_l by lia. done.
Qed.

Lemma ceil_div_step (n s : Z) : 0 < s -> ceil_div n s = 1 + ceil_div (n - s) s.
Proof.
  intros Hs. unfold ceil_div.
  replace (n + s - 1) with ((n - s + s - 1) + 1 * s) by lia.
  rewrite Z.div_add by lia. lia.
Qed.

Lemma ceil_div_nonpos (n s : Z) : - s < n <= 0 -> ceil_div n s = 0.
Proof. intros Hn. unfold ceil_div. apply Z.div_small. lia. Qed.

Lemma ceil_div_nonneg (n s : Z) : 0 < s -> 0 <= n -> 0 <= ceil_div n s.
Proof. intros Hs Hn. unfold ceil_div. apply Z.div_pos; lia. Qed.

Lemma progress_reports_upload (p : Percentage) (evs : list Event) :
  progress_reports (Progress "uploadProgress" p :: evs) = p :: progress_reports evs.
Proof. reflexivity. Qed.

(** The loop of [uploadChunksParallel] from chunk index [i]: the events
    are those of the chunks after [i]; one progress report is made for
    each batch that completed, at most [ceil ((total - i) / 5)] of them
    and exactly as many when the loop returns; and each report is made at
    a batch boundary. *)
Lemma uploadChunksParallel_loop_spec (fuel : nat) (i : Z) (chunks : list Blob)
    (fileFolder : string) (w : World) :
  let total := Z.of_nat (length chunks) in
  0 <= i < total + Script.PARALLEL_BATCH -> total - i <= Z.of_nat fuel ->
  let run := Script.uploadChunksParallel_loop fuel i chunks fileFolder w in
  exists evs,
    trace (snd run) = trace w ++ evs
    /\ appState (snd run) = appState w
    /\ engine_run created_or_ok i total (fst run) evs
    /\ (forall e, fst run = Thrown e -> exists n, e = ChunkFailed n)
    /\ Forall (fun p => pct_den p = total
                        /\ ((pct_num p - i) `mod` Script.PARALLEL_BATCH = 0 \/ pct_num p = total))
         (progress_reports evs)
    /\ Z.of_nat (length (progress_reports evs)) <= ceil_div (total - i) Script.PARALLEL_BATCH
    /\ (fst run = Returned tt ->
        Z.of_nat (length (progress_reports evs)) = ceil_div (total - i) Script.PARALLEL_BATCH).
Proof.
  intros total. unfold Script.PARALLEL_BATCH. cbv zeta.
  assert (Htotal : total = Z.of_nat (length chunks)) by done. clearbody total.
  assert (Hover : forall k i w, total <= i < total + 5 ->
            let run := Script.uploadChunksParallel_loop k i chunks fileFolder w in
            exists evs,
              trace (snd run) = trace w ++ evs
              /\ appState (snd run) = appState w
              /\ engine_run created_or_ok i total (fst run) evs
              /\ (forall e, fst run = Thrown e -> exists n, e = ChunkFailed n)
              /\ Forall (fun p => pct_den p = total
                                  /\ ((pct_num p - i) `mod` 5 = 0 \/ pct_num p = total))
                   (progress_reports evs)
              /\ Z.of_nat (length (progress_reports evs)) <= ceil_div (total - i) 5
              /\ (fst run = Returned tt ->
                  Z.of_nat (length (progress_reports evs)) = ceil_div (total - i) 5)).
  { (* no fuel is needed when the loop is over *)
    clear fuel i w. intros k i w Hi run. subst run. exists [].
    destruct k; cbn [Script.uploadChunksParallel_loop]; rewrite <- ?Htotal;
      (destruct (Z.ltb_spec i total) as [Hlt|Hge]; [lia|]);
      run; cbn [fst snd]; rewrite app_nil_r;
      (split; [done|]; split; [done|]; split; [|split; [intros e [=]|]];
       [split; [constructor|]; split; [intros n; cbn; lia|]; cbn; by rewrite seqZ_nil by lia
       |cbn; rewrite ceil_div_nonpos by lia; split; [constructor|]; split; [lia|done]]). }
  intros Hi Hfuel. revert i w Hi Hfuel. induction fuel as [|fuel IH]; intros i w Hi Hfuel;
    (destruct (Z.lt_ge_cases i total) as [Hlt|Hge]; [|apply Hover; lia]); [lia|].
  cbn [Script.uploadChunksParallel_loop]; rewrite <- ?Htotal.
  destruct (Z.ltb_spec i total) as [_|?]; [|lia].
  - unfold Script.PARALLEL_BATCH.
    set (batch := js_slice chunks i (Z.min (i + 5) total)).
    assert (Hbatch : Z.of_nat (length batch) = Z.min 5 (total - i)).
    { subst batch. rewrite js_slice_inside by lia.
      rewrite length_take, length_drop. lia. }
    destruct (promise_all_uploadChunk_spec fileFolder total batch i w)
      as (evsB & HtrB & HappB & (HallB & HoutB) & HprogB & HerrB).
    run.
    set (runB := promise_all _ w) in *.
    destruct runB as [[[]|eB|] wB] eqn:HrunB; cbn [fst snd] in *; run.
    + (* the batch completed: one report, then the next batch *)
      match goal with |- context [Script.uploadChunksParallel_loop fuel _ _ _ ?w2] =>
        destruct (IH (i + 5) w2) as (evs & Htr & Happ & (Hall & Hout) & Herr & Hrep & Hcnt & Hret);
          [lia|lia|] end.
      world.
      exists (evsB ++ Progress "uploadProgress" (Pct (i + Z.of_nat (length batch)) total) :: evs).
      split; [rewrite Htr, HtrB, <- !app_assoc; done|].
      split; [congruence|].
      rewrite progress_reports_app, HprogB, progress_reports_upload. cbn [app].
      split; [|split; [exact Herr|split; [|split]]].
      * split.
        -- apply Forall_app. split.
           ++ eapply Forall_impl; [exact HallB|]. intros e. apply upload_event_weaken; lia.
           ++ constructor; [exact I|].
              eapply Forall_impl; [exact Hall|]. intros e. apply upload_event_weaken; lia.
        -- destruct (Script.uploadChunksParallel_loop _ _ _ _ _) as [[[]|e|] w3];
             cbn [fst] in *; [|done|done].
           destruct HoutB as [HfB HcB]. destruct Hout as [Hf Hc]. split.
           ++ intros n. rewrite failed_attempts_app, failed_attempts_cons. cbn [failed_attempt].
              destruct (decide (i < n <= i + Z.of_nat (length batch))) as [Hin|Hout].
              ** rewrite (upload_events_outside _ _ _ n _ Hall) by lia. specialize (HfB n). lia.
              ** rewrite (upload_events_outside _ _ _ n _ HallB) by lia. apply Hf.
           ++ rewrite completions_app. cbn [completions]. rewrite HcB, Hc.
              replace (i + Z.of_nat (length batch) - i) with (Z.of_nat (length batch)) by lia.
              destruct (Z.le_gt_cases 5 (total - i)) as [Hfull|Hpart].
              ** rewrite Hbatch, Z.min_l by lia.
                 replace (seqZ (i + 1) (total - i))
                   with (seqZ (i + 1) (5 + (total - (i + 5)))) by (f_equal; lia).
                 rewrite seqZ_app by lia. f_equal. f_equal. lia.
              ** rewrite (seqZ_nil (i + 5 + 1)) by lia. rewrite app_nil_r.
                 f_equal. lia.
      * constructor; [|].
        -- cbn. split; [done|].
           destruct (Z.le_gt_cases 5 (total - i)) as [Hfull|Hpart].
           ++ left. replace (i + Z.of_nat (length batch) - i) with 5 by lia. done.
           ++ right. lia.
        -- eapply Forall_impl; [exact Hrep|]. intros p [Hden [Hnum|Hnum]]; split; try done.
           ++ left. replace (pct_num p - i) with ((pct_num p - (i + 5)) + 1 * 5) by lia.
              by rewrite Z.mod_add.
           ++ by right.
      * cbn [length]. rewrite (ceil_div_step (total - i) 5) by lia.
        replace (total - i - 5) with (total - (i + 5)) by lia. lia.
      * intros Hret'. cbn [length]. rewrite (ceil_div_step (total - i) 5) by lia.
        replace (total - i - 5) with (total - (i + 5)) by lia. specialize (Hret Hret'). lia.
    + (* a member of the batch failed: the loop is left without a report *)
      exists evsB. split; [done|]. split; [done|]. rewrite HprogB.
      split; [|split; [exact HerrB|]].
      * split; [|done]. eapply Forall_impl; [exact HallB|]. intros e.
        apply upload_event_weaken; lia.
      * split; [constructor|]. split; [|intros [=]].
        cbn. apply ceil_div_nonneg; lia.
    + done.
Qed.

(** Scanning the events of one chunk: its completion, if any, is counted
    and nothing is reported. *)
Lemma keeps_up_chunk_events (n : Z) (evs rest : list Event) (d r : nat) :
  Forall (chunk_event n) evs -> (length (completions evs) <= 1)%nat ->
  keeps_up d r (evs ++ rest)
  = match completions evs with
    | [] => keeps_up d r rest
    | _ => (d <=? r)%nat && keeps_up (S d) r rest
    end.
Proof.
  intros Hall. revert d. induction Hall as [|e evs He _ IH]; intros d Hlen; [done|].
  destruct e as [rq rs|[] type| | | | | |]; cbn in He; try done;
    cbn [app keeps_up completions] in *; try (by apply IH).
  cbn [length] in Hlen. rewrite IH by lia.
  destruct (completions evs); [done|]. cbn in Hlen. lia.
Qed.

(** The loop of [uploadChunks] from chunk index [i]: the events are those
    of the chunks after [i]; the progress reports are those of the chunks
    that completed, one for each, made before the next chunk completes. *)
Lemma uploadChunks_loop_spec (fuel : nat) (i : Z) (chunks : list Blob)
    (originalFilename : string) (w : World) :
  let total := Z.of_nat (length chunks) in
  0 <= i <= total -> total - i <= Z.of_nat fuel ->
  let run := Part0.uploadChunks_loop fuel i chunks originalFilename w in
  exists evs,
    trace (snd run) = trace w ++ evs
    /\ appState (snd run) = appState w
    /\ engine_run ok i total (fst run) evs
    /\ progress_reports evs = (fun n => Pct n total) <$> completions evs
    /\ (forall d, keeps_up d d evs = true).
Proof.
  intros total. cbv zeta.
  assert (Htotal : total = Z.of_nat (length chunks)) by done. clearbody total.
  intros Hi Hfuel. revert i w Hi Hfuel.
  induction fuel as [|fuel IH]; intros i w Hi Hfuel;
    cbn [Part0.uploadChunks_loop]; rewrite <- ?Htotal;
    destruct (Z.ltb_spec i total) as [Hlt|Hge]; try lia.
  1,3: (exists []; run; cbn [fst snd]; rewrite app_nil_r;
        split; [done|]; split; [done|]; split;
        [split; [constructor|]; split; [intros n; cbn; lia|]; cbn; by rewrite seqZ_nil by lia
        |split; [done|]; intros d; cbn; apply Nat.leb_refl]).
  destruct (lookup_lt_is_Some_2 chunks (Z.to_nat i)) as [chunk Hchunk]; [lia|].
  rewrite Hchunk. run.
  match goal with |- context [Part0.uploadChunkToGitHub ?p chunk i total ?w1] =>
    destruct (uploadChunkToGitHub_spec p chunk i total w1)
      as (evsT & HtrT & HappT & (HallT & HlenT & _ & HoutT));
    unfold Part0.RETRY_ATTEMPTS in HlenT;
    set (runT := Part0.uploadChunkToGitHub p chunk i total w1) in * end.
  destruct runT as [[[]|eT|] wT] eqn:HrunT; cbn [fst snd] in *; run.
  - destruct HoutT as [HcT HfT].
    match goal with |- context [Part0.uploadChunks_loop fuel _ _ _ ?w2] =>
      destruct (IH (i + 1) w2) as (evs & Htr & Happ & (Hall & Hout) & Hprog & Hkeep);
        [lia|lia|] end.
    world.
    exists (Logged (LUploadingChunk (i + 1) total (blob_size chunk)) info
            :: evsT ++ Progress "uploadProgress" (Pct (i + 1) total) :: evs).
    split; [rewrite Htr, HtrT, <- !app_assoc; done|].
    split; [congruence|].
    split; [|split].
    + split.
      * constructor; [exact I|]. apply Forall_app. split.
        -- eapply Forall_impl; [exact HallT|]. intros e. apply chunk_event_upload_event. lia.
        -- constructor; [exact I|].
           eapply Forall_impl; [exact Hall|]. intros e. apply upload_event_weaken; lia.
      * destruct (Part0.uploadChunks_loop _ _ _ _ _) as [[[]|e|] w3]; cbn [fst] in *; [|done|done].
        destruct Hout as [Hf Hc]. split.
        -- intros n. rewrite failed_attempts_cons, failed_attempts_app, failed_attempts_cons.
           cbn [failed_attempt].
           destruct (decide (n = i + 1)) as [->|Hne].
           ++ rewrite (upload_events_outside _ _ _ (i + 1) _ Hall) by lia. lia.
           ++ rewrite (chunk_events_other _ _ _ _ HallT Hne). apply Hf.
        -- cbn [completions]. rewrite completions_app. cbn [completions]. rewrite HcT, Hc.
           rewrite (seqZ_cons (i + 1)) by lia. cbn. f_equal. f_equal; lia.
    + cbn [progress_reports completions].
      rewrite progress_reports_app, completions_app, progress_reports_upload.
      rewrite (chunk_events_no_progress _ _ HallT), HcT, Hprog. done.
    + intros d. cbn [keeps_up].
      rewrite (keeps_up_chunk_events (i + 1)) by (rewrite ?HcT; cbn; first [done|lia]). rewrite HcT.
      rewrite Nat.leb_refl. cbn [andb keeps_up].
      change (String.eqb "uploadProgress" "uploadProgress") with true. cbn iota. apply Hkeep.
  - destruct HoutT as (HcT & HfT & HnT). world.
    exists (Logged (LUploadingChunk (i + 1) total (blob_size chunk)) info
            :: evsT ++ [Logged (LChunkUploadFailed (i + 1) eT) error]).
    split; [rewrite HtrT, <- !app_assoc; done|]. split; [done|].
    split; [|split].
    + split; [|done]. constructor; [exact I|]. apply Forall_app. split.
      * eapply Forall_impl; [exact HallT|]. intros e. apply chunk_event_upload_event. lia.
      * constructor; [exact I|constructor].
    + cbn [progress_reports completions].
      rewrite progress_reports_app, completions_app.
      rewrite (chunk_events_no_progress _ _ HallT), HcT. done.
    + intros d. cbn [keeps_up].
      rewrite (keeps_up_chunk_events (i + 1)) by (rewrite ?HcT; cbn; first [done|lia]). rewrite HcT.
      cbn. apply Nat.leb_refl.
  - done.
Qed.

(** ** The registry manager *)

(** A response that is not [ok] has neither of the statuses 201 and 200. *)
Lemma failed_ok_created (r : option Response) :
  failed ok r = true -> failed created_or_ok r = true.
Proof.
  destruct r as [rs|]; [|done]. unfold failed, ok, created_or_ok.
  destruct (Z.eqb_spec (status rs) 201) as [->|_]; [done|].
  destruct (Z.eqb_spec (status rs) 200) as [->|_]; done.
Qed.

(** The store changes only when it answers a write with 201 or 200. *)
Lemma store_handle_rejected (rq : Request) (st : Store) (t : Z) :
  rq_method rq = GET \/ created_or_ok (fst (fst (store_handle rq st t))) = false ->
  snd (fst (store_handle rq st t)) = st /\ snd (store_handle rq st t) = t.
Proof.
  unfold store_handle.
  destruct (rq_method rq); [|destruct (rq_content rq)|];
    destruct (st !! rq_path rq) as [[doc token]|]; try destruct (rq_sha rq) as [given|];
    try destruct (given =? token); cbn; intros [?|?]; done.
Qed.

(** A request takes one event of the network; a read, and a write that
    fails, leave the store as the other clients made it. *)
Lemma transport_store (rq : Request) (w : World) :
  let r := fst (transport rq w) in
  let w1 := snd (transport rq w) in
  network w1 = tail (network w)
  /\ (rq_method rq = GET \/ failed created_or_ok r = true ->
      (remote w1, fresh w1) = other_clients (take 1 (network w)) (remote w, fresh w)).
Proof.
  unfold transport, deliver, other_clients.
  destruct (network w) as [|ev rest] eqn:Hnet; [|destruct ev as [| |st|path doc]];
    cbn [take foldl rival_step tail fst snd remote fresh with_network with_store];
    rewrite ?take_0; cbn [foldl].
  1,2,5: match goal with |- context [store_handle ?q ?st ?t] =>
           pose proof (store_handle_rejected q st t) as Hrej;
           destruct (store_handle q st t) as [[rs st'] t'] end;
         cbn [fst snd network remote fresh with_store with_network failed] in *;
         (split; [done|]); intros H; (destruct Hrej as [-> ->]; [|done]);
         (destruct H as [?|H]; [by left|right]); by apply negb_true_iff in H.
  all: done.
Qed.

(** The network events that two requests take are the first two. *)
Lemma other_clients_two (net : list NetEvent) (st : Store * Z) :
  other_clients (take 1 (tail net)) (other_clients (take 1 net) st)
  = other_clients (take 2 net) st.
Proof. destruct net as [|a [|b rest]]; done. Qed.

(** The network phase of [updateRegistry]: one read of the registry for
    its token, then one write of [content] under that token; no response
    makes it throw. *)
Lemma updateRegistry_network_phase (content : Document) (w0 : World) :
  exists g w1 p w2,
    transport Script.registryGet w0 = (g, w1)
    /\ transport (Script.registryPut content (token_of g))
         (with_event (Fetched Script.registryGet g) w1) = (p, w2)
    /\ try_catch
         (sha ← try_catch
            (get ← fetch Script.registryGet;
             if ok get then ret (body_sha get) else ret None)
            (fun _ => ret None);
          fetch (Script.registryPut content sha);;
          ret tt)
         (fun _ => console_log "Registry error") w0
       = (Returned tt,
          match p with
          | Some _ => with_event (Fetched (Script.registryPut content (token_of g)) p) w2
          | None => with_event (Logged (LConsole "Registry error") info)
                      (with_event (Fetched (Script.registryPut content (token_of g)) p) w2)
          end).
Proof.
  destruct (fetch_run Script.registryGet w0) as (g & w1 & Htr1 & Hrun1 & _).
  assert (Hget : try_catch (get ← fetch Script.registryGet;
                            if ok get then ret (body_sha get) else ret None)
                   (fun _ => ret None) w0
                 = (Returned (token_of g), with_event (Fetched Script.registryGet g) w1)).
  { rewrite run_try_catch, run_bind, Hrun1. destruct g as [rs|]; [|done]. cbn.
    by destruct (ok rs). }
  destruct (fetch_run (Script.registryPut content (token_of g))
              (with_event (Fetched Script.registryGet g) w1))
    as (p & w2 & Htr2 & Hrun2 & _).
  exists g, w1, p, w2. split; [done|]. split; [done|].
  rewrite run_try_catch, run_bind, Hget. cbn beta iota.
  rewrite run_bind, Hrun2. by destruct p.
Qed.

(** A run of [updateRegistry]: the entry is pushed and the time set in
    memory; the registry is read for its token; the in-memory registry is
    written under that token; the function returns whatever the responses
    are; a write that fails leaves the store to the other clients. *)
Lemma updateRegistry_run (fileName : string) (chunkCount originalSize compressedSize : Z)
    (category : string) (w : World) :
  let entry := Script.newEntry fileName chunkCount originalSize compressedSize category (clock w) in
  let cache := with_lastUpdated (clock w)
                 (with_files (fun fs => fs ++ [entry]) (dataJson (appState w))) in
  let run := Script.updateRegistry fileName chunkCount originalSize compressedSize category w in
  exists g p rest,
    fst run = Returned tt
    /\ appState (snd run) = with_dataJson (fun _ => cache) (appState w)
    /\ trace (snd run)
       = trace w ++ Fetched Script.registryGet g
                 :: Fetched (Script.registryPut (DocRegistry cache) (token_of g)) p :: rest
    /\ (rest = [] \/ rest = [Logged (LConsole "Registry error") info])
    /\ (failed created_or_ok p = true ->
        (remote (snd run), fresh (snd run))
        = other_clients (take 2 (network w)) (remote w, fresh w)).
Proof.
  intros entry cache run. subst run. unfold Script.updateRegistry, files_push, touch_lastUpdated.
  rewrite !run_bind, run_Date_now. cbn beta iota.
  rewrite !run_bind, run_modify. cbn beta iota.
  rewrite !run_bind, run_Date_now. cbn beta iota.
  rewrite run_modify. cbn beta iota. rewrite run_bind, run_gets. cbn beta iota.
  match goal with |- context [try_catch _ _ ?x] => set (w0 := x) in * end.
  destruct (updateRegistry_network_phase (DocRegistry (dataJson (appState w0))) w0)
    as (g & w1 & p & w2 & Htr1 & Htr2 & ->).
  pose proof (transport_frame Script.registryGet w0) as Hf1. rewrite Htr1 in Hf1.
  destruct Hf1 as (Happ1 & Htrace1 & _).
  pose proof (transport_store Script.registryGet w0) as [Hnet1 Hst1]. rewrite Htr1 in Hnet1, Hst1.
  specialize (Hst1 (or_introl eq_refl)).
  match type of Htr2 with transport ?rq ?x = _ =>
    pose proof (transport_frame rq x) as Hf2; pose proof (transport_store rq x) as [_ Hst2] end.
  rewrite Htr2 in Hf2, Hst2. destruct Hf2 as (Happ2 & Htrace2 & _).
  cbn [fst snd] in *. world.
  exists g, p, (match p with Some _ => [] | None => [Logged (LConsole "Registry error") info] end).
  split; [done|]. split; [|split; [|split]].
  - destruct p; world; rewrite Happ2, Happ1; done.
  - destruct p; world; rewrite Htrace2, Htrace1; subst w0; world; rewrite <- ?app_assoc; done.
  - destruct p; eauto.
  - intros Hfail. specialize (Hst2 (or_intror Hfail)).
    rewrite <- other_clients_two.
    transitivity (remote w2, fresh w2); [by destruct p|].
    rewrite Hst2, Hnet1, Hst1. subst w0. world. done.
Qed.

(** A run of [uploadDataJsonToGitHub]: the in-memory registry is read for
    its content, the remote one for its token, and the content is written
    under that token; nothing is thrown; a write that fails or is not made
    leaves the store to the other clients. *)
Lemma uploadDataJsonToGitHub_run (w : World) :
  let content := DocRegistry (dataJson (appState w)) in
  let run := Part0.uploadDataJsonToGitHub w in
  exists g p,
    fst run = Returned tt
    /\ appState (snd run) = appState w
    /\ clock (snd run) = clock w
    /\ trace (snd run) = trace w ++ uploadDataJson_events content g p
    /\ (g = None ->
        (remote (snd run), fresh (snd run))
        = other_clients (take 1 (network w)) (remote w, fresh w))
    /\ (g <> None -> failed ok p = true ->
        (remote (snd run), fresh (snd run))
        = other_clients (take 2 (network w)) (remote w, fresh w)).
Proof.
  intros content run. subst run. unfold Part0.uploadDataJsonToGitHub.
  rewrite run_bind, run_gets. cbn beta iota. fold content.
  destruct (fetch_run Part0.registryGet w) as (g & w1 & Htr1 & Hrun1 & Happ1 & Htrace1 & Hclock1).
  pose proof (transport_store Part0.registryGet w) as [Hnet1 Hst1]. rewrite Htr1 in Hnet1, Hst1.
  specialize (Hst1 (or_introl eq_refl)). cbn [fst snd] in *.
  rewrite run_try_catch, run_bind, Hrun1.
  destruct g as [rs|].
  - cbn beta iota zeta. rewrite run_bind.
    match goal with |- context [fetch ?rq ?x] =>
      destruct (fetch_run rq x) as (p & w2 & Htr2 & Hrun2 & Happ2 & Htrace2 & Hclock2);
      pose proof (transport_store rq x) as [_ Hst2] end.
    rewrite Htr2 in Hst2. cbn [fst snd] in Hst2. world.
    exists (Some rs), p.
    change (if ok rs then body_sha rs else None) with (token_of (Some rs)) in *.
    rewrite Hrun2.
    assert (Hstore : failed ok p = true ->
              (remote w2, fresh w2) = other_clients (take 2 (network w)) (remote w, fresh w)).
    { intros Hfail. rewrite <- other_clients_two, Hst2, Hnet1, Hst1; [done|].
      right. by apply failed_ok_created. }
    destruct p as [prs|]; cbn beta iota; [destruct (ok prs) eqn:Hok|]; cbn [negb]; run; world;
      (split; [done|]); (split; [congruence|]); (split; [congruence|]).
    all: split; [rewrite Htrace2, Htrace1; unfold uploadDataJson_events; rewrite ?Hok;
                 rewrite <- ?app_assoc; done|].
    all: (split; [done|]); intros _ Hfail; by apply Hstore.
  - exists None, None. run. world.
    split; [done|]. split; [done|]. split; [done|].
    split; [rewrite Htrace1, <- app_assoc; done|]. split; [|done]. intros _. exact Hst1.
Qed.

(** A run of [updateDataJson]: the entry is pushed and the time set in
    memory, then the registry is uploaded; nothing is thrown. *)
Lemma updateDataJson_run (filename : string) (chunkCount originalSize compressedSize : Z)
    (w : World) :
  let entry := Part0.newEntry filename chunkCount originalSize compressedSize (clock w) in
  let cache := with_lastUpdated (clock w)
                 (with_files (fun fs => fs ++ [entry]) (dataJson (appState w))) in
  let run := Part0.updateDataJson filename chunkCount originalSize compressedSize w in
  exists g p,
    fst run = Returned tt
    /\ appState (snd run) = with_dataJson (fun _ => cache) (appState w)
    /\ trace (snd run)
       = trace w ++ uploadDataJson_events (DocRegistry cache) g p
                 ++ [Logged LRegistryUpdated success]
    /\ (g = None ->
        (remote (snd run), fresh (snd run))
        = other_clients (take 1 (network w)) (remote w, fresh w))
    /\ (g <> None -> failed ok p = true ->
        (remote (snd run), fresh (snd run))
        = other_clients (take 2 (network w)) (remote w, fresh w)).
Proof.
  intros entry cache run. subst run. unfold Part0.updateDataJson, files_push, touch_lastUpdated.
  rewrite run_try_catch.
  rewrite !run_bind, run_Date_now. cbn beta iota.
  rewrite !run_bind, run_modify. cbn beta iota.
  rewrite !run_bind, run_Date_now. cbn beta iota.
  rewrite run_modify. cbn beta iota. rewrite run_bind.
  match goal with |- context [Part0.uploadDataJsonToGitHub ?x] => set (w0 := x) in * end.
  destruct (uploadDataJsonToGitHub_run w0) as (g & p & Hret & Happ & Hclock & Htrace & Hst1 & Hst2).
  destruct (Part0.uploadDataJsonToGitHub w0) as [o w1]. cbn [fst snd] in *. subst o.
  cbn beta iota. run. world. exists g, p.
  split; [done|]. split; [rewrite Happ; done|].
  split; [rewrite Htrace, <- app_assoc; done|]. done.
Qed.

Lemma events_since_app (w w' : World) (evs : list Event) :
  trace w' = trace w ++ evs -> events_since w w' = evs.
Proof. intros H. unfold events_since. rewrite H. by rewrite drop_app_length. Qed.

(** ** The registry append *)

(** C2, as stated, fails: the entry is not appended to the document that
    was read, and a conflict is not retried.  With an empty registry in
    memory and [earlierEntry] in the remote registry, the append reads the
    remote registry (token 7) and overwrites it with a registry that holds
    the new entry alone; and when another client writes between the read
    and the write, the write is rejected, is made once only, and the
    function returns with the remote registry lacking the new entry. *)
Lemma registry_append_is_not_read_modify_write :
  (let w := sampleWorld [] earlierStore [] in
   let run := Script.updateRegistry "notes.txt" 1 3 5 "document" w in
   files <$> remote_registry w = Some [earlierEntry]
   /\ fst run = Returned tt
   /\ files <$> remote_registry (snd run)
      = Some [Script.newEntry "notes.txt" 1 3 5 "document" 1000]
   /\ files <$> remote_registry (snd run)
      <> Some ([earlierEntry] ++ [Script.newEntry "notes.txt" 1 3 5 "document" 1000]))
  /\ (let w := sampleWorld [earlierEntry] earlierStore
                 [Deliver; Rival "data.json" (DocRegistry rivalRegistry)] in
      let run := Script.updateRegistry "notes.txt" 1 3 5 "document" w in
      fst run = Returned tt
      /\ map (fun f => (rq_method (fst f), status <$> snd f)) (fetches (trace (snd run)))
         = [(GET, Some 200); (PUT, Some 409)]
      /\ remote_registry (snd run) = Some rivalRegistry).
Proof.
  split.
  - vm_compute. split; [reflexivity|]. split; [reflexivity|]. split; [reflexivity|].
    intros H. discriminate H.
  - vm_compute. split; [reflexivity|]. split; reflexivity.
Qed.

Lemma fetches_uploadDataJson_events (content : Document) (g p : option Response) :
  fetches (uploadDataJson_events content g p)
  = (Part0.registryGet, g) ::
    match g with
    | None => []
    | Some _ => [(Part0.registryPut content (token_of g), p)]
    end.
Proof.
  unfold uploadDataJson_events. destruct g as [rs|]; [|done].
  destruct p as [prs|]; [|done]. by destruct (ok prs).
Qed.

(** C2, amended.  Strings are sequences of code units below 256, so the
    registries of this statement are the ones whose JSON text [btoa]
    encodes (on a code unit above 255 [btoa] throws before any request is
    made, which is outside this statement).  For these, an append pushes
    the entry on the in-memory registry, sets [lastUpdated] and writes
    that registry, not the document it read: in both variants the function
    returns whatever the responses are; it makes one read of the remote
    registry, used for its token only, and at most one write, whose
    content is the in-memory registry with the new entry and whose token
    is the one of that read (none when the read was not [ok]); a rejected
    write is not retried.  The sequential variant makes no write when the
    network rejects the read. *)
Theorem registry_append_writes_cache_once :
  (forall (fileName : string) (chunkCount originalSize compressedSize : Z) (category : string)
          (w : World),
     let run := Script.updateRegistry fileName chunkCount originalSize compressedSize category w in
     let cache := dataJson (appState (snd run)) in
     fst run = Returned tt
     /\ files cache
        = cached_files w
          ++ [Script.newEntry fileName chunkCount originalSize compressedSize category (clock w)]
     /\ lastUpdated cache = clock w
     /\ exists g p,
          fetches (events_since w (snd run))
          = [(Script.registryGet, g);
             (Script.registryPut (DocRegistry cache) (token_of g), p)])
  /\ (forall (filename : string) (chunkCount originalSize compressedSize : Z) (w : World),
        let run := Part0.updateDataJson filename chunkCount originalSize compressedSize w in
        let cache := dataJson (appState (snd run)) in
        fst run = Returned tt
        /\ files cache
           = cached_files w
             ++ [Part0.newEntry filename chunkCount originalSize compressedSize (clock w)]
        /\ lastUpdated cache = clock w
        /\ exists g p,
             fetches (events_since w (snd run))
             = (Part0.registryGet, g) ::
               match g with
               | None => []
               | Some _ => [(Part0.registryPut (DocRegistry cache) (token_of g), p)]
               end).
Proof.
  split.
  - intros fileName chunkCount originalSize compressedSize category w run cache.
    destruct (updateRegistry_run fileName chunkCount originalSize compressedSize category w)
      as (g & p & rest & Hret & Happ & Htrace & Hrest & _).
    fold run in Hret, Happ, Htrace. subst cache. rewrite Happ. cbn [dataJson with_dataJson].
    split; [done|]. split; [done|]. split; [done|]. exists g, p.
    rewrite (events_since_app _ _ _ Htrace). cbn [fetches].
    by destruct Hrest as [-> | ->].
  - intros filename chunkCount originalSize compressedSize w run cache.
    destruct (updateDataJson_run filename chunkCount originalSize compressedSize w)
      as (g & p & Hret & Happ & Htrace & _).
    fold run in Hret, Happ, Htrace. subst cache. rewrite Happ. cbn [dataJson with_dataJson].
    split; [done|]. split; [done|]. split; [done|]. exists g, p.
    rewrite (events_since_app _ _ _ Htrace), fetches_app, fetches_uploadDataJson_events.
    cbn [fetches]. by rewrite app_nil_r.
Qed.

(** C9.  The registry append is not atomic with the remote write: in both
    variants the entry is in the in-memory registry, and the time of the
    update set, before the first request (every write that is sent
    carries the registry with the new entry); no failure of a request
    makes the function throw; and when the write fails, or is not made,
    the in-memory registry still holds the entry while the store is as the
    other clients left it.  In the batched variant the registry is
    serialized ([btoa]) between the push and the [try] block: the function
    returns in every run in which a request is sent.  In the sequential
    variant the whole body is in a [try] block and the function returns in
    every run. *)
Theorem registry_append_not_atomic :
  (forall (fileName : string) (chunkCount originalSize compressedSize : Z) (category : string)
          (w : World),
     let run := Script.updateRegistry fileName chunkCount originalSize compressedSize category w in
     let evs := events_since w (snd run) in
     (fetches evs <> [] -> fst run = Returned tt)
     /\ cached_files (snd run)
        = cached_files w
          ++ [Script.newEntry fileName chunkCount originalSize compressedSize category (clock w)]
     /\ lastUpdated (dataJson (appState (snd run))) = clock w
     /\ (forall rq r, (rq, r) ∈ fetches evs -> rq_method rq = PUT ->
           rq_content rq = Some (DocRegistry (dataJson (appState (snd run)))))
     /\ ((forall rq r, (rq, r) ∈ fetches evs -> rq_method rq = PUT -> failed ok r = true) ->
         (remote (snd run), fresh (snd run))
         = other_clients (take (length (fetches evs)) (network w)) (remote w, fresh w)))
  /\ (forall (filename : string) (chunkCount originalSize compressedSize : Z) (w : World),
        let run := Part0.updateDataJson filename chunkCount originalSize compressedSize w in
        let evs := events_since w (snd run) in
        fst run = Returned tt
        /\ cached_files (snd run)
           = cached_files w
             ++ [Part0.newEntry filename chunkCount originalSize compressedSize (clock w)]
        /\ lastUpdated (dataJson (appState (snd run))) = clock w
        /\ (forall rq r, (rq, r) ∈ fetches evs -> rq_method rq = PUT ->
              rq_content rq = Some (DocRegistry (dataJson (appState (snd run)))))
        /\ ((forall rq r, (rq, r) ∈ fetches evs -> rq_method rq = PUT -> failed ok r = true) ->
            (remote (snd run), fresh (snd run))
            = other_clients (take (length (fetches evs)) (network w)) (remote w, fresh w))).
Proof.
  split.
  - intros fileName chunkCount originalSize compressedSize category w run evs.
    destruct (updateRegistry_run fileName chunkCount originalSize compressedSize category w)
      as (g & p & rest & Hret & Happ & Htrace & Hrest & Hstore).
    fold run in Hret, Happ, Htrace, Hstore. subst evs.
    rewrite (events_since_app _ _ _ Htrace). unfold cached_files. rewrite Happ.
    cbn [dataJson with_dataJson files lastUpdated with_lastUpdated with_files].
    assert (Hf : fetches (Fetched Script.registryGet g
                          :: Fetched (Script.registryPut
                                        (DocRegistry
                                           (with_lastUpdated (clock w)
                                              (with_files
                                                 (fun fs => fs ++ [Script.newEntry fileName
                                                    chunkCount originalSize compressedSize
                                                    category (clock w)])
                                                 (dataJson (appState w)))))
                                        (token_of g)) p :: rest)
                 = [(Script.registryGet, g);
                    (Script.registryPut
                       (DocRegistry
                          (with_lastUpdated (clock w)
                             (with_files
                                (fun fs => fs ++ [Script.newEntry fileName chunkCount
                                   originalSize compressedSize category (clock w)])
                                (dataJson (appState w)))))
                       (token_of g), p)]).
    { cbn [fetches]. by destruct Hrest as [-> | ->]. }
    rewrite Hf. split; [done|]. split; [done|]. split; [done|]. split.
    + intros rq r Hin Hput.
      apply elem_of_cons in Hin as [[= -> ->]|Hin]; [discriminate Hput|].
      apply list_elem_of_singleton in Hin as [= -> ->]. done.
    + intros Hfail. apply Hstore. apply failed_ok_created.
      eapply Hfail;
        [apply elem_of_cons; right; apply list_elem_of_singleton; reflexivity|reflexivity].
  - intros filename chunkCount originalSize compressedSize w run evs.
    destruct (updateDataJson_run filename chunkCount originalSize compressedSize w)
      as (g & p & Hret & Happ & Htrace & Hst1 & Hst2).
    fold run in Hret, Happ, Htrace, Hst1, Hst2. subst evs.
    rewrite (events_since_app _ _ _ Htrace), fetches_app, fetches_uploadDataJson_events.
    cbn [fetches]. rewrite app_nil_r. unfold cached_files. rewrite Happ.
    cbn [dataJson with_dataJson files lastUpdated with_lastUpdated with_files].
    split; [done|]. split; [done|]. split; [done|]. split.
    + intros rq r Hin Hput.
      apply elem_of_cons in Hin as [[= -> ->]|Hin]; [discriminate Hput|].
      destruct g as [rs|]; [|by apply elem_of_nil in Hin].
      apply list_elem_of_singleton in Hin as [= -> ->]. done.
    + intros Hfail. destruct g as [rs|]; cbn [length].
      * apply Hst2; [done|]. eapply Hfail;
          [apply elem_of_cons; right; apply list_elem_of_singleton; reflexivity|reflexivity].
      * by apply Hst1.
Qed.


(** The write is rejected by the network and no other client writes: two
    requests are sent, the function returns, the entry is in memory and
    the store is unchanged. *)
Lemma registry_append_not_atomic_witness :
  fst (Script.updateRegistry "notes.txt" 1 3 5 "document"
         (sampleWorld [] earlierStore [Deliver; Unreachable]))
  = Returned tt
  /\ cached_files
       (snd (Script.updateRegistry "notes.txt" 1 3 5 "document"
               (sampleWorld [] earlierStore [Deliver; Unreachable])))
     = [Script.newEntry "notes.txt" 1 3 5 "document" 1000]
  /\ remote (snd (Script.updateRegistry "notes.txt" 1 3 5 "document"
                    (sampleWorld [] earlierStore [Deliver; Unreachable])))
     = earlierStore.
Proof.
  destruct (proj1 registry_append_not_atomic "notes.txt"%string 1 3 5 "document"%string
              (sampleWorld [] earlierStore [Deliver; Unreachable]))
    as (Hret & Hcache & _ & _ & Hstore).
  set (w := sampleWorld [] earlierStore [Deliver; Unreachable]) in *.
  set (run := Script.updateRegistry "notes.txt" 1 3 5 "document" w) in *.
  assert (Hfetches : (fun f => (rq_method (fst f), failed ok (snd f)))
                       <$> fetches (events_since w (snd run))
                     = [(GET, false); (PUT, true)]) by (vm_compute; reflexivity).
  assert (Hlen : length (fetches (events_since w (snd run))) = 2%nat)
    by (vm_compute; reflexivity).
  split; [|split; [exact Hcache|]].
  { apply Hret. intros Hnone. rewrite Hnone in Hlen. discriminate Hlen. }
  rewrite Hlen in Hstore.
  refine (f_equal fst (Hstore _)). intros rq r Hin Hput.
  apply (list_elem_of_fmap_2 (fun f => (rq_method (fst f), failed ok (snd f)))) in Hin.
  rewrite Hfetches in Hin. cbn [fst snd] in Hin. rewrite Hput in Hin.
  apply elem_of_cons in Hin as [Heq|Hin]; [discriminate Heq|].
  apply list_elem_of_singleton in Hin. by injection Hin.
Defined.

(** ** The transfer engine *)

(** C4, as stated, fails in the sequential variant: with three rejected
    requests, [uploadChunkToGitHub] waits 2000 ms and then 2000 ms again;
    the delay does not grow with the attempt number. *)
Lemma backoff_is_constant_in_sequential_variant :
  let w := sampleWorld [] ∅ [Unreachable; Unreachable; Unreachable] in
  let run := Part0.uploadChunkToGitHub "assets/notes.txt.part1.gz" (file_bytes sampleFile) 0 1 w in
  length (fetches (trace (snd run))) = 3%nat
  /\ delays_of (trace (snd run)) = [2000; 2000]
  /\ ~ strictly_increasing (delays_of (trace (snd run))).
Proof.
  vm_compute. split; [reflexivity|]. split; [reflexivity|].
  intros [H _]. discriminate H.
Qed.

Lemma delays_of_transfer (delay_after : Z -> Z) (k : nat) (evs : list Event) :
  (1 <= k <= 3)%nat ->
  delays_of evs = delay_after <$> seqZ 1 (Z.of_nat k - 1) ->
  delays_of evs = take (k - 1) [delay_after 1; delay_after 2].
Proof.
  intros Hk ->. destruct k as [|[|[|[|k]]]]; try lia; done.
Qed.

(** C4, amended.  Each chunk transfer makes at least one and at most three
    attempts.  In the batched variant the delay after the [k]-th failed
    attempt is [1000 * k] ms, so the delays increase strictly; in the
    sequential variant the delay after every failed attempt is the
    constant [RETRY_DELAY], 2000 ms. *)
Theorem chunk_retry_policy :
  (forall (fileFolder : string) (chunkData : Blob) (chunkIndex totalChunks : Z) (w : World),
     let run := Script.uploadChunk fileFolder chunkData chunkIndex totalChunks w in
     let evs := events_since w (snd run) in
     Forall (chunk_event (chunkIndex + 1)) evs
     /\ (1 <= length (fetches evs) <= 3)%nat
     /\ delays_of evs = take (length (fetches evs) - 1) [1000; 2000]
     /\ strictly_increasing (delays_of evs))
  /\ (forall (filePath : string) (chunkData : Blob) (chunkIndex totalChunks : Z) (w : World),
        let run := Part0.uploadChunkToGitHub filePath chunkData chunkIndex totalChunks w in
        let evs := events_since w (snd run) in
        Forall (chunk_event (chunkIndex + 1)) evs
        /\ (1 <= length (fetches evs) <= 3)%nat
        /\ delays_of evs = replicate (length (fetches evs) - 1) Part0.RETRY_DELAY).
Proof.
  split.
  - intros fileFolder chunkData chunkIndex totalChunks w run evs.
    destruct (uploadChunk_spec fileFolder chunkData chunkIndex totalChunks w)
      as (evs' & Htrace & _ & (Hall & Hlen & Hdel & _) & _).
    fold run in Htrace. subst evs. rewrite (events_since_app _ _ _ Htrace).
    split; [exact Hall|]. split; [lia|].
    apply (delays_of_transfer _ (length (fetches evs'))) in Hdel; [|lia].
    rewrite Hdel. split; [done|].
    assert (Hcases : length (fetches evs') = 1%nat \/ length (fetches evs') = 2%nat
                     \/ length (fetches evs') = 3%nat) by lia.
    destruct Hcases as [-> | [-> | ->]]; cbn; done.
  - intros filePath chunkData chunkIndex totalChunks w run evs.
    destruct (uploadChunkToGitHub_spec filePath chunkData chunkIndex totalChunks w)
      as (evs' & Htrace & _ & (Hall & Hlen & Hdel & _)).
    fold run in Htrace. subst evs. rewrite (events_since_app _ _ _ Htrace).
    unfold Part0.RETRY_ATTEMPTS in Hlen.
    split; [exact Hall|]. split; [lia|].
    apply (delays_of_transfer _ (length (fetches evs'))) in Hdel; [|lia].
    rewrite Hdel.
    assert (Hcases : length (fetches evs') = 1%nat \/ length (fetches evs') = 2%nat
                     \/ length (fetches evs') = 3%nat) by lia.
    by destruct Hcases as [-> | [-> | ->]].
Qed.




(** ** The compression ratio *)










(** ** Deletion *)

(** C7, as stated, fails: removing a name that the registry does not hold
    is an error.  [deleteFile] of the sequential variant throws ['File not
    found in registry'] and reports ['Delete failed']; it makes no request
    and leaves the registry as it was. *)
Lemma delete_of_missing_name_fails :
  let w := sampleWorld [earlierEntry] earlierStore [] in
  let run := Part0.deleteFile "ghost.bin" w in
  Forall (fun f => fe_name f <> "ghost.bin"%string) (cached_files w)
  /\ trace (snd run)
     = [Confirmed true; Status (SDeleteFailed (Some FileNotInRegistry)) error]
  /\ existsb failure_status (trace (snd run)) = true
  /\ cached_files (snd run) = cached_files w.
Proof.
  split.
  - repeat constructor. discriminate.
  - vm_compute. repeat split; reflexivity.
Qed.

(** [deleteFileFromGitHub] makes requests and nothing else. *)
Lemma deleteFileFromGitHub_frame (filePath : string) (w : World) :
  let run := Part0.deleteFileFromGitHub filePath w in
  appState (snd run) = appState w /\ clock (snd run) = clock w
  /\ fst run <> OutOfFuel
  /\ exists evs, trace (snd run) = trace w ++ evs /\ Forall is_fetch evs.
Proof.
  intros run. subst run. unfold Part0.deleteFileFromGitHub.
  rewrite run_bind.
  match goal with |- context [fetch ?rq w] =>
    destruct (fetch_run rq w) as (g & w1 & _ & -> & Happ1 & Htrace1 & Hclock1) end.
  destruct g as [rs|]; cbn beta iota.
  - rewrite run_bind.
    match goal with |- context [fetch ?rq ?x] =>
      destruct (fetch_run rq x) as (d & w2 & _ & -> & Happ2 & Htrace2 & Hclock2) end.
    world.
    destruct d as [drs|]; cbn beta iota; [destruct (ok drs); cbn [negb]|]; run; world;
      (split; [congruence|]); (split; [congruence|]); (split; [done|]);
      eexists; (split; [rewrite Htrace2, Htrace1, <- app_assoc; reflexivity|]);
      repeat constructor.
  - world. split; [done|]. split; [done|]. split; [done|].
    eexists. split; [rewrite Htrace1; reflexivity|]. repeat constructor.
Qed.

Lemma deleteChunks_loop_frame (remaining : nat) (i : Z) (filename : string) (w : World) :
  let run := Part0.deleteChunks_loop remaining i filename w in
  appState (snd run) = appState w /\ clock (snd run) = clock w
  /\ fst run <> OutOfFuel
  /\ exists evs, trace (snd run) = trace w ++ evs /\ Forall is_fetch evs.
Proof.
  revert i w. induction remaining as [|remaining IH]; intros i w run; subst run;
    cbn [Part0.deleteChunks_loop].
  - run. cbn [fst snd]. split; [done|]. split; [done|]. split; [done|].
    exists []. by rewrite app_nil_r.
  - rewrite run_bind.
    match goal with |- context [Part0.deleteFileFromGitHub ?p w] =>
      destruct (deleteFileFromGitHub_frame p w) as (Happ1 & Hclock1 & Hfuel1 & evs1 & Htr1 & Hall1);
      destruct (Part0.deleteFileFromGitHub p w) as [[[]|e|] w1] end; cbn [fst snd] in *.
    + destruct (IH (i + 1) w1) as (Happ2 & Hclock2 & Hfuel2 & evs2 & Htr2 & Hall2).
      split; [congruence|]. split; [congruence|]. split; [done|].
      exists (evs1 ++ evs2). split; [rewrite Htr2, Htr1, app_assoc; done|].
      by apply Forall_app.
    + split; [done|]. split; [done|]. split; [done|]. by exists evs1.
    + done.
Qed.

Lemma run_confirm (w : World) :
  confirm w = (Returned (userConfirms w), with_event (Confirmed (userConfirms w)) w).
Proof. reflexivity. Qed.

Lemma run_files_find (fileName : string) (w : World) :
  files_find fileName w
  = (Returned (list_find (fun f => fe_name f = fileName) (cached_files w)
               ≫= (fun p => Some (snd p))), w).
Proof. reflexivity. Qed.

Lemma run_files_remove (fileName : string) (w : World) :
  files_remove fileName w
  = (Returned tt,
     with_appState (with_dataJson (with_files (filter (fun f => fe_name f <> fileName)))) w).
Proof. reflexivity. Qed.

Lemma run_touch_lastUpdated (w : World) :
  touch_lastUpdated w
  = (Returned tt, with_appState (with_dataJson (with_lastUpdated (clock w))) w).
Proof. reflexivity. Qed.

Lemma Forall_is_fetch_no_status (evs : list Event) (line : StatusLine) (type : Severity) :
  Forall is_fetch evs -> Status line type ∉ evs.
Proof.
  intros Hall Hin. rewrite Forall_forall in Hall. by apply Hall in Hin.
Qed.

(** C7, amended.  [deleteFile] of the sequential variant removes by exact
    name and treats a missing name as an error: it always returns; for a
    name that no entry has, the registry in memory is unchanged, no
    request is made, and, once the user has confirmed, the error ['File
    not found in registry'] is reported as a failed delete; in every run
    the entries are either all kept or are those whose name differs from
    the given one, in their order; and they are the latter whenever the
    delete is reported as done. *)
Theorem delete_by_exact_name (filename : string) (w : World) :
  let run := Part0.deleteFile filename w in
  let evs := events_since w (snd run) in
  fst run = Returned tt
  /\ (Forall (fun f => fe_name f <> filename) (cached_files w) ->
      cached_files (snd run) = cached_files w
      /\ fetches evs = []
      /\ (userConfirms w = true ->
          evs = [Confirmed true; Status (SDeleteFailed (Some FileNotInRegistry)) error]))
  /\ (cached_files (snd run) = cached_files w
      \/ cached_files (snd run) = filter (fun f => fe_name f <> filename) (cached_files w))
  /\ (Status (SDeleted filename) success ∈ evs ->
      cached_files (snd run) = filter (fun f => fe_name f <> filename) (cached_files w)).
Proof.
  intros run evs. subst evs run. unfold Part0.deleteFile.
  rewrite run_bind, run_confirm. cbn beta iota.
  destruct (userConfirms w) eqn:Hconfirm; cbn [negb].
  2: { run. cbn [fst snd]. rewrite (events_since_app _ _ [Confirmed false]) by done.
       split; [done|]. split; [done|]. split; [by left|].
       intros Hin. apply list_elem_of_singleton in Hin. discriminate Hin. }
  set (w0 := with_event (Confirmed true) w).
  rewrite run_try_catch, run_bind, run_files_find. cbn beta iota.
  change (cached_files w0) with (cached_files w).
  destruct (list_find (fun f => fe_name f = filename) (cached_files w)) as [[k e]|] eqn:Hfind;
    cbn [mbind option_bind snd]; rewrite run_bind.
  - assert (Hsome : ~ Forall (fun f => fe_name f <> filename) (cached_files w)).
    { intros Hnone. apply list_find_Some in Hfind as (Hlook & Hname & _).
      apply list_elem_of_lookup_2 in Hlook. rewrite Forall_forall in Hnone.
      by destruct (Hnone e Hlook). }
    run.
    destruct (deleteChunks_loop_frame (Z.to_nat (fe_chunkCount e)) 1 filename w0)
      as (Happ1 & Hclock1 & Hfuel1 & evs1 & Htr1 & Hall1).
    destruct (Part0.deleteChunks_loop _ 1 filename w0) as [[[]|e1|] w1]; cbn [fst snd] in *;
      [| |done].
    + cbn zeta. rewrite run_bind.
      match goal with |- context [Part0.deleteFileFromGitHub ?p w1] =>
        destruct (deleteFileFromGitHub_frame p w1)
          as (Happ2 & Hclock2 & Hfuel2 & evs2 & Htr2 & Hall2);
        destruct (Part0.deleteFileFromGitHub p w1) as [[[]|e2|] w2] end; cbn [fst snd] in *;
        [| |done].
      * rewrite run_bind, run_files_remove. cbn beta iota.
        rewrite run_bind, run_touch_lastUpdated. cbn beta iota. rewrite run_bind.
        match goal with |- context [Part0.uploadDataJsonToGitHub ?x] =>
          destruct (uploadDataJsonToGitHub_run x) as (g & p & Hret & Happ3 & _ & Htr3 & _);
          destruct (Part0.uploadDataJsonToGitHub x) as [o3 w3] end.
        cbn [fst snd] in *. subst o3. run. world.
        assert (Hfiles : cached_files w3 = filter (fun f => fe_name f <> filename) (cached_files w)).
        { unfold cached_files. rewrite Happ3, Happ2, Happ1. done. }
        unfold cached_files in *. world.
        split; [done|]. split; [intros Hnone; by destruct (Hsome Hnone)|].
        split; [by right|]. done.
      * run. world.
        assert (Hfiles : cached_files w2 = cached_files w).
        { unfold cached_files. rewrite Happ2, Happ1. done. }
        unfold cached_files in *. world.
        split; [done|]. split; [intros Hnone; by destruct (Hsome Hnone)|].
        split; [by left|]. intros Hin.
        rewrite (events_since_app _ _
                   (Confirmed true :: evs1 ++ evs2 ++ [Status (SDeleteFailed (Some e2)) error]))
          in Hin by (cbn [trace with_event]; rewrite Htr2, Htr1; subst w0; cbn [trace with_event];
                     rewrite <- !app_assoc; done).
        apply elem_of_cons in Hin as [Heq|Hin]; [discriminate Heq|].
        apply elem_of_app in Hin as [Hin|Hin];
          [by apply (Forall_is_fetch_no_status _ _ _ Hall1) in Hin|].
        apply elem_of_app in Hin as [Hin|Hin];
          [by apply (Forall_is_fetch_no_status _ _ _ Hall2) in Hin|].
        apply list_elem_of_singleton in Hin. discriminate Hin.
    + run. world.
      assert (Hfiles : cached_files w1 = cached_files w).
      { unfold cached_files. rewrite Happ1. done. }
      unfold cached_files in *. world.
      split; [done|]. split; [intros Hnone; by destruct (Hsome Hnone)|].
      split; [by left|]. intros Hin.
      rewrite (events_since_app _ _
                 (Confirmed true :: evs1 ++ [Status (SDeleteFailed (Some e1)) error]))
        in Hin by (cbn [trace with_event]; rewrite Htr1; subst w0; cbn [trace with_event];
                   rewrite <- !app_assoc; done).
      apply elem_of_cons in Hin as [Heq|Hin]; [discriminate Heq|].
      apply elem_of_app in Hin as [Hin|Hin];
        [by apply (Forall_is_fetch_no_status _ _ _ Hall1) in Hin|].
      apply list_elem_of_singleton in Hin. discriminate Hin.
  - run. subst w0. world.
    rewrite (events_since_app _ _
               [Confirmed true; Status (SDeleteFailed (Some FileNotInRegistry)) error])
      by (cbn [trace with_event]; rewrite <- app_assoc; done).
    split; [done|]. split; [done|]. split; [by left|]. intros Hin.
    apply elem_of_cons in Hin as [Heq|Hin]; [discriminate Heq|].
    apply list_elem_of_singleton in Hin. discriminate Hin.
Qed.

(** A name that no entry has, in a world whose user confirms. *)
Lemma delete_by_exact_name_witness :
  let w := sampleWorld [earlierEntry] earlierStore [] in
  let run := Part0.deleteFile "ghost.bin" w in
  cached_files (snd run) = cached_files w
  /\ fetches (events_since w (snd run)) = []
  /\ (userConfirms w = true ->
      events_since w (snd run)
      = [Confirmed true; Status (SDeleteFailed (Some FileNotInRegistry)) error]).
Proof.
  intros w run.
  apply (proj1 (proj2 (delete_by_exact_name "ghost.bin"%string w))).
  repeat constructor. discriminate.
Defined.

(** ** Deletion in the batched variant *)

(** [deleteGitHubFile] makes requests and nothing else. *)
Lemma deleteGitHubFile_frame (filePath : string) (w : World) :
  let run := Script.deleteGitHubFile filePath w in
  appState (snd run) = appState w /\ clock (snd run) = clock w
  /\ fst run <> OutOfFuel
  /\ exists evs, trace (snd run) = trace w ++ evs /\ Forall is_fetch evs.
Proof.
  intros run. subst run. unfold Script.deleteGitHubFile.
  rewrite run_bind.
  match goal with |- context [fetch ?rq w] =>
    destruct (fetch_run rq w) as (g & w1 & _ & -> & Happ1 & Htrace1 & Hclock1) end.
  destruct g as [rs|]; cbn beta iota.
  - destruct (ok rs); cbn [negb].
    + rewrite run_bind.
      match goal with |- context [fetch ?rq ?x] =>
        destruct (fetch_run rq x) as (d & w2 & _ & -> & Happ2 & Htrace2 & Hclock2) end.
      world.
      destruct d as [drs|]; cbn beta iota; run; world;
        (split; [congruence|]); (split; [congruence|]); (split; [done|]);
        eexists; (split; [rewrite Htrace2, Htrace1, <- app_assoc; reflexivity|]);
        repeat constructor.
    + run. world. split; [done|]. split; [done|]. split; [done|].
      eexists. split; [rewrite Htrace1; reflexivity|]. repeat constructor.
  - world. split; [done|]. split; [done|]. split; [done|].
    eexists. split; [rewrite Htrace1; reflexivity|]. repeat constructor.
Qed.

Lemma Script_deleteChunks_loop_frame (remaining : nat) (i : Z) (folderPath : string)
    (w : World) :
  let run := Script.deleteChunks_loop remaining i folderPath w in
  appState (snd run) = appState w /\ clock (snd run) = clock w
  /\ fst run <> OutOfFuel
  /\ exists evs, trace (snd run) = trace w ++ evs /\ Forall is_fetch evs.
Proof.
  revert i w. induction remaining as [|remaining IH]; intros i w run; subst run;
    cbn [Script.deleteChunks_loop].
  - run. cbn [fst snd]. split; [done|]. split; [done|]. split; [done|].
    exists []. by rewrite app_nil_r.
  - cbn zeta. rewrite run_bind.
    match goal with |- context [Script.deleteGitHubFile ?p w] =>
      destruct (deleteGitHubFile_frame p w) as (Happ1 & Hclock1 & Hfuel1 & evs1 & Htr1 & Hall1);
      destruct (Script.deleteGitHubFile p w) as [[[]|e|] w1] end; cbn [fst snd] in *.
    + destruct (IH (i + 1) w1) as (Happ2 & Hclock2 & Hfuel2 & evs2 & Htr2 & Hall2).
      split; [congruence|]. split; [congruence|]. split; [done|].
      exists (evs1 ++ evs2). split; [rewrite Htr2, Htr1, app_assoc; done|].
      by apply Forall_app.
    + split; [done|]. split; [done|]. split; [done|]. by exists evs1.
    + done.
Qed.

(** A run of [deleteFile] that fails after requests only: the failure is
    reported, no deletion is, and the registry in memory is as before. *)
Lemma delete_failed_run (w w' : World) (evs : list Event) (line : StatusLine)
    (fileName : string) :
  appState w' = appState w ->
  trace w' = (trace w ++ [Confirmed true]) ++ evs ->
  Forall is_fetch evs ->
  let w'' := with_event (Status line error) w' in
  cached_files w'' = cached_files w
  /\ Status line error ∈ events_since w w''
  /\ Status (SDeleted fileName) success ∉ events_since w w''.
Proof.
  intros Happ Htr Hall w''. subst w''.
  rewrite (events_since_app _ _ (Confirmed true :: evs ++ [Status line error]))
    by (cbn [trace with_event]; rewrite Htr, <- !app_assoc; done).
  split; [unfold cached_files; cbn; by rewrite Happ|]. split.
  - right. apply elem_of_app. right. by left.
  - intros Hin. apply elem_of_cons in Hin as [Heq|Hin]; [discriminate Heq|].
    apply elem_of_app in Hin as [Hin|Hin];
      [by apply (Forall_is_fetch_no_status _ _ _ Hall) in Hin|].
    apply list_elem_of_singleton in Hin. discriminate Hin.
Qed.

(** [deleteFile] of the batched variant, which pushes an entry through
    [updateRegistry] after it has removed one. *)
Lemma Script_deleteFile_spec (fileName folderPath : string) (w : World) :
  let run := Script.deleteFile fileName folderPath w in
  let evs := events_since w (snd run) in
  let kept := filter (fun f => fe_name f <> fileName) (cached_files w) in
  fst run = Returned tt
  /\ (Forall (fun f => fe_name f <> fileName) (cached_files w) ->
      cached_files (snd run) = cached_files w
      /\ (userConfirms w = true -> Status (SDeleteFailed None) error ∈ evs))
  /\ (Status (SDeleted fileName) success ∈ evs ->
      cached_files (snd run) = kept ++ [Script.newEntry "" 0 0 0 "" (clock w)]).
Proof.
  intros run evs kept. subst evs run. unfold Script.deleteFile.
  rewrite run_bind, run_confirm. cbn beta iota.
  destruct (userConfirms w) eqn:Hconfirm; cbn [negb].
  2: { run. cbn [fst snd]. rewrite (events_since_app _ _ [Confirmed false]) by done.
       split; [done|]. split; [done|].
       intros Hin. apply list_elem_of_singleton in Hin. discriminate Hin. }
  set (w0 := with_event (Confirmed true) w).
  rewrite run_try_catch, run_bind.
  match goal with |- context [Script.deleteGitHubFile ?p w0] =>
    destruct (deleteGitHubFile_frame p w0) as (Happ1 & Hclock1 & Hfuel1 & evs1 & Htr1 & Hall1);
    destruct (Script.deleteGitHubFile p w0) as [[[]|e1|] w1] end; cbn [fst snd] in *;
    [| |done].
  2: { run. cbn [fst snd].
       destruct (delete_failed_run w w1 evs1 (SDeleteFailed None) fileName)
         as (Hfiles & Hin & Hnot); [done|done|done|].
       split; [done|]. split; [done|]. intros Hdel. by destruct (Hnot Hdel). }
  rewrite run_bind, run_files_find. cbn beta iota.
  replace (cached_files w1) with (cached_files w) by (unfold cached_files; by rewrite Happ1).
  destruct (list_find (fun f => fe_name f = fileName) (cached_files w)) as [[k e]|] eqn:Hfind;
    cbn [mbind option_bind snd]; rewrite run_bind.
  2: { run. cbn [fst snd].
       destruct (delete_failed_run w w1 evs1 (SDeleteFailed None) fileName)
         as (Hfiles & Hin & Hnot); [done|done|done|].
       split; [done|]. split; [done|]. intros Hdel. by destruct (Hnot Hdel). }
  assert (Hsome : ~ Forall (fun f => fe_name f <> fileName) (cached_files w)).
  { intros Hnone. apply list_find_Some in Hfind as (Hlook & Hname & _).
    apply list_elem_of_lookup_2 in Hlook. rewrite Forall_forall in Hnone.
    by destruct (Hnone e Hlook). }
  run.
  destruct (Script_deleteChunks_loop_frame (Z.to_nat (fe_chunkCount e)) 1 folderPath w1)
    as (Happ2 & Hclock2 & Hfuel2 & evs2 & Htr2 & Hall2).
  destruct (Script.deleteChunks_loop _ 1 folderPath w1) as [[[]|e2|] w2]; cbn [fst snd] in *;
    [| |done].
  2: { run. cbn [fst snd].
       destruct (delete_failed_run w w2 (evs1 ++ evs2) (SDeleteFailed None) fileName)
         as (Hfiles & Hin & Hnot);
         [by rewrite Happ2, Happ1
         |rewrite Htr2, Htr1; subst w0; cbn [trace with_event]; by rewrite <- !app_assoc
         |by apply Forall_app|].
       split; [done|]. split; [intros Hnone; by destruct (Hsome Hnone)|].
       intros Hdel. by destruct (Hnot Hdel). }
  rewrite run_bind, run_files_remove. cbn beta iota. rewrite run_bind.
  match goal with |- context [Script.updateRegistry ?a ?b ?c ?d ?f ?x] =>
    destruct (updateRegistry_run a b c d f x) as (g & p & rest & Hret & Happ3 & _);
    destruct (Script.updateRegistry a b c d f x) as [o3 w3] end.
  cbn [fst snd] in *. subst o3. run. world.
  split; [done|]. split; [intros Hnone; by destruct (Hsome Hnone)|].
  intros _. unfold cached_files. world. rewrite Happ3. cbn. rewrite Happ2, Happ1, Hclock2, Hclock1.
  done.
Qed.

(** ** The upload orchestrator *)

Lemma run_compressFile (file : File) (w : World) :
  compressFile file w
  = match gzip w (file_bytes file) with
    | Some compressed => (Returned compressed, w)
    | None => (Thrown CompressionFailed, w)
    end.
Proof. unfold compressFile. run. by destruct (gzip w (file_bytes file)). Qed.

(** [saveMetadata] makes one request, which is no chunk transfer, and
    returns. *)
Lemma saveMetadata_run (fileFolder fileName : string) (chunkCount originalSize compressedSize : Z)
    (w : World) :
  let run := Script.saveMetadata fileFolder fileName chunkCount originalSize compressedSize w in
  fst run = Returned tt
  /\ appState (snd run) = appState w
  /\ exists evs,
       trace (snd run) = trace w ++ evs
       /\ (forall accepted n, failed_attempts accepted n evs = 0%nat).
Proof.
  intros run. subst run. unfold Script.saveMetadata. rewrite run_bind, run_Date_now.
  cbn beta iota zeta. rewrite run_try_catch, run_bind.
  match goal with |- context [fetch ?rq w] =>
    destruct (fetch_run rq w) as (r & w1 & _ & -> & Happ & Htrace & _) end.
  destruct r as [rs|]; run; world.
  - split; [done|]. split; [done|]. eexists. split; [rewrite Htrace; reflexivity|]. done.
  - split; [done|]. split; [done|]. eexists.
    split; [rewrite Htrace, <- app_assoc; reflexivity|]. done.
Qed.

Lemma saveFileMetadata_run (filename : string) (chunkCount compressedSize : Z) (w : World) :
  let run := Part0.saveFileMetadata filename chunkCount compressedSize w in
  fst run = Returned tt
  /\ appState (snd run) = appState w
  /\ exists evs,
       trace (snd run) = trace w ++ evs
       /\ (forall accepted n, failed_attempts accepted n evs = 0%nat).
Proof.
  intros run. subst run. unfold Part0.saveFileMetadata. rewrite run_bind, run_Date_now.
  cbn beta iota zeta. rewrite run_try_catch, run_bind.
  match goal with |- context [fetch ?rq w] =>
    destruct (fetch_run rq w) as (r & w1 & _ & -> & Happ & Htrace & _) end.
  destruct r as [rs|]; [destruct (ok rs)|]; run; world.
  - split; [done|]. split; [done|]. eexists.
    split; [rewrite Htrace, <- app_assoc; reflexivity|]. done.
  - split; [done|]. split; [done|]. eexists. split; [rewrite Htrace; reflexivity|]. done.
  - split; [done|]. split; [done|]. eexists.
    split; [rewrite Htrace, <- app_assoc; reflexivity|]. done.
Qed.

Lemma failed_attempts_uploadDataJson_events (accepted : Response -> bool) (n : Z)
    (content : Document) (g p : option Response) :
  failed_attempts accepted n (uploadDataJson_events content g p) = 0%nat.
Proof.
  unfold uploadDataJson_events. destruct g as [rs|]; [|done].
  destruct p as [prs|]; [|done]. by destruct (ok prs).
Qed.

(** The [try] block of [startUpload] in the batched variant: when it
    returns no chunk has failed three times; when it throws, nothing was
    registered, and if a chunk has failed three times the error is the one
    of a chunk. *)
Lemma Script_startUpload_try_spec (file : File) (w : World) :
  let run := Script.startUpload_try file w in
  exists evs,
    trace (snd run) = trace w ++ evs
    /\ match fst run with
       | Returned _ => forall n, (failed_attempts created_or_ok n evs <= 2)%nat
       | Thrown e =>
           appState (snd run) = appState w
           /\ Forall (fun ev => registry_write ev = false) evs
           /\ ((exists n, (3 <= failed_attempts created_or_ok n evs)%nat) ->
               exists m, e = ChunkFailed m)
       | OutOfFuel => False
       end.
Proof.
  intros run. subst run. unfold Script.startUpload_try.
  run. rewrite run_compressFile. world.
  destruct (gzip w (file_bytes file)) as [compressed|].
  2: { cbn [fst snd]. world. eexists. split; [rewrite <- app_assoc; reflexivity|].
       split; [done|]. split; [by repeat constructor|].
       intros [n Hn]. cbn in Hn. lia. }
  cbn beta iota zeta. run.
  destruct (proj1 (createChunks_returns compressed)) as (chunks & -> & _).
  run.
  set (fileFolder := Script.ASSETS_FOLDER +:+ "/" +:+ sanitize (file_name file)).
  match goal with |- context [Script.uploadChunksParallel chunks fileFolder ?x] =>
    set (w1 := x) in *;
    destruct (uploadChunksParallel_loop_spec (length chunks) 0 chunks fileFolder w1)
      as (evsE & HtrE & HappE & (HallE & HoutE) & HerrE & _);
      [unfold Script.PARALLEL_BATCH; lia|lia|] end.
  fold (Script.uploadChunksParallel chunks fileFolder) in *.
  assert (Htr1 : trace w1
                 = trace w ++ [Logged (LUploading (file_name file)) info; Logged LCompressing info;
                               Logged (LCompressed (blob_size compressed)) success;
                               Logged (LFolder fileFolder) info; Logged LChunking info;
                               Logged (LChunks (Z.of_nat (length chunks))) success;
                               Logged LUploadingBatches info]).
  { subst w1. world. rewrite <- !app_assoc. done. }
  destruct (Script.uploadChunksParallel chunks fileFolder w1) as [[[]|eE|] wE];
    cbn [fst snd] in *; [| |done].
  - (* the transfer returned *)
    destruct HoutE as [HfE _].
    rewrite run_bind, run_addLog. cbn beta iota. rewrite run_bind.
    match goal with |- context [Script.saveMetadata ?a ?b ?c ?d ?e ?x] =>
      destruct (saveMetadata_run a b c d e x) as (HretM & _ & evsM & HtrM & HfM);
      destruct (Script.saveMetadata a b c d e x) as [oM wM] end.
    cbn [fst snd] in *. subst oM. cbn beta iota.
    rewrite run_bind, run_addLog. cbn beta iota. rewrite run_bind.
    match goal with |- context [Script.updateRegistry ?a ?b ?c ?d ?e ?x] =>
      destruct (updateRegistry_run a b c d e x) as (g & p & rest & HretR & _ & HtrR & Hrest & _);
      destruct (Script.updateRegistry a b c d e x) as [oR wR] end.
    cbn [fst snd] in *. subst oR. run. world.
    eexists. split.
    { rewrite HtrR. world. rewrite HtrM. world. rewrite HtrE, Htr1.
      rewrite <- !app_assoc. reflexivity. }
    intros n. rewrite !failed_attempts_app, HfM.
    destruct Hrest as [-> | ->]; cbn; specialize (HfE n); lia.
  - (* the transfer threw *)
    eexists. split; [rewrite HtrE, Htr1, <- app_assoc; reflexivity|].
    split; [rewrite HappE; subst w1; done|]. split.
    + apply Forall_app. split; [by repeat constructor|].
      by apply (upload_events_no_registry_write 0 (Z.of_nat (length chunks))).
    + intros _. by apply HerrE.
Qed.

Lemma Part0_run_compressFile (file : File) (w : World) :
  exists evs,
    (forall ev, ev ∈ evs -> exists elementId p, ev = Progress elementId p)
    /\ match fst (Part0.compressFile file w) with
       | Returned _ | Thrown _ => True
       | OutOfFuel => False
       end
    /\ appState (snd (Part0.compressFile file w)) = appState w
    /\ trace (snd (Part0.compressFile file w)) = trace w ++ evs.
Proof.
  unfold Part0.compressFile. run. world.
  destruct (libraryLoaded w); cbn [negb]; run.
  - rewrite run_compressFile. world.
    destruct (gzip w (file_bytes file)) as [compressed|]; run; world.
    + exists [Progress "compressionProgress" (Pct 50 100);
              Progress "compressionProgress" (Pct 100 100)].
      split; [|by rewrite <- app_assoc].
      intros ev Hev. repeat (apply elem_of_cons in Hev as [->|Hev]; [by eauto|]).
      by apply elem_of_nil in Hev.
    + exists [Progress "compressionProgress" (Pct 50 100)]. split; [|done].
      intros ev Hev. repeat (apply elem_of_cons in Hev as [->|Hev]; [by eauto|]).
      by apply elem_of_nil in Hev.
  - exists [Progress "compressionProgress" (Pct 50 100)]. split; [|done].
    intros ev Hev. repeat (apply elem_of_cons in Hev as [->|Hev]; [by eauto|]).
    by apply elem_of_nil in Hev.
Qed.

Lemma progress_no_registry_write (evs : list Event) :
  (forall ev, ev ∈ evs -> exists elementId p, ev = Progress elementId p) ->
  Forall (fun ev => registry_write ev = false) evs
  /\ (forall accepted n, failed_attempts accepted n evs = 0%nat).
Proof.
  induction evs as [|ev evs IH]; intros Hevs; [by split|].
  destruct IH as [IH1 IH2]; [intros ? ?; apply Hevs; by right|].
  destruct (Hevs ev) as (elementId & p & ->); [by left|].
  split; [by constructor|]. intros accepted n. apply (IH2 accepted n).
Qed.

(** The [try] block of [startUpload] in the sequential variant. *)
Lemma Part0_startUpload_try_spec (file : File) (w : World) :
  let run := Part0.startUpload_try file w in
  exists evs,
    trace (snd run) = trace w ++ evs
    /\ match fst run with
       | Returned _ => forall n, (failed_attempts ok n evs <= 2)%nat
       | Thrown e =>
           appState (snd run) = appState w
           /\ Forall (fun ev => registry_write ev = false) evs
       | OutOfFuel => False
       end.
Proof.
  intros run. subst run. unfold Part0.startUpload_try. run.
  match goal with |- context [Part0.compressFile file ?x] =>
    set (w0 := x) in *;
    destruct (Part0_run_compressFile file w0) as (evsC & HevsC & HoutC & HappC & HtrC) end.
  apply progress_no_registry_write in HevsC as [HregC HfC].
  destruct (Part0.compressFile file w0) as [[compressed|eC|] wC]; cbn [fst snd] in *;
    [| |done].
  2: { eexists. split; [rewrite HtrC; subst w0; world; rewrite <- app_assoc; reflexivity|].
       split; [rewrite HappC; subst w0; done|].
       by constructor. }
  run. unfold Part0.createChunks.
  destruct (proj2 (createChunks_returns compressed)) as (chunks & -> & _).
  run.
  match goal with |- context [Part0.uploadChunks chunks (file_name file) ?x] =>
    set (w1 := x) in *;
    destruct (uploadChunks_loop_spec (length chunks) 0 chunks (file_name file) w1)
      as (evsE & HtrE & HappE & (HallE & HoutE) & _); [lia|lia|] end.
  fold (Part0.uploadChunks chunks (file_name file)) in *.
  assert (Htr1 : trace w1
                 = trace w ++ Logged (LUploading (file_name file)) info :: evsC
                              ++ [Logged (LCompressed (blob_size compressed)) success;
                                  Progress "chunkingProgress" (Pct 100 100);
                                  Logged (LChunks (Z.of_nat (length chunks))) success;
                                  Logged LUploadingChunks info]).
  { subst w1. world. rewrite HtrC. subst w0. world. rewrite <- !app_assoc. done. }
  destruct (Part0.uploadChunks chunks (file_name file) w1) as [[[]|eE|] wE];
    cbn [fst snd] in *; [| |done].
  - destruct HoutE as [HfE _]. rewrite run_bind.
    match goal with |- context [Part0.saveFileMetadata ?a ?b ?c ?x] =>
      destruct (saveFileMetadata_run a b c x) as (HretM & _ & evsM & HtrM & HfM);
      destruct (Part0.saveFileMetadata a b c x) as [oM wM] end.
    cbn [fst snd] in *. subst oM. cbn beta iota. rewrite run_bind.
    match goal with |- context [Part0.updateDataJson ?a ?b ?c ?d ?x] =>
      destruct (updateDataJson_run a b c d x) as (g & p & HretR & _ & HtrR & _);
      destruct (Part0.updateDataJson a b c d x) as [oR wR] end.
    cbn [fst snd] in *. subst oR. run. world.
    eexists. split.
    { rewrite HtrR, HtrM, HtrE, Htr1. rewrite <- !app_assoc. reflexivity. }
    intros n. cbn [app]. rewrite !failed_attempts_cons, !failed_attempts_app.
    rewrite HfC, HfM, failed_attempts_uploadDataJson_events.
    specialize (HfE n). cbn. lia.
  - eexists. split; [rewrite HtrE, Htr1, <- app_assoc; reflexivity|].
    split; [rewrite HappE; subst w1; world; rewrite HappC; subst w0; done|].
    apply Forall_app. split.
    + constructor; [done|]. apply Forall_app. split; [done|]. by repeat constructor.
    + by apply (upload_events_no_registry_write 0 (Z.of_nat (length chunks))).
Qed.

Lemma failed_attempts_nil (accepted : Response -> bool) (n : Z) :
  failed_attempts accepted n [] = 0%nat.
Proof. reflexivity. Qed.

(** [startUpload] in the batched variant: it returns, and either no chunk
    failed three times or the upload was rejected and nothing registered. *)
Lemma Script_startUpload_spec (w : World) :
  let run := Script.startUpload w in
  exists evs,
    trace (snd run) = trace w ++ evs
    /\ fst run = Returned tt
    /\ ((forall n, (failed_attempts created_or_ok n evs <= 2)%nat)
        \/ (upload_rejected evs
            /\ dataJson (appState (snd run)) = dataJson (appState w)
            /\ Forall (fun ev => registry_write ev = false) evs)).
Proof.
  intros run. subst run. unfold Script.startUpload. run.
  destruct (isUploading (appState w)), (selectedFile (appState w)) as [file|]; run;
    try (exists []; rewrite app_nil_r; split; [done|]; split; [done|]; left;
         intros n; cbn; lia).
  unfold validateSettings. run.
  match goal with |- context [negb (?a && ?b && ?c)] => destruct (a && b && c) end;
    cbn [negb]; run; world.
  2: { eexists. split; [rewrite <- app_assoc; reflexivity|]. split; [done|]. left.
       intros n. cbn. lia. }
  rewrite run_try_finally, !run_try_catch.
  match goal with |- context [Script.startUpload_try file ?x] =>
    set (w0 := x) in *;
    destruct (Script_startUpload_try_spec file w0) as (evs & Htr & Hout) end.
  assert (Htr0 : trace w0 = trace w ++ [Dom "uploadBtn.disabled = true";
                   Dom "progressSection, uploadLog shown; logContent cleared"]).
  { subst w0. world. by rewrite <- app_assoc. }
  assert (Happ0 : dataJson (appState w0) = dataJson (appState w)) by done.
  destruct (Script.startUpload_try file w0) as [[[]|e|] wT]; cbn [fst snd] in *; [| |done];
    run; world.
  - eexists. split; [rewrite Htr, Htr0, <- !app_assoc; reflexivity|]. split; [done|]. left.
    intros n. cbn [app]. rewrite !failed_attempts_cons, failed_attempts_app.
    specialize (Hout n). cbn. lia.
  - destruct Hout as (HappT & Hreg & _).
    eexists. split; [rewrite Htr, Htr0, <- !app_assoc; reflexivity|]. split; [done|]. right.
    split; [|split].
    + exists e. split.
      * do 2 right. apply elem_of_app. right. by left.
      * do 2 right. apply elem_of_app. right. right. by left.
    + cbn. rewrite HappT. done.
    + cbn [app]. do 2 (constructor; [done|]). apply Forall_app. split; [done|].
      by repeat constructor.
Qed.

(** [startUpload] in the sequential variant. *)
Lemma Part0_startUpload_spec (w : World) :
  let run := Part0.startUpload w in
  exists evs,
    trace (snd run) = trace w ++ evs
    /\ fst run = Returned tt
    /\ ((forall n, (failed_attempts ok n evs <= 2)%nat)
        \/ (upload_rejected evs
            /\ dataJson (appState (snd run)) = dataJson (appState w)
            /\ Forall (fun ev => registry_write ev = false) evs)).
Proof.
  intros run. subst run. unfold Part0.startUpload. run.
  destruct (selectedFile (appState w)) as [file|]; run.
  2: { eexists. split; [reflexivity|]. split; [done|]. left. intros n. cbn. lia. }
  unfold validateSettings. run.
  match goal with |- context [negb (?a && ?b && ?c)] => destruct (a && b && c) end;
    cbn [negb]; run; world.
  2: { eexists. split; [rewrite <- app_assoc; reflexivity|]. split; [done|]. left.
       intros n. cbn. lia. }
  unfold Part0.waitForCompressionLib. run.
  destruct (libraryLoaded w); cbn [negb]; run; cbn [negb]; run; world.
  2: { eexists. split; [reflexivity|]. split; [done|]. left. intros n. cbn. lia. }
  rewrite run_try_finally, !run_try_catch.
  match goal with |- context [Part0.startUpload_try file ?x] =>
    set (w0 := x) in *;
    destruct (Part0_startUpload_try_spec file w0) as (evs & Htr & Hout) end.
  assert (Htr0 : trace w0 = trace w ++ [Dom "uploadBtn.disabled = true";
                   Dom "progressSection, uploadLog shown; statusMessage hidden; logContent cleared"]).
  { subst w0. world. by rewrite <- app_assoc. }
  assert (Happ0 : dataJson (appState w0) = dataJson (appState w)) by done.
  destruct (Part0.startUpload_try file w0) as [[[]|e|] wT]; cbn [fst snd] in *; [| |done];
    run; world.
  - eexists. split; [rewrite Htr, Htr0, <- !app_assoc; reflexivity|]. split; [done|]. left.
    intros n. cbn [app]. rewrite !failed_attempts_cons, failed_attempts_app.
    specialize (Hout n). cbn. lia.
  - destruct Hout as (HappT & Hreg).
    eexists. split; [rewrite Htr, Htr0, <- !app_assoc; reflexivity|]. split; [done|]. right.
    split; [|split].
    + exists e. split.
      * do 2 right. apply elem_of_app. right. by left.
      * do 2 right. apply elem_of_app. right. right. by left.
    + cbn. rewrite HappT. done.
    + cbn [app]. do 2 (constructor; [done|]). apply Forall_app. split; [done|].
      by repeat constructor.
Qed.

(** C3. Partial-retry exhaustion, in both variants: whenever some chunk
    has failed three attempts in a run of the chunk-upload loop
    ([uploadChunksParallel], [uploadChunks]) the loop throws, in the batched
    variant the error of a chunk; and whenever some chunk has failed three
    attempts in a run of [startUpload], the [catch] block logged and reported
    the error, the in-memory registry is the one before the run, and no
    registry document was written: the entry is created only after the
    chunk transfer has returned. *)
Theorem exhausted_chunk_rejects_upload (chunks : list Blob) (name : string) (w : World) :
  ((exists n, (3 <= failed_attempts created_or_ok n
                      (events_since w (snd (Script.uploadChunksParallel chunks name w))))%nat) ->
   exists m, fst (Script.uploadChunksParallel chunks name w) = Thrown (ChunkFailed m))
  /\ ((exists n, (3 <= failed_attempts ok n
                        (events_since w (snd (Part0.uploadChunks chunks name w))))%nat) ->
      exists e, fst (Part0.uploadChunks chunks name w) = Thrown e)
  /\ ((exists n, (3 <= failed_attempts created_or_ok n
                        (events_since w (snd (Script.startUpload w))))%nat) ->
      upload_rejected (events_since w (snd (Script.startUpload w)))
      /\ nothing_registered w (snd (Script.startUpload w)))
  /\ ((exists n, (3 <= failed_attempts ok n
                        (events_since w (snd (Part0.startUpload w))))%nat) ->
      upload_rejected (events_since w (snd (Part0.startUpload w)))
      /\ nothing_registered w (snd (Part0.startUpload w))).
Proof.
  split; [|split; [|split]].
  - intros [n Hn].
    destruct (uploadChunksParallel_loop_spec (length chunks) 0 chunks name w)
      as (evs & Htr & _ & (_ & Hout) & Herr & _);
      [unfold Script.PARALLEL_BATCH; lia|lia|].
    fold (Script.uploadChunksParallel chunks name) in *.
    rewrite (events_since_app _ _ _ Htr) in Hn.
    destruct (fst (Script.uploadChunksParallel chunks name w)) as [[]|e|]; [|..|done].
    + destruct Hout as [Hle _]. specialize (Hle n). lia.
    + destruct (Herr e eq_refl) as [m ->]. by exists m.
  - intros [n Hn].
    destruct (uploadChunks_loop_spec (length chunks) 0 chunks name w)
      as (evs & Htr & _ & (_ & Hout) & _); [lia|lia|].
    fold (Part0.uploadChunks chunks name) in *.
    rewrite (events_since_app _ _ _ Htr) in Hn.
    destruct (fst (Part0.uploadChunks chunks name w)) as [[]|e|]; [|..|done].
    + destruct Hout as [Hle _]. specialize (Hle n). lia.
    + by exists e.
  - intros [n Hn]. unfold nothing_registered.
    destruct (Script_startUpload_spec w) as (evs & Htr & _ & [Hle|(Hrej & Hcache & Hreg)]);
      rewrite (events_since_app _ _ _ Htr) in *.
    + specialize (Hle n). lia.
    + done.
  - intros [n Hn]. unfold nothing_registered.
    destruct (Part0_startUpload_spec w) as (evs & Htr & _ & [Hle|(Hrej & Hcache & Hreg)]);
      rewrite (events_since_app _ _ _ Htr) in *.
    + specialize (Hle n). lia.
    + done.
Qed.

Lemma exhausted_chunk_rejects_upload_witness :
  let w := sampleWorld [] ∅ [Unreachable; Unreachable; Unreachable] in
  let chunks := [[Byte.x01; Byte.x02]] in
  (exists m, fst (Script.uploadChunksParallel chunks "files/notes.txt" w)
             = Thrown (ChunkFailed m))
  /\ (exists e, fst (Part0.uploadChunks chunks "notes.txt" w) = Thrown e)
  /\ (upload_rejected (events_since w (snd (Script.startUpload w)))
      /\ nothing_registered w (snd (Script.startUpload w)))
  /\ (upload_rejected (events_since w (snd (Part0.startUpload w)))
      /\ nothing_registered w (snd (Part0.startUpload w))).
Proof.
  intros w chunks.
  split; [|split; [|split]].
  - apply (exhausted_chunk_rejects_upload chunks "files/notes.txt" w).
    exists 1. vm_compute. lia.
  - apply (exhausted_chunk_rejects_upload chunks "notes.txt" w).
    exists 1. vm_compute. lia.
  - apply (exhausted_chunk_rejects_upload chunks "notes.txt" w).
    exists 1. vm_compute. lia.
  - apply (exhausted_chunk_rejects_upload chunks "notes.txt" w).
    exists 1. vm_compute. lia.
Defined.

(** * Further properties of the code *)

(** ** Folder names *)

Lemma path_breaking_underscore : path_breaking "_" = false.
Proof. reflexivity. Qed.

Lemma sanitize_path_safe (s : string) : path_safe (sanitize s) = true.
Proof.
  induction s as [|c s IH]; [done|]. cbn [sanitize path_safe]. rewrite IH.
  destruct (path_breaking c) eqn:Hc; [by rewrite path_breaking_underscore|by rewrite Hc].
Qed.

Lemma sanitize_fixed (s : string) : path_safe s = true -> sanitize s = s.
Proof.
  induction s as [|c s IH]; [done|]. cbn [sanitize path_safe].
  intros [Hc Hs]%andb_true_iff. apply negb_true_iff in Hc. rewrite Hc, (IH Hs). done.
Qed.

Lemma js_split_path_safe (s : string) :
  path_safe s = true -> js_split "/" s = [s].
Proof.
  induction s as [|c s IH]; [done|]. cbn [path_safe js_split].
  intros [Hc Hs]%andb_true_iff. rewrite (IH Hs).
  destruct (Ascii.eqb_spec c "/") as [->|_]; [done|done].
Qed.

Lemma js_split_app_sep (sep : ascii) (s t : string) :
  occurs sep s = false -> js_split sep (s +:+ String sep t) = s :: js_split sep t.
Proof.
  induction s as [|c s IH]; cbn [occurs].
  - intros _. change ("" +:+ String sep t) with (String sep t). cbn [js_split].
    by rewrite Ascii.eqb_refl.
  - intros [Hc Hs]%orb_false_iff.
    change (String c s +:+ String sep t) with (String c (s +:+ String sep t)).
    cbn [js_split]. rewrite Hc, (IH Hs). done.
Qed.

(** X1. The folder name of an upload: [sanitize] replaces each of the
    characters of its class (slash, question mark, star, colon, bar,
    double quote and the two angle brackets) by an underscore and nothing
    else: at every position the result has an underscore where the name
    has a character of the class and the character of the name where it
    has another one (a backslash is kept).  So the result has the length
    of the name and none of these characters, a name without them is
    unchanged, sanitizing twice is sanitizing once, and the folder
    [files/<sanitized name>] has exactly two segments, the second of which
    is the sanitized name that the commit message of a chunk quotes. *)
Theorem sanitize_folder (name : string) :
  (forall i : nat,
     String.get i (sanitize name)
     = (fun c => if path_breaking c then "_"%char else c) <$> String.get i name)
  /\ String.length (sanitize name) = String.length name
  /\ path_safe (sanitize name) = true
  /\ sanitize (sanitize name) = sanitize name
  /\ (if path_safe name then sanitize name else name) = name
  /\ sanitize "a\b/c" = "a\b_c"
  /\ js_split "/" (Script.ASSETS_FOLDER +:+ "/" +:+ sanitize name)
     = [Script.ASSETS_FOLDER; sanitize name].
Proof.
  split; [|split; [|split; [|split; [|split; [|split]]]]].
  - induction name as [|c s IH]; intros i; [done|]. cbn [sanitize].
    destruct i as [|i]; [done|]. cbn [String.get]. apply IH.
  - induction name as [|c s IH]; [done|]. cbn [sanitize String.length]. by rewrite IH.
  - apply sanitize_path_safe.
  - apply sanitize_fixed, sanitize_path_safe.
  - destruct (path_safe name) eqn:Hsafe; [|done]. by apply sanitize_fixed.
  - reflexivity.
  - change ("/" +:+ sanitize name) with (String "/" (sanitize name)).
    rewrite js_split_app_sep by done.
    by rewrite js_split_path_safe by apply sanitize_path_safe.
Qed.

(** ** Chunk names *)

Lemma string_length_app (s t : string) :
  String.length (s +:+ t) = (String.length s + String.length t)%nat.
Proof.
  induction s as [|c s IH]; [done|].
  change (String c s +:+ t) with (String c (s +:+ t)). cbn [String.length]. by rewrite IH.
Qed.

Lemma string_app_inv_tail (s1 s2 t : string) : s1 +:+ t = s2 +:+ t -> s1 = s2.
Proof.
  revert s2. induction s1 as [|c s1 IH]; intros [|c2 s2] H.
  - done.
  - apply (f_equal String.length) in H.
    change (String c2 s2 +:+ t) with (String c2 (s2 +:+ t)) in H.
    change ("" +:+ t) with t in H. cbn [String.length] in H.
    rewrite string_length_app in H. lia.
  - apply (f_equal String.length) in H.
    change (String c s1 +:+ t) with (String c (s1 +:+ t)) in H.
    change ("" +:+ t) with t in H. cbn [String.length] in H.
    rewrite string_length_app in H. lia.
  - change (String c s1 +:+ t) with (String c (s1 +:+ t)) in H.
    change (String c2 s2 +:+ t) with (String c2 (s2 +:+ t)) in H.
    injection H as -> H. f_equal. by apply IH.
Qed.

(** The decimal digits of a positive number do not start with a zero. *)
Lemma pretty_N_go_head (x : N) (s : string) :
  (0 < x)%N -> exists c rest, pretty_N_go x s = String c rest /\ c <> "0"%char.
Proof.
  revert s. induction (N.lt_wf_0 x) as [x _ IH]; intros s Hx.
  rewrite pretty_N_go_step by done.
  destruct (decide (x `div` 10 = 0)%N) as [Hd|Hd].
  - rewrite Hd, pretty_N_go_0. eexists _, _. split; [done|].
    assert (x < 10)%N by (apply N.div_small_iff in Hd; lia).
    rewrite N.mod_small by done.
    assert (x = 1 \/ x = 2 \/ x = 3 \/ x = 4 \/ x = 5 \/ x = 6 \/ x = 7 \/ x = 8 \/ x = 9)%N
      as Hcases by lia.
    destruct Hcases as [->|[->|[->|[->|[->|[->|[->|[->| ->]]]]]]]]; done.
  - apply IH; [apply N.div_lt; lia|by apply N.neq_0_lt_0].
Qed.

Lemma pretty_pos_head (n : Z) :
  0 < n -> exists c rest, pretty n = String c rest /\ c <> "0"%char.
Proof.
  destruct n as [|p|p]; [lia| |lia]. intros _.
  unfold pretty, pretty_Z, pretty, pretty_positive, pretty, pretty_N.
  destruct (decide (N.pos p = 0%N)) as [?|_]; [done|]. by apply pretty_N_go_head.
Qed.

Lemma zeros_app_inj (a b : nat) (c1 c2 : ascii) (r1 r2 : string) :
  c1 <> "0"%char -> c2 <> "0"%char ->
  String.concat "" (replicate a "0"%string) +:+ String c1 r1
  = String.concat "" (replicate b "0"%string) +:+ String c2 r2 ->
  String c1 r1 = String c2 r2.
Proof.
  intros H1 H2. revert b. induction a as [|a IH]; intros [|b] H.
  - done.
  - cbn in H. destruct (replicate b "0"%string); injection H as -> _; done.
  - cbn in H. destruct (replicate a "0"%string); injection H as <- _; done.
  - apply (IH b).
    assert (Hstep : forall k r, String.concat "" (replicate (S k) "0"%string) +:+ r
                                = String "0" (String.concat "" (replicate k "0"%string) +:+ r)).
    { intros k r. cbn [replicate String.concat]. destruct k as [|k]; [done|].
      cbn [replicate]. done. }
    rewrite !Hstep in H. by injection H.
Qed.

(** [padStart5] is one-to-one on the chunk numbers. *)
Lemma padStart5_inj (m n : Z) : 0 < m -> 0 < n -> padStart5 m = padStart5 n -> m = n.
Proof.
  intros Hm Hn H. unfold padStart5 in H.
  destruct (pretty_pos_head m Hm) as (c1 & r1 & E1 & Hc1).
  destruct (pretty_pos_head n Hn) as (c2 & r2 & E2 & Hc2).
  rewrite E1, E2 in H. apply zeros_app_inj in H; [|done..].
  rewrite <- E1, <- E2 in H. by apply (inj pretty) in H.
Qed.

Lemma string_app_cons (c : ascii) (s t : string) : String c s +:+ t = String c (s +:+ t).
Proof. reflexivity. Qed.

Lemma string_app_nil_l (t : string) : "" +:+ t = t.
Proof. reflexivity. Qed.

Lemma zeros_length (k : nat) : String.length (String.concat "" (replicate k "0"%string)) = k.
Proof.
  induction k as [|k IH]; [done|].
  replace (String.concat "" (replicate (S k) "0"%string))
    with (String "0" (String.concat "" (replicate k "0"%string)))
    by (cbn [replicate String.concat]; by destruct k).
  cbn [String.length]. by rewrite IH.
Qed.

Lemma Script_chunkPath_inj (fileFolder : string) (m n : Z) :
  0 < m -> 0 < n -> Script_chunkPath fileFolder m = Script_chunkPath fileFolder n -> m = n.
Proof.
  intros Hm Hn H. unfold Script_chunkPath in H.
  apply (inj (String.append fileFolder)) in H.
  apply (inj (String.append "/")) in H.
  apply (inj (String.append "chunk_")) in H.
  apply string_app_inv_tail in H. by apply padStart5_inj.
Qed.

Lemma Part0_chunkPath_inj (filename : string) (m n : Z) :
  Part0_chunkPath filename m = Part0_chunkPath filename n -> m = n.
Proof.
  intros H. unfold Part0_chunkPath in H.
  apply (inj (String.append Part0.ASSETS_FOLDER)) in H.
  apply (inj (String.append "/")) in H.
  apply (inj (String.append filename)) in H.
  apply (inj (String.append ".part")) in H.
  apply string_app_inv_tail in H. by apply (inj pretty) in H.
Qed.

(** X2. Chunk names.  [String(n).padStart(5, '0')] has five characters, or
    those of [n] when it has more, and the chunk paths of an upload are
    one-to-one in the chunk number in both variants; the [chunks] array
    that the sequential variant records in the entry has [chunkCount]
    names, the [i]-th of which is [<filename>.part<i+1>.gz], without
    repetition. *)
Theorem chunk_names_distinct (name : string) (m n : Z) :
  0 < m -> 0 < n ->
  String.length (padStart5 n) = Nat.max 5 (String.length (pretty n))
  /\ (Script_chunkPath name m = Script_chunkPath name n -> m = n)
  /\ (Part0_chunkPath name m = Part0_chunkPath name n -> m = n)
  /\ length (Part0.chunk_names name n) = Z.to_nat n
  /\ NoDup (Part0.chunk_names name n)
  /\ (m <= n ->
      Part0.chunk_names name n !! Z.to_nat (m - 1)
      = Some (name +:+ ".part" +:+ pretty m +:+ ".gz")).
Proof.
  intros Hm Hn. split; [|split; [|split; [|split; [|split]]]].
  - unfold padStart5. rewrite string_length_app, zeros_length. lia.
  - by apply Script_chunkPath_inj.
  - apply Part0_chunkPath_inj.
  - unfold Part0.chunk_names. by rewrite length_map, length_seq.
  - unfold Part0.chunk_names. apply (NoDup_fmap_2_strong _); [|apply NoDup_seq].
    intros i j _ _ H.
    apply (inj (String.append name)) in H. apply (inj (String.append ".part")) in H.
    apply string_app_inv_tail in H. apply (inj pretty) in H. lia.
  - intros Hle. unfold Part0.chunk_names.
    change (map ?f ?l) with (f <$> l). rewrite list_lookup_fmap, lookup_seq_lt by lia.
    cbn [fmap option_fmap option_map]. replace (Z.of_nat (0 + Z.to_nat (m - 1)) + 1) with m by lia.
    done.
Qed.

Lemma chunk_names_distinct_witness :
  (Script_chunkPath "files/notes.txt" 1 = Script_chunkPath "files/notes.txt" 1 -> 1 = 1)
  /\ Part0.chunk_names "notes.txt" 2 !! 0%nat = Some "notes.txt.part1.gz"%string.
Proof.
  destruct (chunk_names_distinct "files/notes.txt" 1 1) as (_ & H & _); [lia|lia|].
  destruct (chunk_names_distinct "notes.txt" 1 2) as (_ & _ & _ & _ & _ & Hlook); [lia|lia|].
  split; [exact H|]. apply Hlook. lia.
Defined.

(** ** Reassembly *)

(** X3. [combineChunks] never runs out of its buffer, whatever the chunks
    are: the result is their concatenation in order, its size is the sum
    of their sizes, empty chunks add nothing, and combining two runs of
    chunks one after the other is combining each and appending. *)
Theorem combineChunks_total (chunks more : list Uint8Array) :
  combineChunks chunks = Some (concat chunks)
  /\ blob_size (concat chunks) = foldl (fun sum c => sum + blob_size c) 0 chunks
  /\ combineChunks (filter (fun c => c <> []) chunks) = combineChunks chunks
  /\ combineChunks (chunks ++ more)
     = (combined ← combineChunks chunks; rest ← combineChunks more; Some (combined ++ rest)).
Proof.
  rewrite !combineChunks_concat. split; [done|]. split; [|split].
  - rewrite foldl_sizes. lia.
  - f_equal. induction chunks as [|c chunks IH]; [done|].
    rewrite filter_cons. destruct (decide (c <> [])) as [Hc|Hc].
    + cbn [concat]. by rewrite IH.
    + rewrite IH. destruct c; [done|]. by destruct Hc.
  - cbn. by rewrite concat_app.
Qed.

(** ** Categories *)

Lemma js_split_app_sep_last (sep : ascii) (s t : string) :
  exists p pre, js_split sep (s +:+ String sep t) = (p :: pre) ++ js_split sep t.
Proof.
  induction s as [|c s (p & pre & IH)].
  - exists EmptyString, []. rewrite string_app_nil_l. cbn [js_split]. by rewrite Ascii.eqb_refl.
  - rewrite string_app_cons. cbn [js_split]. rewrite IH.
    destruct (Ascii.eqb c sep); [by exists EmptyString, (p :: pre)|].
    by exists (String c p), pre.
Qed.

(** The extension of [<stem>.<ext>], for an [ext] without a dot. *)
Lemma extension_of_stem (stem ext : string) :
  occurs "." ext = false -> extension_of (stem +:+ "." +:+ ext) = toLowerCase ext.
Proof.
  intros Hdot. unfold extension_of, js_pop.
  change ("." +:+ ext) with (String "." ext).
  destruct (js_split_app_sep_last "." stem ext) as (p & pre & ->).
  rewrite (js_split_absent _ _ Hdot), last_snoc. done.
Qed.

Lemma toLowerCase_idemp (s : string) : toLowerCase (toLowerCase s) = toLowerCase s.
Proof.
  induction s as [|c s IH]; [done|]. cbn [toLowerCase]. rewrite IH. f_equal.
  destruct c as [[] [] [] [] [] [] [] []]; vm_compute; reflexivity.
Qed.

Lemma lower_unit_dot (c : ascii) : Ascii.eqb (lower_unit c) "." = Ascii.eqb c ".".
Proof. destruct c as [[] [] [] [] [] [] [] []]; vm_compute; reflexivity. Qed.

Lemma js_split_toLowerCase (s : string) :
  js_split "." (toLowerCase s) = toLowerCase <$> js_split "." s.
Proof.
  induction s as [|c s IH]; [done|]. cbn [toLowerCase js_split]. rewrite lower_unit_dot, IH.
  destruct (Ascii.eqb c "."); [done|]. by destruct (js_split "." s).
Qed.

Lemma extension_of_toLowerCase (filename : string) :
  extension_of (toLowerCase filename) = extension_of filename.
Proof.
  unfold extension_of, js_pop. rewrite js_split_toLowerCase, fmap_last.
  destruct (last (js_split "." filename)); cbn; [apply toLowerCase_idemp|done].
Qed.

(** X4. Only the text after the last dot decides the category, whatever
    its case: [<stem>.<ext>] has the category of the bare name [<ext>],
    two names whose last extensions differ in case only have the same
    category, and lowercasing a whole name does not change its category;
    so [backup.tar.GZ] is an archive, and a name that ends in a dot or
    starts with its only dot is looked up by what follows the dot. *)
Theorem detectFileCategory_last_extension (stem ext : string) :
  occurs "." ext = false ->
  detectFileCategory (stem +:+ "." +:+ ext) = detectFileCategory ext
  /\ (forall stem' ext' : string,
        occurs "." ext' = false -> toLowerCase ext' = toLowerCase ext ->
        detectFileCategory (stem' +:+ "." +:+ ext') = detectFileCategory (stem +:+ "." +:+ ext))
  /\ (forall filename : string,
        detectFileCategory (toLowerCase filename) = detectFileCategory filename)
  /\ detectFileCategory "backup.tar.GZ" = "archive"%string
  /\ detectFileCategory "photo." = "other"%string
  /\ detectFileCategory ".zip" = "game"%string.
Proof.
  intros Hdot.
  assert (Hext : forall s e, occurs "." e = false ->
            detectFileCategory (s +:+ "." +:+ e) = first_category FILE_CATEGORIES (toLowerCase e)).
  { intros s e He. unfold detectFileCategory, detectFileCategoryIn.
    by rewrite extension_of_stem. }
  split; [|split; [|split]].
  - rewrite (Hext _ _ Hdot). unfold detectFileCategory, detectFileCategoryIn, extension_of.
    by rewrite (js_split_absent _ _ Hdot).
  - intros stem' ext' Hdot' Hlow. by rewrite (Hext _ _ Hdot), (Hext _ _ Hdot'), Hlow.
  - intros filename. unfold detectFileCategory, detectFileCategoryIn.
    by rewrite extension_of_toLowerCase.
  - done.
Qed.

Lemma detectFileCategory_last_extension_witness :
  detectFileCategory ("backup.tar" +:+ "." +:+ "GZ") = detectFileCategory "GZ".
Proof.
  apply (detectFileCategory_last_extension "backup.tar" "GZ"). reflexivity.
Defined.

(** X5. The categories that [detectFileCategory] can return are the keys
    [game], [archive], [video], [image], [document], [executable] and
    [iso], and the fallback [other]: every one of them is the category of
    some name, and the key [apk] is never returned, each of its
    extensions being listed by [game], which is declared before it. *)
Theorem detectFileCategory_range (category : string) :
  (exists filename, detectFileCategory filename = category)
  <-> category ∈ ["game"; "archive"; "video"; "image"; "document"; "executable"; "iso";
                  "other"]%string.
Proof.
  split.
  - intros [filename <-]. unfold detectFileCategory, detectFileCategoryIn.
    destruct (first_category_first_match FILE_CATEGORIES (extension_of filename))
      as [(i & c & e & Hi & Hin & Hfirst & ->)|[_ ->]]; [|repeat constructor].
    do 7 (destruct i as [|i];
          [apply (inj Some), pair_equal_spec in Hi; destruct Hi as [<- <-];
           repeat constructor|]).
    destruct i as [|i]; [|done]. apply (inj Some), pair_equal_spec in Hi.
    destruct Hi as [<- <-].
    exfalso. apply (Hfirst 0%nat _ _ ltac:(lia) eq_refl).
    repeat (apply elem_of_cons in Hin as [->|Hin]); [..|by apply elem_of_nil in Hin];
      repeat constructor.
  - intros Hin.
    repeat (apply elem_of_cons in Hin as [->|Hin]).
    + by exists "a.exe"%string.
    + by exists "a.rar"%string.
    + by exists "a.mp4"%string.
    + by exists "a.png"%string.
    + by exists "a.pdf"%string.
    + by exists "a.sh"%string.
    + by exists "a.bin"%string.
    + by exists "a"%string.
    + by apply elem_of_nil in Hin.
Qed.

Lemma detectFileCategory_range_witness :
  (exists filename, detectFileCategory filename = "iso"%string)
  /\ ~ (exists filename, detectFileCategory filename = "apk"%string).
Proof.
  split.
  - apply (proj2 (detectFileCategory_range "iso")). repeat constructor.
  - intros H. apply (proj1 (detectFileCategory_range "apk")) in H.
    repeat (apply elem_of_cons in H as [H|H]; [discriminate H|]). by apply elem_of_nil in H.
Defined.

(** ** The statistics tab *)

Lemma stats_step_lookup (stats : gmap string (Z * Z)) (file : FileEntry) (c : string) :
  stats_step stats file !! c
  = if decide (c = category_or_other file) then
      if inherited_key c then stats !! c
      else Some (default 0 (fst <$> stats !! c) + 1,
                 default 0 (snd <$> stats !! c) + fe_compressedSize file)
    else stats !! c.
Proof.
  unfold stats_step. destruct (decide (c = category_or_other file)) as [->|Hne].
  - destruct (inherited_key (category_or_other file)); [done|].
    destruct (stats !! category_or_other file) as [[n s]|] eqn:Hlook.
    + by rewrite lookup_alter_eq, Hlook.
    + by rewrite lookup_alter_eq, lookup_insert_eq.
  - destruct (inherited_key (category_or_other file)); [done|].
    rewrite lookup_alter_ne by done.
    destruct (stats !! category_or_other file); [done|]. by rewrite lookup_insert_ne.
Qed.

Lemma foldl_sum_shift {A} (f : A -> Z) (l : list A) (a : Z) :
  foldl (fun sum x => sum + f x) a l = a + foldl (fun sum x => sum + f x) 0 l.
Proof.
  revert a. induction l as [|x l IH]; intros a; cbn [foldl]; [lia|].
  rewrite (IH (a + f x)), (IH (0 + f x)). lia.
Qed.

(** What [categoryStats] holds for a key. *)
Lemma categoryStats_lookup (files : list FileEntry) (c : string) :
  categoryStats files !! c
  = let mine := filter (fun f => category_or_other f = c) files in
    if inherited_key c then None
    else match mine with
         | [] => None
         | _ => Some (Z.of_nat (length mine), totalCompressed mine)
         end.
Proof.
  unfold categoryStats. cbv zeta.
  induction files as [|file files IH] using rev_ind.
  - cbn [foldl]. rewrite lookup_empty, filter_nil. by destruct (inherited_key c).
  - rewrite foldl_app. cbn [foldl]. rewrite stats_step_lookup, IH, filter_app.
    rewrite filter_cons, filter_nil.
    destruct (decide (c = category_or_other file)) as [->|Hne].
    + rewrite decide_True by done.
      destruct (inherited_key (category_or_other file)); [done|].
      set (mine := filter _ files). clearbody mine.
      destruct mine as [|f mine]; [done|].
      cbn [fmap option_fmap option_map default fst snd].
      rewrite length_app. unfold totalCompressed. rewrite foldl_app. cbn [foldl length].
      cbn [app]. unfold id. apply f_equal, pair_equal_spec. split; [lia|done].
    + rewrite decide_False by done. by rewrite app_nil_r.
Qed.

Lemma stats_total_insert (field : Z * Z -> Z) (stats : gmap string (Z * Z)) (k : string)
    (d : Z * Z) :
  stats_total field (<[k := d]> stats)
  = field d + stats_total field stats - default 0 (field <$> stats !! k).
Proof.
  assert (Hnew : forall (m : gmap string (Z * Z)) e, m !! k = None ->
            stats_total field (<[k := e]> m) = field e + stats_total field m).
  { intros m e Hm. unfold stats_total. rewrite map_fold_insert_L; [done| |done].
    intros. lia. }
  destruct (stats !! k) as [d0|] eqn:Hk; cbn [fmap option_fmap option_map default].
  - pose proof (Hnew (delete k stats) d (lookup_delete_eq stats k)) as Hd.
    pose proof (Hnew (delete k stats) d0 (lookup_delete_eq stats k)) as Hd0.
    rewrite insert_delete_eq in Hd. rewrite insert_delete_id in Hd0 by done.
    unfold id. lia.
  - rewrite Hnew by done. unfold id. lia.
Qed.

Lemma stats_step_insert (stats : gmap string (Z * Z)) (file : FileEntry) :
  inherited_key (category_or_other file) = false ->
  stats_step stats file
  = <[category_or_other file :=
        (default 0 (fst <$> stats !! category_or_other file) + 1,
         default 0 (snd <$> stats !! category_or_other file) + fe_compressedSize file)]> stats.
Proof.
  intros Hown. apply map_eq. intros c. rewrite stats_step_lookup.
  destruct (decide (c = category_or_other file)) as [->|Hne].
  - by rewrite Hown, lookup_insert_eq.
  - by rewrite lookup_insert_ne.
Qed.

(** X6. The statistics tab.  After the [forEach] of [updateStatistics] the
    [stats] object has an entry for a category exactly when some file has
    it (a file without category counting as [other]), with the number of
    these files and the sum of their compressed sizes; a category that
    names a property inherited from [Object.prototype] gets no entry; and
    when no file has such a category the counts add up to the number of
    files and the sizes to the total that [updateStorageInfo] shows. *)
Theorem categoryStats_counts (files : list FileEntry) (category : string) :
  let mine := filter (fun f => category_or_other f = category) files in
  categoryStats files !! category
  = (if inherited_key category then None
     else match mine with
          | [] => None
          | _ => Some (Z.of_nat (length mine), totalCompressed mine)
          end)
  /\ (Forall (fun f => inherited_key (category_or_other f) = false) files ->
      stats_total fst (categoryStats files) = Z.of_nat (length files)
      /\ stats_total snd (categoryStats files) = totalCompressed files).
Proof.
  split; [apply categoryStats_lookup|].
  unfold categoryStats, totalCompressed.
  induction files as [|file files IH] using rev_ind; intros Hown.
  - done.
  - apply Forall_app in Hown as [Hfiles Hfile]. rewrite Forall_singleton in Hfile.
    destruct (IH Hfiles) as [IHn IHs].
    rewrite !foldl_app. cbn [foldl]. rewrite stats_step_insert by done.
    rewrite !stats_total_insert, IHn, IHs, length_app. cbn [fst snd length].
    destruct (foldl stats_step ∅ files !! category_or_other file) as [[n s]|];
      cbn [fmap option_fmap option_map default fst snd]; unfold id; lia.
Qed.

Lemma categoryStats_counts_witness :
  stats_total fst (categoryStats [earlierEntry; earlierEntry]) = 2
  /\ stats_total snd (categoryStats [earlierEntry; earlierEntry]) = 800.
Proof.
  apply (categoryStats_counts [earlierEntry; earlierEntry] "document").
  repeat constructor.
Defined.

(** ** Runs on a network that delivers every request *)

Lemma quiet_after_refl (w : World) : network w = [] -> quiet_after w w.
Proof. by intros H. Qed.

Lemma quiet_after_trans (w1 w2 w3 : World) :
  quiet_after w1 w2 -> quiet_after w2 w3 -> quiet_after w1 w3.
Proof. unfold quiet_after. intros (?&?&?&?&?) (?&?&?&?&?). repeat split; congruence. Qed.

(** A request on a network that delivers is answered by the store. *)
Lemma fetch_quiet (rq : Request) (w : World) :
  network w = [] ->
  exists w',
    fetch rq w = (Returned (fst (fst (store_handle rq (remote w) (fresh w)))), w')
    /\ remote w' = snd (fst (store_handle rq (remote w) (fresh w)))
    /\ fresh w' = snd (store_handle rq (remote w) (fresh w))
    /\ appState w' = appState w
    /\ quiet_after w w'
    /\ trace w'
       = trace w ++ [Fetched rq (Some (fst (fst (store_handle rq (remote w) (fresh w)))))].
Proof.
  intros Hnet. unfold fetch, transport, deliver. rewrite Hnet.
  destruct (store_handle rq (remote w) (fresh w)) as [[rs st] t].
  eexists. split; [reflexivity|]. unfold quiet_after. cbn. by repeat split.
Qed.



(** The creation of an absent object. *)
Lemma store_handle_create (path : string) (message : option CommitMessage) (doc : Document)
    (st : Store) (t : Z) :
  st !! path = None ->
  store_handle {| rq_method := PUT; rq_path := path; rq_message := message;
                  rq_content := Some doc; rq_sha := None |} st t
  = (reply 201 None (Some t) None, <[path := (doc, t)]> st, t + 1).
Proof. intros H. unfold store_handle. cbn. by rewrite H. Qed.

(** The read of a present and of an absent object. *)
Lemma store_handle_get (path : string) (st : Store) (t : Z) :
  store_handle {| rq_method := GET; rq_path := path; rq_message := None;
                  rq_content := None; rq_sha := None |} st t
  = (match st !! path with
     | Some (doc, token) => reply 200 (Some doc) (Some token) None
     | None => reply 404 None None (Some "Not Found"%string)
     end, st, t).
Proof. unfold store_handle. cbn. by destruct (st !! path) as [[doc token]|]. Qed.

(** [uploadChunk] on a network that delivers, for a chunk whose path is
    free: the first attempt creates the object. *)
Lemma uploadChunk_quiet (fileFolder : string) (chunkData : Blob) (chunkIndex totalChunks : Z)
    (w : World) :
  network w = [] ->
  remote w !! Script_chunkPath fileFolder (chunkIndex + 1) = None ->
  exists w',
    Script.uploadChunk fileFolder chunkData chunkIndex totalChunks w = (Returned tt, w')
    /\ remote w' = <[Script_chunkPath fileFolder (chunkIndex + 1) := (DocChunk chunkData, fresh w)]>
                     (remote w)
    /\ fresh w' = fresh w + 1
    /\ appState w' = appState w
    /\ quiet_after w w'
    /\ exists rq rs, trace w' = trace w ++ [Fetched rq rs;
                                           Logged (LChunkDone (chunkIndex + 1) totalChunks) success].
Proof.
  intros Hnet Hfree. unfold Script.uploadChunk. cbn [Script.uploadChunk_loop Z.ltb Z.compare].
  unfold Script.uploadChunk_try. cbv zeta.
  match goal with |- context [fetch ?rq] =>
    destruct (fetch_quiet rq w Hnet) as (w1 & Hrun & Hst & Hfresh & Happ & Hq & Htr) end.
  fold (Script_chunkPath fileFolder (chunkIndex + 1)) in *.
  rewrite store_handle_create in Hrun, Hst, Hfresh, Htr by done. cbn [fst snd] in *.
  run. rewrite Hrun. cbn [status reply Z.eqb orb]. run.
  eexists. split; [reflexivity|]. world. unfold quiet_after in *. cbn.
  split; [done|]. split; [done|]. split; [done|]. split; [done|].
  eexists _, _. rewrite Htr, <- app_assoc. done.
Qed.



(** ** Download in the batched variant *)

Section ScriptDownload.

Variable ungzip : Uint8Array -> Error + list byte.
Variable document_text : Document -> Uint8Array.

Lemma read_only_trans (w1 w2 w3 : World) :
  read_only w1 w2 -> read_only w2 w3 -> read_only w1 w3.
Proof.
  intros (?&?&?&?) (?&?&?&?).
  split; [congruence|]. split; [congruence|]. split; [congruence|].
  by apply (quiet_after_trans w1 w2 w3).
Qed.

Lemma downloadChunk_quiet (folderPath : string) (chunkNum : Z) (w : World) :
  network w = [] ->
  exists w',
    Script.downloadChunk document_text folderPath chunkNum w
    = (match remote w !! Script_chunkPath folderPath chunkNum with
       | Some (doc, _) => Returned (Script.content_bytes document_text doc)
       | None => Thrown (ApiError ("Chunk " +:+ pretty chunkNum +:+ " not found"))
       end, w')
    /\ read_only w w'
    /\ exists rs, trace w'
                  = trace w ++ [Fetched {| rq_method := GET;
                                           rq_path := Script_chunkPath folderPath chunkNum;
                                           rq_message := None; rq_content := None;
                                           rq_sha := None |} rs].
Proof.
  intros Hnet. unfold Script.downloadChunk. cbv zeta.
  fold (Script_chunkPath folderPath chunkNum).
  match goal with |- context [fetch ?rq] =>
    destruct (fetch_quiet rq w Hnet) as (w1 & Hrun & Hst & Hfresh & Happ & Hq & Htr) end.
  rewrite store_handle_get in Hrun, Hst, Hfresh, Htr. cbn [fst snd] in *.
  run. rewrite Hrun. exists w1.
  split; [|split; [done|by eexists]].
  by destruct (remote w !! Script_chunkPath folderPath chunkNum) as [[doc token]|].
Qed.

Lemma run_promise_all_values_cons {A} (m : M A) (rest : list (M A)) (w : World) :
  promise_all_values (m :: rest) w
  = (match fst (m w), fst (promise_all_values rest (snd (m w))) with
     | Returned a, Returned l => Returned (a :: l)
     | Returned _, Thrown e => Thrown e
     | Returned _, OutOfFuel => OutOfFuel
     | Thrown e, _ => Thrown e
     | OutOfFuel, _ => OutOfFuel
     end, snd (promise_all_values rest (snd (m w)))).
Proof.
  cbn [promise_all_values]. destruct (m w) as [o w1]. cbn [fst snd].
  by destruct (promise_all_values rest w1).
Qed.

(** A batch of [downloadChunk] calls on a network that delivers: when
    every chunk of the batch is there the values are their bytes, and
    otherwise the batch throws; the store is only read. *)
Lemma promise_all_downloadChunk_quiet (folderPath : string) (ns : list Z) (w : World) :
  network w = [] ->
  exists w',
    snd (promise_all_values (Script.downloadChunk document_text folderPath <$> ns) w) = w'
    /\ read_only w w'
    /\ (Forall (fun n => is_Some (remote w !! Script_chunkPath folderPath n)) ns ->
        fst (promise_all_values (Script.downloadChunk document_text folderPath <$> ns) w)
        = Returned ((fun n => stored_bytes document_text (remote w)
                                (Script_chunkPath folderPath n)) <$> ns))
    /\ (~ Forall (fun n => is_Some (remote w !! Script_chunkPath folderPath n)) ns ->
        exists e, fst (promise_all_values (Script.downloadChunk document_text folderPath <$> ns) w)
                  = Thrown e).
Proof.
  revert w. induction ns as [|n ns IH]; intros w Hnet.
  - exists w. cbn. split; [done|]. split; [by repeat split|]. split; [done|].
    intros H. destruct H. constructor.
  - rewrite fmap_cons, run_promise_all_values_cons.
    destruct (downloadChunk_quiet folderPath n w Hnet) as (w1 & Hrun1 & Hro1 & _).
    rewrite Hrun1. cbn [fst snd].
    destruct (IH w1) as (w2 & Hsnd & Hro2 & Hall & Hsome); [apply Hro1|].
    exists w2. split; [done|]. split; [by apply (read_only_trans w w1 w2)|].
    destruct Hro1 as (Hst1 & _). rewrite Hst1 in Hall, Hsome.
    split.
    + intros Hpresent. apply Forall_cons in Hpresent as [[[doc token] Hn] Hns].
      rewrite Hn, (Hall Hns), fmap_cons.
      replace (stored_bytes document_text (remote w) (Script_chunkPath folderPath n))
        with (Script.content_bytes document_text doc)
        by (unfold stored_bytes; by rewrite Hn).
      done.
    + intros Hmissing.
      destruct (remote w !! Script_chunkPath folderPath n) as [[doc token]|] eqn:Hn;
        [|by eexists].
      destruct Hsome as [e ->]; [|by eexists].
      intros Hns. apply Hmissing. constructor; [by rewrite Hn|done].
Qed.

Lemma download_batch_seqZ (i k : Z) :
  (fun idx : nat => i + Z.of_nat idx + 1) <$> seq 0 (Z.to_nat k) = seqZ (i + 1) k.
Proof. unfold seqZ. apply list_fmap_ext. intros _ idx _. lia. Qed.

(** The loop of [downloadFile] on a network that delivers: when every
    chunk from [i] on is there the result is the bytes read at their
    paths, in order, after those already read; when one is missing the
    loop throws; the store is only read. *)
Lemma downloadFile_loop_quiet (fuel : nat) (i chunkCount : Z) (folderPath : string)
    (chunks : list Uint8Array) (w : World) :
  network w = [] -> 0 <= i -> chunkCount - i <= Z.of_nat fuel ->
  let run := Script.downloadFile_loop document_text fuel i chunkCount folderPath chunks w in
  read_only w (snd run)
  /\ ((forall n, i < n <= chunkCount -> is_Some (remote w !! Script_chunkPath folderPath n)) ->
      fst run
      = Returned (chunks ++ ((fun n => stored_bytes document_text (remote w)
                                         (Script_chunkPath folderPath n))
                             <$> seqZ (i + 1) (chunkCount - i))))
  /\ ((exists n, i < n <= chunkCount /\ remote w !! Script_chunkPath folderPath n = None) ->
      exists e, fst run = Thrown e).
Proof.
  revert i chunks w. induction fuel as [|fuel IH]; intros i chunks w Hnet Hi Hfuel run; subst run;
    cbn [Script.downloadFile_loop]; destruct (Z.ltb_spec i chunkCount) as [Hlt|Hge]; try lia.
  1,3: (rewrite run_ret; cbn [fst snd]; split; [by repeat split|]; split;
        [intros _; by rewrite seqZ_nil, app_nil_r by lia|intros (n & Hn & _); lia]).
  cbv zeta. unfold Script.PARALLEL_BATCH. rewrite download_batch_seqZ.
  set (k := Z.min 5 (chunkCount - i)).
  destruct (promise_all_downloadChunk_quiet folderPath (seqZ (i + 1) k) w Hnet)
    as (w1 & Hsnd1 & Hro1 & Hall1 & Hsome1).
  rewrite run_bind.
  destruct (promise_all_values _ w) as [o1 w1'] eqn:Hrun1. cbn [fst snd] in *. subst w1'.
  destruct (decide (Forall (fun n => is_Some (remote w !! Script_chunkPath folderPath n))
                      (seqZ (i + 1) k))) as [Hpresent|Hmissing].
  - rewrite (Hall1 Hpresent). run.
    match goal with |- context [Script.downloadFile_loop _ fuel _ _ _ ?acc ?w2] =>
      destruct (IH (i + 5) acc w2) as (Hro2 & Hall2 & Hsome2) end.
    { apply Hro1. }
    { lia. }
    { lia. }
    assert (Hst : remote (with_event
                    (Progress "uploadProgress"
                       (Pct (Z.of_nat (length (chunks ++
                          ((fun n => stored_bytes document_text (remote w)
                                       (Script_chunkPath folderPath n)) <$> seqZ (i + 1) k))))
                          chunkCount)) w1) = remote w) by (world; apply Hro1).
    rewrite Hst in Hall2, Hsome2.
    split; [|split].
    + eapply read_only_trans; [exact Hro1|].
      destruct Hro2 as (H1 & H2 & H3 & H4).
      split; [exact H1|]. split; [exact H2|]. split; [exact H3|exact H4].
    + intros Hall. rewrite Hall2 by (intros n Hn; apply Hall; lia).
      f_equal. rewrite <- app_assoc. f_equal. rewrite <- fmap_app. f_equal.
      destruct (Z.le_gt_cases 5 (chunkCount - i)).
      * subst k. rewrite Z.min_l by lia.
        replace (chunkCount - i) with (5 + (chunkCount - (i + 5))) by lia.
        rewrite seqZ_app by lia. do 2 f_equal; lia.
      * subst k. rewrite Z.min_r by lia. rewrite (seqZ_nil (i + 5 + 1)) by lia.
        by rewrite app_nil_r.
    + intros (n & Hn & Hnone). apply Hsome2. exists n. split; [|done].
      destruct (Z.le_gt_cases n (i + k)) as [Hin|Hout]; [|lia].
      rewrite Forall_seqZ in Hpresent. destruct (Hpresent n ltac:(lia)) as [d Hd]. congruence.
  - destruct (Hsome1 Hmissing) as [e ->]. run.
    split; [exact Hro1|]. split; [|by eexists].
    intros Hall. destruct Hmissing. apply Forall_seqZ. intros n Hn. apply Hall. lia.
Qed.

Lemma run_addLogText (message : string) (type : Severity) (w : World) :
  addLogText message type w = (Returned tt, with_event (Logged (LConsole message) type) w).
Proof. reflexivity. Qed.

#[local] Hint Rewrite run_addLogText : run.

Lemma run_showStatusText (message : string) (type : Severity) (w : World) :
  exists update, showStatusText message type w = (Returned tt, with_event (Dom update) w).
Proof. by eexists. Qed.

Lemma with_isDownloading_restore (s : AppState) :
  isDownloading s = false -> with_isDownloading false (with_isDownloading true s) = s.
Proof. destruct s. cbn. by intros ->. Qed.

(** The [try] block of [downloadFile] on a network that delivers. *)
Lemma downloadFile_try_quiet (fileName folderPath : string) (chunkCount : Z) (w : World) :
  network w = [] ->
  let run := Script.downloadFile_try ungzip document_text fileName folderPath chunkCount w in
  let bytes := concat ((fun n => stored_bytes document_text (remote w)
                                   (Script_chunkPath folderPath n)) <$> seqZ 1 chunkCount) in
  read_only w (snd run)
  /\ ((forall n, 0 < n <= chunkCount -> is_Some (remote w !! Script_chunkPath folderPath n)) ->
      fst run = match ungzip bytes with
                | inr decompressed => Returned decompressed
                | inl e => Thrown e
                end)
  /\ ((exists n, 0 < n <= chunkCount /\ remote w !! Script_chunkPath folderPath n = None) ->
      exists e, fst run = Thrown e).
Proof.
  intros Hnet run bytes. subst run. unfold Script.downloadFile_try.
  rewrite run_bind, run_addLogText. cbn beta iota. rewrite run_bind.
  set (w0 := with_event _ w).
  destruct (downloadFile_loop_quiet (Z.to_nat chunkCount) 0 chunkCount folderPath [] w0)
    as (Hro & Hall & Hsome); [done|lia|lia|].
  change (remote w0) with (remote w) in Hall, Hsome. rewrite Z.sub_0_r in Hall. cbn [app] in Hall.
  change (0 + 1) with 1 in Hall.
  assert (Hro0 : read_only w w0) by (by repeat split).
  destruct (Script.downloadFile_loop _ _ 0 _ _ _ w0) as [[chunks|e|] w1]; cbn [fst snd] in *.
  - rewrite run_bind, run_addLogText. cbn beta iota.
    rewrite combineChunks_concat. rewrite run_bind, run_ret. cbn beta iota.
    rewrite run_bind, run_addLogText. cbn beta iota. rewrite run_bind.
    split; [|split].
    + destruct (ungzip (concat chunks)); run.
      * eapply read_only_trans; [exact Hro0|]. exact Hro.
      * match goal with |- context [showStatusText ?m ?t ?x] =>
          destruct (run_showStatusText m t x) as [update ->] end.
        cbn [fst snd]. eapply read_only_trans; [exact Hro0|].
        destruct Hro as (H1 & H2 & H3 & H4).
        split; [exact H1|]. split; [exact H2|]. split; [exact H3|exact H4].
    + intros Hpresent. specialize (Hall Hpresent). injection Hall as ->. fold bytes.
      destruct (ungzip bytes); run; [done|].
      match goal with |- context [showStatusText ?m ?t ?x] =>
        destruct (run_showStatusText m t x) as [update ->] end.
      done.
    + intros Hmissing. destruct (Hsome Hmissing) as [e [=]].
  - run. split; [eapply read_only_trans; [exact Hro0|exact Hro]|].
    split; [|by eexists]. intros Hpresent. by specialize (Hall Hpresent).
  - run. split; [eapply read_only_trans; [exact Hro0|exact Hro]|].
    split; [intros Hpresent; by specialize (Hall Hpresent)|].
    intros Hmissing. by destruct (Hsome Hmissing).
Qed.

(** [downloadFile] on a network that delivers, with no download under
    way. *)
Lemma Script_downloadFile_quiet (fileName folderPath : string) (chunkCount : Z) (w : World) :
  network w = [] -> isDownloading (appState w) = false ->
  let bytes := concat ((fun n => stored_bytes document_text (remote w)
                                   (Script_chunkPath folderPath n)) <$> seqZ 1 chunkCount) in
  exists offered w',
    Script.downloadFile ungzip document_text fileName folderPath chunkCount w
    = (Returned offered, w')
    /\ read_only w w'
    /\ ((forall n, 0 < n <= chunkCount -> is_Some (remote w !! Script_chunkPath folderPath n)) ->
        offered = match ungzip bytes with
                  | inr decompressed => Some decompressed
                  | inl _ => None
                  end)
    /\ ((exists n, 0 < n <= chunkCount /\ remote w !! Script_chunkPath folderPath n = None) ->
        offered = None).
Proof.
  intros Hnet Hidle bytes. unfold Script.downloadFile.
  rewrite run_bind, run_gets. cbn beta iota. rewrite Hidle.
  rewrite run_bind, run_modify. cbn beta iota.
  rewrite run_try_finally, !run_try_catch, !run_bind.
  set (w0 := with_appState (with_isDownloading true) w).
  destruct (downloadFile_try_quiet fileName folderPath chunkCount w0 Hnet)
    as ((Hst & Hfresh & Happ & Hq) & Hall & Hsome).
  change (remote w0) with (remote w) in *. fold bytes in Hall.
  destruct Hq as (Q1 & Q2 & Q3 & Q4 & Q5).
  destruct (Script.downloadFile_try _ _ _ _ _ w0) as [[d|e|] w1] eqn:Htry; cbn [fst snd] in *.
  all: assert (Hback : with_isDownloading false (appState w1) = appState w)
         by (rewrite Happ; subst w0; cbn; by apply with_isDownloading_restore).
  - run. eexists _, _. split; [reflexivity|]. split.
    { unfold read_only, quiet_after. cbn.
      repeat split; first [exact Hst|exact Hfresh|exact Hback|exact Q1|exact Q2|exact Q3
                          |exact Q4|exact Q5]. }
    split.
    + intros Hpresent. specialize (Hall Hpresent).
      destruct (ungzip bytes); [done|by injection Hall as ->].
    + intros Hmissing. destruct (Hsome Hmissing) as [e [=]].
  - run.
    match goal with |- context [showStatusText ?m ?t ?x] =>
      destruct (run_showStatusText m t x) as [update ->] end.
    run. eexists _, _. split; [reflexivity|]. split.
    { unfold read_only, quiet_after. cbn.
      repeat split; first [exact Hst|exact Hfresh|exact Hback|exact Q1|exact Q2|exact Q3
                          |exact Q4|exact Q5]. }
    split; [|done].
    intros Hpresent. specialize (Hall Hpresent). by destruct (ungzip bytes).
  - exfalso.
    destruct (decide (Forall (fun n => is_Some (remote w !! Script_chunkPath folderPath n))
                        (seqZ 1 chunkCount))) as [Hheld|Hnot].
    + rewrite Forall_forall in Hheld.
      assert (Hpresent : forall n, 0 < n <= chunkCount ->
                is_Some (remote w !! Script_chunkPath folderPath n)).
      { intros n Hn. apply Hheld, elem_of_seqZ. lia. }
      specialize (Hall Hpresent). by destruct (ungzip bytes).
    + apply not_Forall_Exists in Hnot; [|apply _].
      apply Exists_exists in Hnot as (n & Hn & Hnone). apply elem_of_seqZ in Hn.
      destruct Hsome as [e [=]]. exists n. split; [lia|]. by apply eq_None_not_Some.
Qed.

(** X7. Download in the batched variant, on a network that delivers every
    request and with no download under way: the store and the application
    state are left as they were; when the store holds an object at the
    path of every chunk from 1 to [chunkCount], the blob offered to the
    user is what [ungzip] makes of the bytes read at these paths, in the
    order of the chunk numbers, and none is offered when [ungzip] throws;
    when an object is missing no blob is offered. *)
Theorem downloadFile_reads_chunks (fileName folderPath : string) (chunkCount : Z) (w : World) :
  network w = [] -> isDownloading (appState w) = false ->
  let run := Script.downloadFile ungzip document_text fileName folderPath chunkCount w in
  let bytes := concat ((fun n => stored_bytes document_text (remote w)
                                   (Script_chunkPath folderPath n)) <$> seqZ 1 chunkCount) in
  remote (snd run) = remote w
  /\ appState (snd run) = appState w
  /\ ((forall n, 0 < n <= chunkCount -> is_Some (remote w !! Script_chunkPath folderPath n)) ->
      fst run = Returned (match ungzip bytes with
                          | inr decompressed => Some decompressed
                          | inl _ => None
                          end))
  /\ ((exists n, 0 < n <= chunkCount /\ remote w !! Script_chunkPath folderPath n = None) ->
      fst run = Returned None).
Proof.
  intros Hnet Hidle run bytes. subst run.
  destruct (Script_downloadFile_quiet fileName folderPath chunkCount w Hnet Hidle)
    as (offered & w' & Hrun & (Hst & _ & Happ & _) & Hall & Hsome).
  rewrite Hrun. cbn [fst snd]. split; [exact Hst|]. split; [exact Happ|]. split.
  - intros Hpresent. f_equal. by apply Hall.
  - intros Hmissing. f_equal. by apply Hsome.
Qed.

End ScriptDownload.

Lemma downloadFile_reads_chunks_witness :
  let w := sampleWorld [] sampleChunkStore [] in
  let run := Script.downloadFile sampleUngzip sampleText "notes.txt" "files/notes.txt" 1 w in
  let bytes := concat ((fun n => stored_bytes sampleText (remote w)
                                   (Script_chunkPath "files/notes.txt" n)) <$> seqZ 1 1) in
  fst run = Returned (match sampleUngzip bytes with
                      | inr decompressed => Some decompressed
                      | inl _ => None
                      end)
  /\ sampleUngzip bytes = inr (file_bytes sampleFile).
Proof.
  intros w run bytes. split; [|vm_compute; reflexivity].
  apply (downloadFile_reads_chunks sampleUngzip sampleText "notes.txt" "files/notes.txt" 1 w);
    [reflexivity|reflexivity|].
  intros n Hn. assert (n = 1) as -> by lia. vm_compute. eauto.
Defined.

(** ** The registry on a network that delivers *)

(** The write of an object under its current token, or of an absent one
    without a token. *)
Lemma store_handle_put_current (path : string) (message : option CommitMessage)
    (doc : Document) (st : Store) (t : Z) :
  store_handle {| rq_method := PUT; rq_path := path; rq_message := message;
                  rq_content := Some doc; rq_sha := snd <$> st !! path |} st t
  = (reply (match st !! path with Some _ => 200 | None => 201 end) None (Some t) None,
     <[path := (doc, t)]> st, t + 1).
Proof.
  unfold store_handle. cbn. destruct (st !! path) as [[old token]|]; cbn; [|done].
  by rewrite Z.eqb_refl.
Qed.

(** [updateRegistry] on a network that delivers: the write is accepted,
    and the store holds the in-memory registry. *)
Lemma updateRegistry_quiet (fileName : string) (chunkCount originalSize compressedSize : Z)
    (category : string) (w : World) :
  network w = [] ->
  let entry := Script.newEntry fileName chunkCount originalSize compressedSize category (clock w) in
  let cache := with_lastUpdated (clock w)
                 (with_files (fun fs => fs ++ [entry]) (dataJson (appState w))) in
  exists w',
    Script.updateRegistry fileName chunkCount originalSize compressedSize category w
    = (Returned tt, w')
    /\ appState w' = with_dataJson (fun _ => cache) (appState w)
    /\ remote w' = <[Script.DATA_FILE := (DocRegistry cache, fresh w)]> (remote w)
    /\ fresh w' = fresh w + 1
    /\ quiet_after w w'.
Proof.
  intros Hnet entry cache. unfold Script.updateRegistry, files_push, touch_lastUpdated.
  rewrite !run_bind, run_Date_now. cbn beta iota.
  rewrite !run_bind, run_modify. cbn beta iota.
  rewrite !run_bind, run_Date_now. cbn beta iota.
  rewrite run_modify. cbn beta iota. rewrite run_bind, run_gets. cbn beta iota.
  match goal with |- context [try_catch _ _ ?x] => set (w0 := x) in * end.
  assert (Hcache : dataJson (appState w0) = cache) by done.
  rewrite Hcache.
  destruct (updateRegistry_network_phase (DocRegistry cache) w0)
    as (g & w1 & p & w2 & Htr1 & Htr2 & ->).
  unfold transport, deliver in Htr1. cbn [network] in Htr1. subst w0. cbn [network with_appState] in Htr1.
  rewrite Hnet in Htr1. unfold Script.registryGet in Htr1. rewrite store_handle_get in Htr1.
  injection Htr1 as <- <-.
  unfold transport, deliver in Htr2. cbn [network with_event with_store with_appState] in Htr2.
  rewrite Hnet in Htr2. cbn [remote fresh with_event with_store with_appState] in Htr2.
  assert (Hsha : token_of (Some match remote w !! Script.DATA_FILE with
                                 | Some (doc, token) => reply 200 (Some doc) (Some token) None
                                 | None => reply 404 None None (Some "Not Found"%string)
                                 end)
                 = snd <$> remote w !! Script.DATA_FILE).
  { by destruct (remote w !! Script.DATA_FILE) as [[doc token]|]. }
  rewrite Hsha in Htr2 |- *. unfold Script.registryPut in Htr2.
  rewrite store_handle_put_current in Htr2. injection Htr2 as <- <-.
  eexists. split; [reflexivity|]. unfold quiet_after. cbn. by rewrite Hnet.
Qed.





(** ** Upload, then download *)





(** [uploadDataJsonToGitHub] on a network that delivers: the write is
    accepted, and the store holds the in-memory registry. *)
Lemma uploadDataJsonToGitHub_quiet (w : World) :
  network w = [] ->
  exists w',
    Part0.uploadDataJsonToGitHub w = (Returned tt, w')
    /\ appState w' = appState w
    /\ remote w' = <[Part0.DATA_FILE := (DocRegistry (dataJson (appState w)), fresh w)]> (remote w)
    /\ fresh w' = fresh w + 1
    /\ quiet_after w w'.
Proof.
  intros Hnet. unfold Part0.uploadDataJsonToGitHub.
  rewrite run_bind, run_gets. cbn beta iota. rewrite run_try_catch, run_bind.
  destruct (fetch_quiet Part0.registryGet w Hnet) as (w1 & Hrun1 & Hst1 & Hfresh1 & Happ1 & Hq1 & _).
  unfold Part0.registryGet in Hrun1, Hst1, Hfresh1. rewrite store_handle_get in Hrun1, Hst1, Hfresh1.
  cbn [fst snd] in *. fold Part0.registryGet in Hrun1. rewrite Hrun1. cbn beta iota zeta.
  set (get := match remote w !! Part0.DATA_FILE with
              | Some (doc, token) => reply 200 (Some doc) (Some token) None
              | None => reply 404 None None (Some "Not Found"%string)
              end) in *.
  assert (Hsha : (if ok get then body_sha get else None) = snd <$> remote w1 !! Part0.DATA_FILE).
  { rewrite Hst1. subst get. by destruct (remote w !! Part0.DATA_FILE) as [[doc token]|]. }
  rewrite Hsha, run_bind.
  match goal with |- context [fetch ?rq ?x] =>
    destruct (fetch_quiet rq x) as (w2 & Hrun2 & Hst2 & Hfresh2 & Happ2 & Hq2 & _);
      [apply Hq1|] end.
  unfold Part0.registryPut in Hrun2, Hst2, Hfresh2.
  cbn [remote fresh with_event] in Hrun2, Hst2, Hfresh2.
  rewrite store_handle_put_current in Hrun2, Hst2, Hfresh2. cbn [fst snd] in *.
  fold (Part0.registryPut (DocRegistry (dataJson (appState w)))
          (snd <$> remote w1 !! Part0.DATA_FILE)) in Hrun2.
  rewrite Hrun2. cbn beta iota.
  assert (Hok : ok (reply (match remote w1 !! Part0.DATA_FILE with Some _ => 200 | None => 201 end)
                      None (Some (fresh w1)) None) = true).
  { by destruct (remote w1 !! Part0.DATA_FILE). }
  rewrite Hok. cbn [negb]. run. eexists. split; [reflexivity|]. world.
  split; [by rewrite Happ2|]. split; [by rewrite Hst2, Hst1, Hfresh1|].
  split; [lia|]. apply (quiet_after_trans w w1); [done|].
  unfold quiet_after in *. world. done.
Qed.

(** [updateDataJson] on a network that delivers. *)
Lemma updateDataJson_quiet (filename : string) (chunkCount originalSize compressedSize : Z)
    (w : World) :
  network w = [] ->
  let entry := Part0.newEntry filename chunkCount originalSize compressedSize (clock w) in
  let cache := with_lastUpdated (clock w)
                 (with_files (fun fs => fs ++ [entry]) (dataJson (appState w))) in
  exists w',
    Part0.updateDataJson filename chunkCount originalSize compressedSize w = (Returned tt, w')
    /\ appState w' = with_dataJson (fun _ => cache) (appState w)
    /\ remote w' = <[Part0.DATA_FILE := (DocRegistry cache, fresh w)]> (remote w)
    /\ fresh w' = fresh w + 1
    /\ quiet_after w w'.
Proof.
  intros Hnet entry cache. unfold Part0.updateDataJson, files_push, touch_lastUpdated.
  rewrite run_try_catch.
  rewrite !run_bind, run_Date_now. cbn beta iota.
  rewrite !run_bind, run_modify. cbn beta iota.
  rewrite !run_bind, run_Date_now. cbn beta iota.
  rewrite run_modify. cbn beta iota. rewrite run_bind.
  match goal with |- context [Part0.uploadDataJsonToGitHub ?x] =>
    destruct (uploadDataJsonToGitHub_quiet x) as (w1 & Hrun & Happ & Hst & Hfresh & Hq);
      [done|] end.
  rewrite Hrun. run. eexists. split; [reflexivity|]. world.
  split; [by rewrite Happ|]. split; [by rewrite Hst|]. split; [done|].
  unfold quiet_after in *. world. done.
Qed.

(** X9. The registry append when every request is delivered, for a
    registry and a name of strings with code units below 256, which are
    the strings of this development and the ones [btoa] encodes (on a
    code unit above 255 [btoa] throws before any request, and nothing is
    stored): in both
    variants the write is accepted whether or not the registry was there
    (under the token that the read returned, or without one), so that the
    stored registry is then the in-memory registry, which is the former
    in-memory registry with the new entry appended; every other object of
    the store is left as it was. *)
Theorem registry_append_reaches_store (name : string)
    (chunkCount originalSize compressedSize : Z) (category : string) (w : World) :
  network w = [] ->
  (let w' := snd (Script.updateRegistry name chunkCount originalSize compressedSize category w) in
   remote_registry w' = Some (dataJson (appState w'))
   /\ cached_files w'
      = cached_files w
        ++ [Script.newEntry name chunkCount originalSize compressedSize category (clock w)]
   /\ (forall p, p <> Script.DATA_FILE -> remote w' !! p = remote w !! p)
   /\ network w' = [])
  /\ (let w' := snd (Part0.updateDataJson name chunkCount originalSize compressedSize w) in
      remote_registry w' = Some (dataJson (appState w'))
      /\ cached_files w'
         = cached_files w ++ [Part0.newEntry name chunkCount originalSize compressedSize (clock w)]
      /\ (forall p, p <> Part0.DATA_FILE -> remote w' !! p = remote w !! p)
      /\ network w' = []).
Proof.
  intros Hnet. split.
  - destruct (updateRegistry_quiet name chunkCount originalSize compressedSize category w Hnet)
      as (w' & Hrun & Happ & Hst & _ & Hq).
    rewrite Hrun. cbn [snd]. unfold remote_registry, cached_files.
    change "data.json"%string with Script.DATA_FILE. rewrite Hst, Happ, lookup_insert_eq.
    split; [done|]. split; [done|]. split; [|apply Hq].
    intros p Hp. by rewrite lookup_insert_ne.
  - destruct (updateDataJson_quiet name chunkCount originalSize compressedSize w Hnet)
      as (w' & Hrun & Happ & Hst & _ & Hq).
    rewrite Hrun. cbn [snd]. unfold remote_registry, cached_files.
    change "data.json"%string with Part0.DATA_FILE. rewrite Hst, Happ, lookup_insert_eq.
    split; [done|]. split; [done|]. split; [|apply Hq].
    intros p Hp. by rewrite lookup_insert_ne.
Qed.

Lemma registry_append_reaches_store_witness :
  let w := sampleWorld [earlierEntry] earlierStore [] in
  let w' := snd (Script.updateRegistry "notes.txt" 1 3 5 "document" w) in
  remote_registry w' = Some (dataJson (appState w'))
  /\ cached_files w' = cached_files w ++ [Script.newEntry "notes.txt" 1 3 5 "document" (clock w)].
Proof.
  intros w w'.
  destruct (registry_append_reaches_store "notes.txt" 1 3 5 "document" w eq_refl)
    as [(Hreg & Hfiles & _) _].
  split; [exact Hreg|exact Hfiles].
Defined.

(** ** Uploads into a store that already holds objects *)

(** A write without token at a path that holds an object is refused. *)
Lemma store_handle_taken (path : string) (message : option CommitMessage) (doc : Document)
    (st : Store) (t : Z) :
  is_Some (st !! path) ->
  store_handle {| rq_method := PUT; rq_path := path; rq_message := message;
                  rq_content := Some doc; rq_sha := None |} st t
  = (reply 409 None None (Some "Conflict"%string), st, t).
Proof. intros [[old token] H]. unfold store_handle. cbn. by rewrite H. Qed.

(** One attempt of [uploadChunk] on a network that delivers, at a path
    that holds an object: the attempt fails and the store is as it was. *)
Lemma uploadChunk_try_taken (fileFolder : string) (chunkData : Blob)
    (chunkIndex totalChunks : Z) (w : World) :
  network w = [] ->
  is_Some (remote w !! Script_chunkPath fileFolder (chunkIndex + 1)) ->
  exists w',
    Script.uploadChunk_try fileFolder chunkData chunkIndex totalChunks w
    = (Thrown (HttpError 409), w')
    /\ remote w' = remote w /\ fresh w' = fresh w /\ appState w' = appState w
    /\ network w' = [].
Proof.
  intros Hnet Htaken. unfold Script.uploadChunk_try. cbv zeta.
  match goal with |- context [fetch ?rq] =>
    destruct (fetch_quiet rq w Hnet) as (w1 & Hrun & Hst & Hfresh & Happ & Hq & _) end.
  fold (Script_chunkPath fileFolder (chunkIndex + 1)) in *.
  rewrite store_handle_taken in Hrun, Hst, Hfresh by done. cbn [fst snd] in *.
  run. rewrite Hrun. cbn [status reply Z.eqb orb]. run.
  eexists. split; [reflexivity|]. world. split; [done|]. split; [done|]. split; [done|].
  apply Hq.
Qed.

(** The loop of [uploadChunk] on a network that delivers, at a path that
    holds an object: every attempt is refused. *)
Lemma uploadChunk_loop_taken (fuel : nat) (attempt : Z) (fileFolder : string)
    (chunkData : Blob) (chunkIndex totalChunks : Z) (w : World) :
  0 <= attempt < 3 -> 3 - attempt <= Z.of_nat fuel ->
  network w = [] ->
  is_Some (remote w !! Script_chunkPath fileFolder (chunkIndex + 1)) ->
  exists w',
    Script.uploadChunk_loop fuel attempt fileFolder chunkData chunkIndex totalChunks w
    = (Thrown (ChunkFailed (chunkIndex + 1)), w')
    /\ remote w' = remote w /\ fresh w' = fresh w /\ appState w' = appState w
    /\ network w' = [].
Proof.
  revert attempt w. induction fuel as [|fuel IH]; intros attempt w Hatt Hfuel Hnet Htaken; [lia|].
  cbn [Script.uploadChunk_loop].
  destruct (Z.ltb_spec attempt 3) as [_|?]; [|lia].
  destruct (uploadChunk_try_taken fileFolder chunkData chunkIndex totalChunks w Hnet Htaken)
    as (w1 & Hrun1 & Hst1 & Hfresh1 & Happ1 & Hnet1).
  run. rewrite Hrun1. run.
  destruct (Z.ltb_spec (attempt + 1) 3) as [Hmore|Hlast]; run.
  - match goal with |- context [Script.uploadChunk_loop fuel _ _ _ _ _ ?w2] =>
      destruct (IH (attempt + 1) w2) as (w3 & Hrun3 & Hst3 & Hfresh3 & Happ3 & Hnet3);
        [lia|lia|done|by rewrite <- Hst1 in Htaken|] end.
    rewrite Hrun3. eexists. split; [reflexivity|]. world.
    split; [congruence|]. split; [congruence|]. split; [congruence|done].
  - eexists. split; [reflexivity|]. done.
Qed.

(** [uploadChunk] on a network that delivers: the chunk is created when
    its path is free, and otherwise the three attempts are refused, the
    store is as it was and the error of the chunk is thrown. *)
Lemma uploadChunk_quiet_any (fileFolder : string) (chunkData : Blob)
    (chunkIndex totalChunks : Z) (w : World) :
  network w = [] ->
  let path := Script_chunkPath fileFolder (chunkIndex + 1) in
  exists w',
    Script.uploadChunk fileFolder chunkData chunkIndex totalChunks w
    = (match remote w !! path with
       | None => Returned tt
       | Some _ => Thrown (ChunkFailed (chunkIndex + 1))
       end, w')
    /\ remote w' = match remote w !! path with
                   | None => <[path := (DocChunk chunkData, fresh w)]> (remote w)
                   | Some _ => remote w
                   end
    /\ appState w' = appState w
    /\ network w' = [].
Proof.
  intros Hnet path.
  destruct (remote w !! path) as [held|] eqn:Hpath.
  - destruct (uploadChunk_loop_taken 3 0 fileFolder chunkData chunkIndex totalChunks w)
      as (w' & Hrun & Hst & _ & Happ & Hnet'); [lia|lia|done|by eexists|].
    exists w'. by repeat split.
  - destruct (uploadChunk_quiet fileFolder chunkData chunkIndex totalChunks w Hnet Hpath)
      as (w' & Hrun & Hst & _ & Happ & Hq & _).
    exists w'. split; [done|]. split; [done|]. split; [done|]. apply Hq.
Qed.

(** A batch of [uploadChunk] calls on a network that delivers, whatever
    the store holds: the chunks whose paths are free are created, no
    object is replaced, and the batch returns exactly when all the paths
    were free. *)
Lemma promise_all_uploadChunk_quiet_any (fileFolder : string) (total : Z) (batch : list Blob)
    (base : Z) (w : World) :
  network w = [] -> 0 <= base ->
  exists o w',
    promise_all
      (imap (fun idx chunk => Script.uploadChunk fileFolder chunk (base + Z.of_nat idx) total)
         batch) w
    = (o, w')
    /\ network w' = [] /\ appState w' = appState w /\ remote w ⊆ remote w'
    /\ (forall p, (forall k : nat, (k < length batch)%nat ->
                     p <> Script_chunkPath fileFolder (base + 1 + Z.of_nat k)) ->
          remote w' !! p = remote w !! p)
    /\ ((forall k : nat, (k < length batch)%nat ->
           remote w !! Script_chunkPath fileFolder (base + 1 + Z.of_nat k) = None) ->
        o = Returned tt)
    /\ ((exists k : nat, (k < length batch)%nat
           /\ is_Some (remote w !! Script_chunkPath fileFolder (base + 1 + Z.of_nat k))) ->
        exists n, o = Thrown (ChunkFailed n)).
Proof.
  revert base w. induction batch as [|chunk batch IH]; intros base w Hnet Hbase.
  - exists (Returned tt), w. cbn [imap promise_all length]. rewrite run_ret.
    split; [done|]. split; [done|]. split; [done|]. split; [done|]. split; [done|].
    split; [done|]. intros (k & Hk & _). lia.
  - rewrite imap_cons, run_promise_all_cons, Z.add_0_r.
    destruct (uploadChunk_quiet_any fileFolder chunk base total w Hnet)
      as (w1 & Hrun1 & Hst1 & Happ1 & Hnet1).
    rewrite (imap_ext _ (fun idx chunk =>
               Script.uploadChunk fileFolder chunk (base + 1 + Z.of_nat idx) total))
      by (intros idx x _; unfold compose;
          replace (base + Z.of_nat (S idx)) with (base + 1 + Z.of_nat idx) by lia; done).
    destruct (IH (base + 1) w1 Hnet1) as (o2 & w2 & Hrun2 & Hnet2 & Happ2 & Hsub2 & Hfr2 & Hall2 & Hsome2);
      [lia|].
    rewrite Hrun1. cbn [fst snd]. rewrite Hrun2. cbn [fst snd].
    assert (Hother : forall p, p <> Script_chunkPath fileFolder (base + 1) ->
              remote w1 !! p = remote w !! p).
    { intros p Hp. rewrite Hst1.
      destruct (remote w !! Script_chunkPath fileFolder (base + 1)); [done|].
      by rewrite lookup_insert_ne. }
    assert (Hsub1 : remote w ⊆ remote w1).
    { rewrite Hst1.
      destruct (remote w !! Script_chunkPath fileFolder (base + 1)) eqn:Hp; [done|].
      by apply insert_subseteq. }
    assert (Hlater : forall k : nat,
              remote w1 !! Script_chunkPath fileFolder (base + 1 + 1 + Z.of_nat k)
              = remote w !! Script_chunkPath fileFolder (base + 1 + Z.of_nat (S k))).
    { intros k. replace (base + 1 + Z.of_nat (S k)) with (base + 1 + 1 + Z.of_nat k) by lia.
      apply Hother. intros Heq. apply Script_chunkPath_inj in Heq; lia. }
    eexists _, w2. split; [reflexivity|]. split; [done|]. split; [congruence|].
    split; [by etrans|]. split; [|split].
    + intros p Hp. rewrite Hfr2, Hother; [done| |].
      * specialize (Hp 0%nat). rewrite Z.add_0_r in Hp. apply Hp. cbn. lia.
      * intros k Hk. replace (base + 1 + 1 + Z.of_nat k) with (base + 1 + Z.of_nat (S k)) by lia.
        apply Hp. cbn. lia.
    + intros Hfree.
      pose proof (Hfree 0%nat ltac:(cbn; lia)) as H0. rewrite Z.add_0_r in H0. rewrite H0.
      apply Hall2. intros k Hk. rewrite Hlater. apply Hfree. cbn. lia.
    + intros (k & Hk & Htaken).
      destruct (remote w !! Script_chunkPath fileFolder (base + 1)) eqn:H0; [by eexists|].
      apply Hsome2. destruct k as [|k]; [rewrite Z.add_0_r, H0 in Htaken; by destruct Htaken|].
      exists k. split; [cbn in Hk; lia|]. by rewrite Hlater.
Qed.

(** Among finitely many paths, either all are free or one is taken. *)
Lemma free_or_taken (st : Store) (path : nat -> string) (len : nat) :
  (forall k : nat, (k < len)%nat -> st !! path k = None)
  \/ (exists k : nat, (k < len)%nat /\ is_Some (st !! path k)).
Proof.
  induction len as [|len [IH|(k & Hk & Htaken)]].
  - left. intros k Hk. lia.
  - destruct (st !! path len) as [d|] eqn:Hlast.
    + right. exists len. split; [lia|]. rewrite Hlast. by eexists.
    + left. intros k Hk. destruct (decide (k = len)) as [->|Hne]; [done|]. apply IH. lia.
  - right. exists k. split; [lia|done].
Qed.

(** The loop of [uploadChunksParallel] on a network that delivers,
    whatever the store holds. *)
Lemma uploadChunksParallel_loop_quiet_any (fuel : nat) (i : Z) (chunks : list Blob)
    (fileFolder : string) (w : World) :
  let total := Z.of_nat (length chunks) in
  network w = [] -> 0 <= i -> total - i <= Z.of_nat fuel ->
  exists o w',
    Script.uploadChunksParallel_loop fuel i chunks fileFolder w = (o, w')
    /\ network w' = [] /\ appState w' = appState w /\ remote w ⊆ remote w'
    /\ (forall p, (forall n, i < n <= total -> p <> Script_chunkPath fileFolder n) ->
          remote w' !! p = remote w !! p)
    /\ ((forall n, i < n <= total -> remote w !! Script_chunkPath fileFolder n = None) ->
        o = Returned tt)
    /\ ((exists n, i < n <= total /\ is_Some (remote w !! Script_chunkPath fileFolder n)) ->
        exists m, o = Thrown (ChunkFailed m)).
Proof.
  intros total. assert (Htotal : total = Z.of_nat (length chunks)) by done. clearbody total.
  revert i w. induction fuel as [|fuel IH]; intros i w Hnet Hi Hfuel;
    cbn [Script.uploadChunksParallel_loop]; rewrite <- ?Htotal;
    destruct (Z.ltb_spec i total) as [Hlt|Hge]; try lia.
  1,3: (exists (Returned tt), w; rewrite run_ret;
        split; [done|]; split; [done|]; split; [done|]; split; [done|]; split; [done|];
        split; [done|]; intros (n & Hn & _); lia).
  unfold Script.PARALLEL_BATCH.
  set (batch := js_slice chunks i (Z.min (i + 5) total)).
  assert (Hbatch : Z.of_nat (length batch) = Z.min 5 (total - i)).
  { subst batch. rewrite js_slice_inside by lia. rewrite length_take, length_drop. lia. }
  destruct (promise_all_uploadChunk_quiet_any fileFolder total batch i w Hnet Hi)
    as (o1 & w1 & Hrun1 & Hnet1 & Happ1 & Hsub1 & Hfr1 & Hall1 & Hsome1).
  run. rewrite Hrun1.
  destruct (free_or_taken (remote w) (fun k => Script_chunkPath fileFolder (i + 1 + Z.of_nat k))
              (length batch)) as [Hfree|Htaken].
  - rewrite (Hall1 Hfree). run.
    match goal with |- context [Script.uploadChunksParallel_loop fuel _ _ _ ?w2] =>
      destruct (IH (i + 5) w2)
        as (o3 & w3 & Hrun3 & Hnet3 & Happ3 & Hsub3 & Hfr3 & Hall3 & Hsome3); [done|lia|lia|] end.
    world. exists o3, w3. split; [done|]. split; [done|]. split; [congruence|].
    split; [by etrans|].
    assert (Hlater : forall n, i + 5 < n <= total ->
              remote w1 !! Script_chunkPath fileFolder n
              = remote w !! Script_chunkPath fileFolder n).
    { intros n Hn. apply Hfr1. intros k Hk Heq. apply Script_chunkPath_inj in Heq; lia. }
    split; [|split].
    + intros p Hp. rewrite Hfr3 by (intros n Hn; apply Hp; lia).
      apply Hfr1. intros k Hk. apply Hp. lia.
    + intros Hall. apply Hall3. intros n Hn. rewrite Hlater by done. apply Hall. lia.
    + intros (n & Hn & Htaken). apply Hsome3. exists n.
      destruct (Z.le_gt_cases n (i + 5)) as [Hin|Hout].
      * specialize (Hfree (Z.to_nat (n - i - 1)) ltac:(lia)).
        replace (i + 1 + Z.of_nat (Z.to_nat (n - i - 1))) with n in Hfree by lia.
        rewrite Hfree in Htaken. by destruct Htaken.
      * split; [lia|]. by rewrite Hlater by lia.
  - destruct (Hsome1 Htaken) as [m ->]. run.
    exists (Thrown (ChunkFailed m)), w1. split; [done|]. split; [done|]. split; [done|].
    split; [done|]. split; [|split; [|by eexists]].
    + intros p Hp. apply Hfr1. intros k Hk. apply Hp. lia.
    + intros Hall. destruct Htaken as (k & Hk & Hk').
      rewrite Hall in Hk' by lia. by destruct Hk'.
Qed.

(** A write without token replaces no object. *)
Lemma store_handle_create_subseteq (path : string) (message : option CommitMessage)
    (doc : Document) (st : Store) (t : Z) :
  st ⊆ snd (fst (store_handle {| rq_method := PUT; rq_path := path; rq_message := message;
                                  rq_content := Some doc; rq_sha := None |} st t)).
Proof.
  unfold store_handle. cbn. destruct (st !! path) as [[old token]|] eqn:Hpath; cbn; [done|].
  by apply insert_subseteq.
Qed.

Lemma saveMetadata_quiet_subseteq (fileFolder fileName : string)
    (chunkCount originalSize compressedSize : Z) (w : World) :
  network w = [] ->
  exists w',
    Script.saveMetadata fileFolder fileName chunkCount originalSize compressedSize w
    = (Returned tt, w')
    /\ appState w' = appState w /\ remote w ⊆ remote w' /\ quiet_after w w'.
Proof.
  intros Hnet. unfold Script.saveMetadata. rewrite run_bind, run_Date_now.
  cbn beta iota zeta. rewrite run_try_catch, run_bind.
  match goal with |- context [fetch ?rq w] =>
    destruct (fetch_quiet rq w Hnet) as (w1 & Hrun & Hst & _ & Happ & Hq & _) end.
  rewrite Hrun. run. eexists. split; [reflexivity|]. split; [done|]. split; [|done].
  world. rewrite Hst. apply store_handle_create_subseteq.
Qed.

(** The [try] block of [startUpload] on a network that delivers, whatever
    the store holds: no object other than the registry is replaced, and
    when the path of a chunk is taken the block throws the error of a
    chunk with the application state as it was. *)
Lemma Script_startUpload_try_quiet_any (file : File) (compressed : Blob) (chunks : list Blob)
    (w : World) :
  let fileFolder := Script.ASSETS_FOLDER +:+ "/" +:+ sanitize (file_name file) in
  network w = [] ->
  gzip w (file_bytes file) = Some compressed ->
  Script.createChunks compressed = Some chunks ->
  exists o w',
    Script.startUpload_try file w = (o, w')
    /\ network w' = []
    /\ (forall p d, p <> Script.DATA_FILE -> remote w !! p = Some d -> remote w' !! p = Some d)
    /\ ((exists n, 0 < n <= Z.of_nat (length chunks)
           /\ is_Some (remote w !! Script_chunkPath fileFolder n)) ->
        (exists m, o = Thrown (ChunkFailed m))
        /\ appState w' = appState w /\ remote w ⊆ remote w').
Proof.
  intros fileFolder Hnet Hgzip Hchunks.
  unfold Script.startUpload_try. run. rewrite run_compressFile. world. rewrite Hgzip.
  cbn beta iota zeta. run. rewrite Hchunks. run. fold fileFolder.
  match goal with |- context [Script.uploadChunksParallel chunks fileFolder ?x] =>
    set (w1 := x) in *;
    destruct (uploadChunksParallel_loop_quiet_any (length chunks) 0 chunks fileFolder w1)
      as (o2 & w2 & Hrun2 & Hnet2 & Happ2 & Hsub2 & _ & Hall2 & Hsome2); [done|lia|lia|] end.
  fold (Script.uploadChunksParallel chunks fileFolder) in Hrun2. rewrite Hrun2.
  change (remote w1) with (remote w) in *.
  destruct (free_or_taken (remote w) (fun k => Script_chunkPath fileFolder (0 + 1 + Z.of_nat k))
              (length chunks)) as [Hfree|Htaken].
  - rewrite Hall2 by (intros n Hn; specialize (Hfree (Z.to_nat (n - 1)) ltac:(lia));
                      by replace (0 + 1 + Z.of_nat (Z.to_nat (n - 1))) with n in Hfree by lia).
    run.
    match goal with |- context [Script.saveMetadata ?a ?b ?c ?d ?e ?x] =>
      destruct (saveMetadata_quiet_subseteq a b c d e x) as (w3 & Hrun3 & Happ3 & Hsub3 & Hq3);
        [done|] end.
    rewrite Hrun3. run.
    match goal with |- context [Script.updateRegistry ?a ?b ?c ?d ?e ?x] =>
      destruct (updateRegistry_quiet a b c d e x) as (w4 & Hrun4 & Happ4 & Hst4 & _ & Hq4);
        [apply Hq3|] end.
    rewrite Hrun4. run. eexists _, _. split; [reflexivity|]. world.
    split; [apply Hq4|]. split.
    + intros p d Hp Hd. rewrite Hst4, lookup_insert_ne by done. world.
      eapply lookup_weaken; [|exact Hsub3]. world. eapply lookup_weaken; [exact Hd|exact Hsub2].
    + intros (n & Hn & Hn'). specialize (Hfree (Z.to_nat (n - 1)) ltac:(lia)).
      replace (0 + 1 + Z.of_nat (Z.to_nat (n - 1))) with n in Hfree by lia.
      rewrite Hfree in Hn'. by destruct Hn'.
  - destruct Hsome2 as [m ->].
    { destruct Htaken as (k & Hk & Hk'). exists (0 + 1 + Z.of_nat k). split; [lia|done]. }
    run. eexists _, _. split; [reflexivity|]. split; [done|]. split.
    + intros p d _ Hd. eapply lookup_weaken; [exact Hd|exact Hsub2].
    + intros _. split; [by eexists|]. split; [by rewrite Happ2|done].
Qed.

(** X10. An upload replaces no object of the store but the registry.  In
    the batched variant, when every request is delivered, [startUpload]
    leaves every object that the store held at another path than
    [data.json] as it was; and when the path of one of the chunks already
    holds an object (the file was uploaded before under a name with the
    same folder), the upload is reported as failed with the error of a
    chunk, the in-memory registry is as before, and the store has lost
    nothing. *)
Theorem upload_never_overwrites (file : File) (compressed : Blob) (chunks : list Blob)
    (w : World) :
  let fileFolder := Script.ASSETS_FOLDER +:+ "/" +:+ sanitize (file_name file) in
  network w = [] ->
  selectedFile (appState w) = Some file ->
  isUploading (appState w) = false ->
  validateSettings w = (Returned true, w) ->
  gzip w (file_bytes file) = Some compressed ->
  Script.createChunks compressed = Some chunks ->
  let w' := snd (Script.startUpload w) in
  (forall p d, p <> Script.DATA_FILE -> remote w !! p = Some d -> remote w' !! p = Some d)
  /\ ((exists n, 0 < n <= Z.of_nat (length chunks)
         /\ is_Some (remote w !! Script_chunkPath fileFolder n)) ->
      dataJson (appState w') = dataJson (appState w)
      /\ remote w ⊆ remote w'
      /\ exists earlier m,
           trace w' = earlier ++ [Logged (LFailed (ChunkFailed m)) error;
                                  Status (SUploadFailed (ChunkFailed m)) error;
                                  Dom "uploadBtn.disabled = false"]).
Proof.
  intros fileFolder Hnet Hfile Hup Hvalid Hgzip Hchunks w'. subst w'.
  unfold Script.startUpload.
  rewrite run_bind, run_gets. cbn beta iota. rewrite Hup, Hfile.
  rewrite run_bind, Hvalid. cbn beta iota. cbn [negb].
  rewrite run_bind, run_modify. cbn beta iota.
  rewrite run_bind, run_emit. cbn beta iota. rewrite run_bind, run_emit. cbn beta iota.
  rewrite run_try_finally, !run_try_catch.
  match goal with |- context [Script.startUpload_try file ?x] => set (w0 := x) in * end.
  destruct (Script_startUpload_try_quiet_any file compressed chunks w0)
    as (o & w1 & Hrun & Hnet1 & Hkeep & Htaken); [done|done|done|].
  change (remote w0) with (remote w) in *. rewrite Hrun.
  split.
  - intros p d Hp Hd. specialize (Hkeep p d Hp Hd).
    destruct o as [[]|e|]; run; world; exact Hkeep.
  - intros Hsome. destruct (Htaken Hsome) as ([m ->] & Happ & Hsub). run. world.
    split; [by rewrite Happ|]. split; [done|]. exists (trace w1), m.
    by rewrite <- !app_assoc.
Qed.

Lemma upload_never_overwrites_witness :
  let w := sampleWorld [] sampleChunkStore [] in
  let w' := snd (Script.startUpload w) in
  dataJson (appState w') = dataJson (appState w)
  /\ remote w ⊆ remote w'
  /\ exists earlier m,
       trace w' = earlier ++ [Logged (LFailed (ChunkFailed m)) error;
                              Status (SUploadFailed (ChunkFailed m)) error;
                              Dom "uploadBtn.disabled = false"].
Proof.
  intros w w'.
  apply (upload_never_overwrites sampleFile (Byte.x1f :: Byte.x8b :: file_bytes sampleFile)
           [Byte.x1f :: Byte.x8b :: file_bytes sampleFile] w); try reflexivity.
  exists 1. split; [simpl; lia|]. vm_compute. eauto.
Defined.

(** ** Deletion and the store *)

Lemma delete_all_lookup (paths : list string) (st : Store) (p : string) :
  delete_all paths st !! p = if decide (p ∈ paths) then None else st !! p.
Proof.
  revert st. induction paths as [|q paths IH]; intros st; cbn [delete_all foldl].
  - rewrite decide_False; [done|]. apply not_elem_of_nil.
  - fold (delete_all paths (delete q st)). rewrite IH.
    destruct (decide (p ∈ paths)) as [Hin|Hnot].
    + rewrite decide_True; [done|]. by right.
    + destruct (decide (p = q)) as [->|Hne].
      * rewrite decide_True by left. apply lookup_delete_eq.
      * rewrite decide_False.
        { apply lookup_delete_ne. congruence. }
        rewrite elem_of_cons. by intros [?|?].
Qed.

Lemma delete_all_app (a b : list string) (st : Store) :
  delete_all (a ++ b) st = delete_all b (delete_all a st).
Proof. unfold delete_all. apply foldl_app. Qed.

(** A delete under the token that the store holds for the path. *)
Lemma store_handle_delete_current (path : string) (message : option CommitMessage)
    (st : Store) (t : Z) :
  store_handle {| rq_method := DELETE; rq_path := path; rq_message := message;
                  rq_content := None; rq_sha := snd <$> st !! path |} st t
  = (match st !! path with
     | Some _ => reply 200 None None None
     | None => reply 404 None None (Some "Not Found"%string)
     end, delete path st, t).
Proof.
  unfold store_handle. cbn.
  destruct (st !! path) as [[doc token]|] eqn:Hlook; cbn.
  - by rewrite Z.eqb_refl.
  - by rewrite delete_id.
Qed.

(** [deleteGitHubFile] on a network that delivers: the object at the path,
    if there is one, is gone. *)
Lemma deleteGitHubFile_quiet (filePath : string) (w : World) :
  network w = [] ->
  exists w',
    Script.deleteGitHubFile filePath w = (Returned tt, w')
    /\ remote w' = delete filePath (remote w)
    /\ fresh w' = fresh w
    /\ appState w' = appState w
    /\ quiet_after w w'.
Proof.
  intros Hnet. unfold Script.deleteGitHubFile. rewrite run_bind.
  match goal with |- context [fetch ?rq w] =>
    destruct (fetch_quiet rq w Hnet) as (w1 & Hrun1 & Hst1 & Hfresh1 & Happ1 & Hq1 & _) end.
  rewrite store_handle_get in Hrun1, Hst1, Hfresh1. cbn [fst snd] in *.
  rewrite Hrun1. cbn beta iota.
  destruct (remote w !! filePath) as [[doc token]|] eqn:Hlook.
  - replace (ok (reply 200 (Some doc) (Some token) None)) with true by reflexivity.
    cbn [negb]. rewrite run_bind.
    match goal with |- context [fetch ?rq w1] =>
      destruct (fetch_quiet rq w1) as (w2 & Hrun2 & Hst2 & Hfresh2 & Happ2 & Hq2 & _);
        [apply Hq1|] end.
    cbn [body_sha reply] in Hrun2, Hst2, Hfresh2.
    replace (Some token) with (snd <$> remote w1 !! filePath) in Hrun2, Hst2, Hfresh2
      by (by rewrite Hst1, Hlook).
    rewrite store_handle_delete_current in Hrun2, Hst2, Hfresh2. cbn [fst snd] in *.
    cbn [body_sha reply]. 
    replace (Some token) with (snd <$> remote w1 !! filePath) by (by rewrite Hst1, Hlook).
    rewrite Hrun2. run. eexists. split; [reflexivity|].
    split; [by rewrite Hst2, Hst1|]. split; [congruence|]. split; [congruence|].
    by apply (quiet_after_trans w w1).
  - replace (ok (reply 404 None None (Some "Not Found"%string))) with false by reflexivity.
    cbn [negb]. run. eexists. split; [reflexivity|].
    split; [by rewrite Hst1, delete_id|]. split; [done|]. split; done.
Qed.

Lemma Script_deleteChunks_loop_quiet (remaining : nat) (i : Z) (folderPath : string)
    (w : World) :
  network w = [] ->
  exists w',
    Script.deleteChunks_loop remaining i folderPath w = (Returned tt, w')
    /\ remote w' = delete_all (Script_chunkPath folderPath <$> seqZ i (Z.of_nat remaining))
                     (remote w)
    /\ fresh w' = fresh w
    /\ appState w' = appState w
    /\ quiet_after w w'.
Proof.
  revert i w. induction remaining as [|remaining IH]; intros i w Hnet.
  - cbn [Script.deleteChunks_loop]. run. eexists. split; [reflexivity|].
    split; [done|]. split; [done|]. split; [done|]. by apply quiet_after_refl.
  - cbn [Script.deleteChunks_loop]. cbn zeta. rewrite run_bind.
    destruct (deleteGitHubFile_quiet (Script_chunkPath folderPath i) w Hnet)
      as (w1 & Hrun1 & Hst1 & Hfresh1 & Happ1 & Hq1).
    unfold Script_chunkPath in Hrun1 at 1. rewrite Hrun1. cbn beta iota.
    destruct (IH (i + 1) w1) as (w2 & Hrun2 & Hst2 & Hfresh2 & Happ2 & Hq2); [apply Hq1|].
    rewrite Hrun2. eexists. split; [reflexivity|].
    split.
    { rewrite (seqZ_cons i) by lia.
      replace (Z.pred (Z.of_nat (S remaining))) with (Z.of_nat remaining) by lia.
      rewrite Hst2, Hst1. done. }
    split; [congruence|]. split; [congruence|]. by apply (quiet_after_trans w w1).
Qed.

Lemma metadata_path_not_registry (folderPath : string) :
  folderPath +:+ "/metadata.json" <> Script.DATA_FILE.
Proof.
  intros H. apply (f_equal String.length) in H. rewrite string_length_app in H.
  cbn [String.length Script.DATA_FILE] in H. lia.
Qed.

Lemma chunk_path_not_registry (folderPath : string) (n : Z) :
  Script_chunkPath folderPath n <> Script.DATA_FILE.
Proof.
  intros H. apply (f_equal String.length) in H. unfold Script_chunkPath in H.
  rewrite !string_length_app in H. cbn [String.length Script.DATA_FILE] in H. lia.
Qed.

(** A confirmed [deleteFile] on a network that delivers, for a name that
    the registry in memory has. *)
Lemma Script_deleteFile_quiet (fileName folderPath : string) (e : FileEntry) (w : World) :
  network w = [] ->
  userConfirms w = true ->
  files_find fileName w = (Returned (Some e), w) ->
  exists w',
    Script.deleteFile fileName folderPath w = (Returned tt, w')
    /\ (forall p, p <> Script.DATA_FILE ->
          remote w' !! p
          = delete_all (Script_chunkPath folderPath <$> seqZ 1 (fe_chunkCount e))
              (delete (folderPath +:+ "/metadata.json") (remote w)) !! p)
    /\ cached_files w' = filter (fun f => fe_name f <> fileName) (cached_files w)
                         ++ [Script.newEntry "" 0 0 0 "" (clock w)]
    /\ remote_registry w' = Some (dataJson (appState w'))
    /\ quiet_after w w'.
Proof.
  intros Hnet Hconfirm Hfind. unfold Script.deleteFile.
  rewrite run_bind, run_confirm, Hconfirm. cbn beta iota. cbn [negb].
  set (w0 := with_event (Confirmed true) w).
  rewrite run_try_catch, run_bind.
  destruct (deleteGitHubFile_quiet (folderPath +:+ "/metadata.json") w0 Hnet)
    as (w1 & Hrun1 & Hst1 & Hfresh1 & Happ1 & Hq1).
  rewrite Hrun1. cbn beta iota.
  rewrite run_files_find in Hfind. injection Hfind as Hfind.
  rewrite run_bind, run_files_find. cbn beta iota.
  replace (cached_files w1) with (cached_files w) by (unfold cached_files; by rewrite Happ1).
  rewrite Hfind. run.
  destruct (Script_deleteChunks_loop_quiet (Z.to_nat (fe_chunkCount e)) 1 folderPath w1)
    as (w2 & Hrun2 & Hst2 & Hfresh2 & Happ2 & Hq2); [apply Hq1|].
  rewrite Hrun2. cbn beta iota. rewrite run_bind, run_files_remove. cbn beta iota.
  rewrite run_bind.
  match goal with |- context [Script.updateRegistry _ _ _ _ _ ?x] => set (w3 := x) end.
  destruct (updateRegistry_quiet "" 0 0 0 "" w3) as (w4 & Hrun4 & Happ4 & Hst4 & _ & Hq4);
    [apply Hq2|].
  rewrite Hrun4. run. eexists. split; [reflexivity|]. world.
  assert (Hclock : clock w2 = clock w).
  { destruct Hq2 as (_ & _ & _ & _ & ->). by destruct Hq1 as (_ & _ & _ & _ & ->). }
  split.
  { intros p Hp. rewrite Hst4, lookup_insert_ne by done. subst w3. world.
    rewrite Hst2, Hst1. unfold seqZ. by rewrite Nat2Z.id. }
  split.
  { unfold cached_files. world. rewrite Happ4. subst w3. world. cbn.
    by rewrite Happ2, Happ1, Hclock. }
  split.
  { unfold remote_registry. world. change "data.json"%string with Script.DATA_FILE.
    rewrite Hst4, lookup_insert_eq, Happ4. done. }
  apply (quiet_after_trans w w1); [exact Hq1|].
  apply (quiet_after_trans w1 w2); [exact Hq2|].
  unfold quiet_after in *. subst w3. world. exact Hq4.
Qed.

(** X11. What a confirmed delete of the batched variant leaves in the
    store, when every request is delivered and the registry in memory has
    an entry of the given name: the metadata object of the folder and the
    chunk objects numbered 1 to the chunk count of the first such entry are
    gone, every other object but the registry is as it was, the entries of
    that name are removed from the registry in memory, which gains one
    entry with an empty name and no chunks (the one that the call
    [updateRegistry('', 0, 0, 0, '')] pushes), and the stored registry
    equals the one in memory. *)
Theorem delete_removes_stored_chunks (fileName folderPath : string) (e : FileEntry)
    (w : World) :
  network w = [] ->
  userConfirms w = true ->
  files_find fileName w = (Returned (Some e), w) ->
  let w' := snd (Script.deleteFile fileName folderPath w) in
  remote w' !! (folderPath +:+ "/metadata.json") = None
  /\ (forall n, 0 < n <= fe_chunkCount e -> remote w' !! Script_chunkPath folderPath n = None)
  /\ (forall p, p <> Script.DATA_FILE -> p <> folderPath +:+ "/metadata.json" ->
        (forall n, 0 < n <= fe_chunkCount e -> p <> Script_chunkPath folderPath n) ->
        remote w' !! p = remote w !! p)
  /\ cached_files w' = filter (fun f => fe_name f <> fileName) (cached_files w)
                       ++ [Script.newEntry "" 0 0 0 "" (clock w)]
  /\ remote_registry w' = Some (dataJson (appState w')).
Proof.
  intros Hnet Hconfirm Hfind w'. subst w'.
  destruct (Script_deleteFile_quiet fileName folderPath e w Hnet Hconfirm Hfind)
    as (w' & Hrun & Hstore & Hfiles & Hreg & _).
  rewrite Hrun. cbn [snd].
  split.
  { rewrite Hstore by apply metadata_path_not_registry. rewrite delete_all_lookup.
    destruct (decide _); [done|]. apply lookup_delete_eq. }
  split.
  { intros n Hn. rewrite Hstore by apply chunk_path_not_registry. rewrite delete_all_lookup.
    rewrite decide_True; [done|]. apply list_elem_of_fmap. exists n. split; [done|].
    apply elem_of_seqZ. lia. }
  split.
  { intros p Hp Hmeta Hchunks. rewrite Hstore by done. rewrite delete_all_lookup.
    rewrite decide_False.
    - apply lookup_delete_ne. congruence.
    - intros Hin. apply list_elem_of_fmap in Hin as (n & -> & Hn). apply elem_of_seqZ in Hn.
      apply (Hchunks n); [lia|done]. }
  split; [exact Hfiles|exact Hreg].
Qed.

Lemma delete_removes_stored_chunks_witness :
  let w := sampleWorld [earlierEntry] earlierChunkStore [] in
  let w' := snd (Script.deleteFile "report.pdf" "files/report.pdf" w) in
  remote w' !! Script_chunkPath "files/report.pdf" 1 = None
  /\ cached_files w' = [Script.newEntry "" 0 0 0 "" (clock w)].
Proof.
  intros w w'.
  destruct (delete_removes_stored_chunks "report.pdf" "files/report.pdf" earlierEntry w)
    as (_ & Hchunks & _ & Hfiles & _); [reflexivity..|].
  split; [apply (Hchunks 1); cbn; lia|exact Hfiles].
Defined.


#[local] Instance Part0_chunkPath_Inj (filename : string) :
  Inj (=) (=) (Part0_chunkPath filename).
Proof. intros m n. apply Part0_chunkPath_inj. Qed.









(** ** Download in the sequential variant *)

Section Part0Download.

Variable ungzip : Uint8Array -> Error + list byte.
Variable document_text : Document -> Uint8Array.
Variable parse_other : Document -> Error + Metadata.
Variable message_of : Error -> string.

Lemma read_only_refl (w : World) : network w = [] -> read_only w w.
Proof. intros H. split; [done|]. split; [done|]. split; [done|]. by apply quiet_after_refl. Qed.

Lemma fetch_read_only (path : string) (w : World) :
  network w = [] ->
  exists w',
    fetch (getRequest path) w
    = (Returned (match remote w !! path with
                 | Some (doc, token) => reply 200 (Some doc) (Some token) None
                 | None => reply 404 None None (Some "Not Found"%string)
                 end), w')
    /\ read_only w w'.
Proof.
  intros Hnet.
  destruct (fetch_quiet (getRequest path) w Hnet) as (w1 & Hrun & Hst & Hfresh & Happ & Hq & _).
  unfold getRequest in Hrun, Hst, Hfresh. rewrite store_handle_get in Hrun, Hst, Hfresh.
  cbn [fst snd] in *. exists w1. split; [exact Hrun|].
  split; [done|]. split; [done|]. split; [done|exact Hq].
Qed.

Lemma Part0_downloadChunks_loop_quiet (remaining : nat) (i : Z) (filename : string)
    (chunks : list Uint8Array) (w : World) :
  network w = [] ->
  let run := Part0.downloadChunks_loop document_text remaining i filename chunks w in
  read_only w (snd run)
  /\ fst run <> OutOfFuel
  /\ ((forall n, i <= n < i + Z.of_nat remaining ->
         is_Some (remote w !! Part0_chunkPath filename n)) ->
      fst run
      = Returned (chunks ++ ((fun n => stored_bytes document_text (remote w)
                                         (Part0_chunkPath filename n))
                             <$> seqZ i (Z.of_nat remaining))))
  /\ ((exists n, i <= n < i + Z.of_nat remaining
                 /\ remote w !! Part0_chunkPath filename n = None) ->
      exists e, fst run = Thrown e).
Proof.
  revert i chunks w. induction remaining as [|remaining IH]; intros i chunks w Hnet run;
    subst run; cbn [Part0.downloadChunks_loop].
  - run. cbn [fst snd]. split; [by apply read_only_refl|]. split; [done|]. split.
    + intros _. by rewrite app_nil_r.
    + intros (n & Hn & _). lia.
  - cbn zeta. rewrite run_bind.
    destruct (fetch_read_only (Part0_chunkPath filename i) w Hnet) as (w1 & Hrun1 & Hro1).
    unfold getRequest in Hrun1. unfold Part0_chunkPath in Hrun1 at 1.
    rewrite Hrun1. cbn beta iota.
    destruct (remote w !! Part0_chunkPath filename i) as [[doc token]|] eqn:Hi.
    + replace (ok (reply 200 (Some doc) (Some token) None)) with true by reflexivity.
      cbn [negb body_content reply]. run.
      destruct (IH (i + 1) (chunks ++ [Script.content_bytes document_text doc]) w1)
        as (Hro2 & Hfuel & Hall & Hsome); [apply Hro1|].
      assert (Hst1 : remote w1 = remote w) by apply Hro1.
      rewrite Hst1 in Hall, Hsome.
      split; [by apply (read_only_trans w w1)|]. split; [done|]. split.
      * intros Hpresent. rewrite Hall by (intros n Hn; apply Hpresent; lia).
        rewrite (seqZ_cons i) by lia.
        replace (Z.pred (Z.of_nat (S remaining))) with (Z.of_nat remaining) by lia.
        rewrite fmap_cons. cbn beta. unfold stored_bytes at 2. rewrite Hi.
        rewrite <- app_assoc. by replace (Z.succ i) with (i + 1) by lia.
      * intros (n & Hn & Hnone). apply Hsome. exists n. split; [|done].
        destruct (decide (n = i)) as [->|Hne]; [congruence|lia].
    + replace (ok (reply 404 None None (Some "Not Found"%string))) with false by reflexivity.
      cbn [negb]. run. cbn [fst snd]. split; [done|]. split; [done|]. split.
      * intros Hpresent. destruct (Hpresent i) as [held Hheld]; [lia|]. congruence.
      * intros _. by eexists.
Qed.

Lemma Part0_downloadFile_try_quiet (filename : string) (w : World) :
  network w = [] ->
  let run := Part0.downloadFile_try ungzip document_text parse_other filename w in
  let metaPath := Part0.ASSETS_FOLDER +:+ "/" +:+ filename +:+ ".meta.json" in
  read_only w (snd run)
  /\ fst run <> OutOfFuel
  /\ (libraryLoaded w = false -> fst run = Thrown CodecUnavailable)
  /\ (libraryLoaded w = true -> remote w !! metaPath = None ->
      fst run = Thrown (ApiError "Could not find metadata"))
  /\ (forall metadata token,
        libraryLoaded w = true ->
        remote w !! metaPath = Some (DocMetadata metadata, token) ->
        let bytes := concat ((fun n => stored_bytes document_text (remote w)
                                         (Part0_chunkPath filename n))
                             <$> seqZ 1 (md_chunkCount metadata)) in
        ((forall n, 0 < n <= md_chunkCount metadata ->
            is_Some (remote w !! Part0_chunkPath filename n)) ->
         fst run = match ungzip bytes with
                   | inr decompressed => Returned decompressed
                   | inl e => Thrown e
                   end)
        /\ ((exists n, 0 < n <= md_chunkCount metadata
                       /\ remote w !! Part0_chunkPath filename n = None) ->
            exists e, fst run = Thrown e)).
Proof.
  intros Hnet run metaPath. subst run. unfold Part0.downloadFile_try.
  unfold Part0.waitForCompressionLib. rewrite !run_bind, run_gets. cbn beta iota.
  destruct (libraryLoaded w) eqn:Hlib; cbn [negb]; run.
  2: { cbn [fst snd]. split; [by apply read_only_refl|]. split; [done|]. split; [done|].
       split; [done|]. intros metadata token Hl. discriminate Hl. }
  cbn zeta. fold metaPath.
  destruct (fetch_read_only metaPath w Hnet) as (w1 & Hrun1 & Hro1).
  unfold getRequest in Hrun1. rewrite Hrun1. cbn beta iota.
  destruct (remote w !! metaPath) as [[doc token]|] eqn:Hmeta.
  2: { replace (ok (reply 404 None None (Some "Not Found"%string))) with false by reflexivity.
       cbn [negb]. run. cbn [fst snd]. split; [done|]. split; [done|]. split; [done|].
       split; [done|]. intros metadata token _ Hm. discriminate Hm. }
  replace (ok (reply 200 (Some doc) (Some token) None)) with true by reflexivity.
  cbn [negb body_content reply]. run.
  assert (Hst1 : remote w1 = remote w) by apply Hro1.
  destruct (Part0.parse_metadata parse_other doc) as [e|metadata] eqn:Hparse; run.
  { cbn [fst snd]. split; [done|]. split; [done|]. split; [done|]. split; [done|].
    intros metadata token' _ Hm. injection Hm as -> _. cbn in Hparse. discriminate Hparse. }
  destruct (Part0_downloadChunks_loop_quiet (Z.to_nat (md_chunkCount metadata)) 1 filename [] w1)
    as (Hro2 & Hfuel & Hall & Hsome); [apply Hro1|].
  rewrite Hst1 in Hall, Hsome. cbn [app] in Hall.
  replace (seqZ 1 (Z.of_nat (Z.to_nat (md_chunkCount metadata))))
    with (seqZ 1 (md_chunkCount metadata)) in Hall by (unfold seqZ; by rewrite Nat2Z.id).
  assert (Hro : read_only w (snd (Part0.downloadChunks_loop document_text
                                    (Z.to_nat (md_chunkCount metadata)) 1 filename [] w1))).
  { by apply (read_only_trans w w1). }
  assert (Hsame : forall metadata' token', Some (doc, token) = Some (DocMetadata metadata', token') ->
            metadata' = metadata).
  { intros metadata' token' Hm. injection Hm as -> _. cbn in Hparse. congruence. }
  destruct (Part0.downloadChunks_loop _ _ 1 _ _ w1) as [[chunks|e|] w2]; cbn [fst snd] in *.
  - rewrite combineChunks_concat. run.
    split; [|split; [|split; [done|split; [done|]]]].
    + destruct (ungzip (concat chunks)); run; [done|].
      match goal with |- context [showStatusText ?m ?t ?x] =>
        destruct (run_showStatusText m t x) as [update ->] end.
      cbn [fst snd]. destruct Hro as (H1 & H2 & H3 & H4).
      split; [exact H1|]. split; [exact H2|]. split; [exact H3|exact H4].
    + destruct (ungzip (concat chunks)); run; [done|].
      match goal with |- context [showStatusText ?m ?t ?x] =>
        destruct (run_showStatusText m t x) as [update ->] end.
      done.
    + intros metadata' token' _ Hm. apply Hsame in Hm as ->. cbn zeta. split.
      * intros Hpresent.
        assert (Hchunks : forall n, 1 <= n < 1 + Z.of_nat (Z.to_nat (md_chunkCount metadata)) ->
                  is_Some (remote w !! Part0_chunkPath filename n)).
        { intros n Hn. apply Hpresent. lia. }
        specialize (Hall Hchunks). injection Hall as ->.
        destruct (ungzip _); run; [done|].
        match goal with |- context [showStatusText ?m ?t ?x] =>
          destruct (run_showStatusText m t x) as [update ->] end.
        done.
      * intros (n & Hn & Hnone). destruct Hsome as [e [=]]. exists n. split; [lia|done].
  - run. split; [done|]. split; [done|]. split; [done|]. split; [done|].
    intros metadata' token' _ Hm. apply Hsame in Hm as ->. cbn zeta. split; [|by eexists].
    intros Hpresent. discriminate Hall. intros n Hn. apply Hpresent. lia.
  - done.
Qed.

(** [downloadFile] on a network that delivers. *)
Lemma Part0_downloadFile_quiet (filename : string) (w : World) :
  network w = [] ->
  let metaPath := Part0.ASSETS_FOLDER +:+ "/" +:+ filename +:+ ".meta.json" in
  exists offered w',
    Part0.downloadFile ungzip document_text parse_other message_of filename w
    = (Returned offered, w')
    /\ read_only w w'
    /\ (libraryLoaded w = false \/ remote w !! metaPath = None -> offered = None)
    /\ (forall metadata token,
          libraryLoaded w = true ->
          remote w !! metaPath = Some (DocMetadata metadata, token) ->
          ((forall n, 0 < n <= md_chunkCount metadata ->
              is_Some (remote w !! Part0_chunkPath filename n)) ->
           offered = match ungzip (concat ((fun n => stored_bytes document_text (remote w)
                                                       (Part0_chunkPath filename n))
                                           <$> seqZ 1 (md_chunkCount metadata))) with
                     | inr decompressed => Some decompressed
                     | inl _ => None
                     end)
          /\ ((exists n, 0 < n <= md_chunkCount metadata
                         /\ remote w !! Part0_chunkPath filename n = None) ->
              offered = None)).
Proof.
  intros Hnet metaPath. unfold Part0.downloadFile.
  rewrite run_try_catch, run_bind.
  destruct (Part0_downloadFile_try_quiet filename w Hnet)
    as (Hro & Hfuel & Hnolib & Hnometa & Hmeta).
  fold metaPath in Hnometa, Hmeta.
  destruct (Part0.downloadFile_try _ _ _ _ w) as [[d|e|] w1] eqn:Htry; cbn [fst snd] in *.
  - run. eexists _, _. split; [reflexivity|]. split; [exact Hro|]. split.
    + intros [Hlib|Hnone].
      * by specialize (Hnolib Hlib).
      * destruct (libraryLoaded w);
          [by specialize (Hnometa eq_refl Hnone)|by specialize (Hnolib eq_refl)].
    + intros metadata token Hlib Hheld.
      destruct (Hmeta metadata token Hlib Hheld) as [Hall Hsome]. split.
      * intros Hpresent. specialize (Hall Hpresent).
        destruct (ungzip _); [done|by injection Hall as ->].
      * intros Hmissing. destruct (Hsome Hmissing) as [e [=]].
  - rewrite run_bind.
    match goal with |- context [showStatusText ?m ?t ?x] =>
      destruct (run_showStatusText m t x) as [update ->] end.
    run. eexists _, _. split; [reflexivity|]. split.
    { destruct Hro as (H1 & H2 & H3 & H4). split; [exact H1|]. split; [exact H2|].
      split; [exact H3|exact H4]. }
    split; [done|].
    intros metadata token Hlib Hheld.
    destruct (Hmeta metadata token Hlib Hheld) as [Hall Hsome].
    split; [|done]. intros Hpresent. specialize (Hall Hpresent). by destruct (ungzip _).
  - done.
Qed.

(** X13. Download in the sequential variant, on a network that delivers
    every request: the store and the application state are left as they
    were and the call always returns.  No blob is offered when no
    compression library has loaded or when the store holds no metadata
    object for the name.  When it holds one, the number of chunks read is
    the [chunkCount] of that object, whatever the registry says: if the
    store holds an object at the path of every chunk from 1 to that count,
    the blob offered is what [ungzip] makes of the bytes read at these
    paths in the order of the chunk numbers (none when [ungzip] throws),
    and if one of them is missing no blob is offered. *)
Theorem sequential_download_follows_metadata (filename : string) (w : World) :
  network w = [] ->
  let run := Part0.downloadFile ungzip document_text parse_other message_of filename w in
  let metaPath := Part0.ASSETS_FOLDER +:+ "/" +:+ filename +:+ ".meta.json" in
  (exists offered, fst run = Returned offered)
  /\ remote (snd run) = remote w
  /\ appState (snd run) = appState w
  /\ (libraryLoaded w = false \/ remote w !! metaPath = None -> fst run = Returned None)
  /\ (forall metadata token,
        libraryLoaded w = true ->
        remote w !! metaPath = Some (DocMetadata metadata, token) ->
        let bytes := concat ((fun n => stored_bytes document_text (remote w)
                                         (Part0_chunkPath filename n))
                             <$> seqZ 1 (md_chunkCount metadata)) in
        ((forall n, 0 < n <= md_chunkCount metadata ->
            is_Some (remote w !! Part0_chunkPath filename n)) ->
         fst run = Returned (match ungzip bytes with
                             | inr decompressed => Some decompressed
                             | inl _ => None
                             end))
        /\ ((exists n, 0 < n <= md_chunkCount metadata
                       /\ remote w !! Part0_chunkPath filename n = None) ->
            fst run = Returned None)).
Proof.
  intros Hnet run metaPath. subst run.
  destruct (Part0_downloadFile_quiet filename w Hnet)
    as (offered & w' & Hrun & (Hst & _ & Happ & _) & Hnone & Hmeta).
  fold metaPath in Hnone, Hmeta. rewrite Hrun. cbn [fst snd].
  split; [by exists offered|]. split; [exact Hst|]. split; [exact Happ|]. split.
  - intros Hcase. f_equal. by apply Hnone.
  - intros metadata token Hlib Hheld.
    destruct (Hmeta metadata token Hlib Hheld) as [Hall Hsome]. split.
    + intros Hpresent. f_equal. by apply Hall.
    + intros Hmissing. f_equal. by apply Hsome.
Qed.

End Part0Download.

Lemma sequential_download_follows_metadata_witness :
  let w := sampleWorld [sequentialEntry] sequentialStore [] in
  fst (Part0.downloadFile sampleUngzip sampleText (fun _ => inl CompressionFailed)
         (fun _ => "failed"%string) "notes.txt" w)
  = Returned (Some (file_bytes sampleFile)).
Proof.
  intros w.
  destruct (sequential_download_follows_metadata sampleUngzip sampleText
              (fun _ => inl CompressionFailed) (fun _ => "failed"%string) "notes.txt" w)
    as (_ & _ & _ & _ & Hmeta); [reflexivity|].
  destruct (Hmeta {| md_name := "notes.txt"; md_chunkCount := 1; md_originalSize := None;
                     md_compressedSize := 5; md_category := "document";
                     md_uploadDate := 500 |} 8) as [Hall _]; [reflexivity|reflexivity|].
  rewrite Hall; [reflexivity|].
  intros n Hn. assert (n = 1) as -> by (cbn in Hn; lia). vm_compute. eauto.
Defined.

(** ** Upload, then download, in the sequential variant *)









(** ** Upload, then delete *)







(** ** What an upload leaves of the application state *)

(** The [try] block of [startUpload], whatever the network does: when it
    returns the registry in memory has one more entry, for the file, and
    when it throws the application state is as it was. *)
Lemma Script_startUpload_try_state (file : File) (w : World) :
  let run := Script.startUpload_try file w in
  match fst run with
  | Returned _ =>
      exists entry t,
        fe_name entry = file_name file
        /\ appState (snd run)
           = with_dataJson (fun r => with_lastUpdated t (with_files (fun fs => fs ++ [entry]) r))
               (appState w)
  | Thrown _ => appState (snd run) = appState w
  | OutOfFuel => False
  end.
Proof.
  intros run. subst run. unfold Script.startUpload_try.
  run. rewrite run_compressFile. world.
  destruct (gzip w (file_bytes file)) as [compressed|]; [|done].
  cbn beta iota zeta. run.
  destruct (proj1 (createChunks_returns compressed)) as (chunks & -> & _).
  run.
  set (fileFolder := Script.ASSETS_FOLDER +:+ "/" +:+ sanitize (file_name file)).
  match goal with |- context [Script.uploadChunksParallel chunks fileFolder ?x] =>
    set (w1 := x) in *;
    destruct (uploadChunksParallel_loop_spec (length chunks) 0 chunks fileFolder w1)
      as (evsE & _ & HappE & (_ & HoutE) & _);
      [unfold Script.PARALLEL_BATCH; lia|lia|] end.
  fold (Script.uploadChunksParallel chunks fileFolder) in *.
  destruct (Script.uploadChunksParallel chunks fileFolder w1) as [[[]|eE|] wE];
    cbn [fst snd] in *; [| |done].
  - rewrite run_bind, run_addLog. cbn beta iota. rewrite run_bind.
    match goal with |- context [Script.saveMetadata ?a ?b ?c ?d ?e ?x] =>
      destruct (saveMetadata_run a b c d e x) as (HretM & HappM & _);
      destruct (Script.saveMetadata a b c d e x) as [oM wM] end.
    cbn [fst snd] in *. subst oM. cbn beta iota.
    rewrite run_bind, run_addLog. cbn beta iota. rewrite run_bind.
    match goal with |- context [Script.updateRegistry ?a ?b ?c ?d ?e ?x] =>
      destruct (updateRegistry_run a b c d e x) as (g & p & rest & HretR & HappR & _);
      destruct (Script.updateRegistry a b c d e x) as [oR wR] end.
    cbn [fst snd] in *. subst oR. run. world.
    eexists _, _. split; [|rewrite HappR; world; rewrite HappM; world; rewrite HappE;
                           subst w1; world; reflexivity].
    done.
  - by rewrite HappE.
Qed.

Lemma Part0_startUpload_try_state (file : File) (w : World) :
  let run := Part0.startUpload_try file w in
  match fst run with
  | Returned _ =>
      exists entry t,
        fe_name entry = file_name file
        /\ appState (snd run)
           = with_dataJson (fun r => with_lastUpdated t (with_files (fun fs => fs ++ [entry]) r))
               (appState w)
  | Thrown _ => appState (snd run) = appState w
  | OutOfFuel => False
  end.
Proof.
  intros run. subst run. unfold Part0.startUpload_try. run.
  match goal with |- context [Part0.compressFile file ?x] =>
    set (w0 := x) in *;
    destruct (Part0_run_compressFile file w0) as (evsC & _ & HoutC & HappC & _) end.
  destruct (Part0.compressFile file w0) as [[compressed|eC|] wC]; cbn [fst snd] in *;
    [|by rewrite HappC|done].
  run. unfold Part0.createChunks.
  destruct (proj2 (createChunks_returns compressed)) as (chunks & -> & _).
  run.
  match goal with |- context [Part0.uploadChunks chunks (file_name file) ?x] =>
    set (w1 := x) in *;
    destruct (uploadChunks_loop_spec (length chunks) 0 chunks (file_name file) w1)
      as (evsE & _ & HappE & (_ & HoutE) & _); [lia|lia|] end.
  fold (Part0.uploadChunks chunks (file_name file)) in *.
  destruct (Part0.uploadChunks chunks (file_name file) w1) as [[[]|eE|] wE];
    cbn [fst snd] in *; [| |done].
  - rewrite run_bind.
    match goal with |- context [Part0.saveFileMetadata ?a ?b ?c ?x] =>
      destruct (saveFileMetadata_run a b c x) as (HretM & HappM & _);
      destruct (Part0.saveFileMetadata a b c x) as [oM wM] end.
    cbn [fst snd] in *. subst oM. cbn beta iota. rewrite run_bind.
    match goal with |- context [Part0.updateDataJson ?a ?b ?c ?d ?x] =>
      destruct (updateDataJson_run a b c d x) as (g & p & HretR & HappR & _);
      destruct (Part0.updateDataJson a b c d x) as [oR wR] end.
    cbn [fst snd] in *. subst oR. run. world.
    eexists _, _. split; [|rewrite HappR, HappM, HappE; subst w1; world; rewrite HappC;
                           subst w0; world; reflexivity].
    done.
  - rewrite HappE. subst w1. world. by rewrite HappC.
Qed.


(** ** Sessions of user actions *)

Section SessionProofs.

Variable ungzip : Uint8Array -> Error + list byte.
Variable document_text : Document -> Uint8Array.
Variable parse_other : Document -> Error + Metadata.
Variable message_of : Error -> string.

#[local] Hint Rewrite run_addLogText : run.

(** A request changes nothing of the application state, whatever the
    network does. *)
Lemma fetch_state (rq : Request) (w : World) :
  appState (snd (fetch rq w)) = appState w /\ fst (fetch rq w) <> OutOfFuel.
Proof.
  destruct (fetch_run rq w) as (r & w1 & _ & -> & Happ & _ & _).
  cbn [fst snd]. world. split; [done|]. by destruct r.
Qed.

Lemma downloadChunk_state (folderPath : string) (chunkNum : Z) (w : World) :
  let run := Script.downloadChunk document_text folderPath chunkNum w in
  appState (snd run) = appState w /\ fst run <> OutOfFuel.
Proof.
  intros run. subst run. unfold Script.downloadChunk. cbv zeta. rewrite run_bind.
  match goal with |- context [fetch ?rq w] =>
    destruct (fetch_state rq w) as [Happ Hfuel]; destruct (fetch rq w) as [[rs|e|] w1] end;
    cbn [fst snd] in *; [|done|done].
  destruct (negb (ok rs)); run; [done|].
  by destruct (body_content rs); run.
Qed.

Lemma promise_all_downloadChunk_state (folderPath : string) (ns : list Z) (w : World) :
  let run := promise_all_values (Script.downloadChunk document_text folderPath <$> ns) w in
  appState (snd run) = appState w /\ fst run <> OutOfFuel.
Proof.
  revert w. induction ns as [|n ns IH]; intros w r; subst r; [by run|].
  rewrite fmap_cons, run_promise_all_values_cons. cbn [fst snd].
  destruct (downloadChunk_state folderPath n w) as [Happ1 Hfuel1].
  destruct (Script.downloadChunk document_text folderPath n w) as [o1 w1]. cbn [fst snd] in *.
  destruct (IH w1) as [Happ2 Hfuel2].
  destruct (promise_all_values _ w1) as [o2 w2]. cbn [fst snd] in *.
  split; [congruence|]. by destruct o1, o2.
Qed.

Lemma downloadFile_loop_state (fuel : nat) (i chunkCount : Z) (folderPath : string)
    (chunks : list Uint8Array) (w : World) :
  chunkCount - i <= Z.of_nat fuel ->
  let run := Script.downloadFile_loop document_text fuel i chunkCount folderPath chunks w in
  appState (snd run) = appState w /\ fst run <> OutOfFuel.
Proof.
  revert i chunks w. induction fuel as [|fuel IH]; intros i chunks w Hfuel r; subst r;
    cbn [Script.downloadFile_loop]; destruct (Z.ltb_spec i chunkCount) as [Hlt|Hge];
    try lia; try (by run).
  cbv zeta. rewrite run_bind.
  match goal with |- context [promise_all_values (_ <$> ?ns) w] =>
    destruct (promise_all_downloadChunk_state folderPath ns w) as [Happ1 Hfuel1];
    destruct (promise_all_values (Script.downloadChunk document_text folderPath <$> ns) w)
      as [[batch|e|] w1] end; cbn [fst snd] in *; [|done|done].
  run.
  match goal with |- context [Script.downloadFile_loop _ fuel ?j _ _ ?cs ?x] =>
    destruct (IH j cs x) as [Happ2 Hfuel2] end.
  { unfold Script.PARALLEL_BATCH. lia. }
  split; [by rewrite Happ2|done].
Qed.

Lemma downloadFile_try_state (fileName folderPath : string) (chunkCount : Z) (w : World) :
  let run := Script.downloadFile_try ungzip document_text fileName folderPath chunkCount w in
  appState (snd run) = appState w /\ fst run <> OutOfFuel.
Proof.
  intros r. subst r. unfold Script.downloadFile_try. run.
  match goal with |- context [Script.downloadFile_loop _ _ _ _ _ _ ?x] =>
    destruct (downloadFile_loop_state (Z.to_nat chunkCount) 0 chunkCount folderPath [] x)
      as [Happ1 Hfuel1]; [lia|];
    destruct (Script.downloadFile_loop document_text (Z.to_nat chunkCount) 0 chunkCount
                folderPath [] x) as [[chunks|e|] w1] end; cbn [fst snd] in *; [| |done].
  - run. rewrite combineChunks_concat. run.
    destruct (ungzip (concat chunks)) as [e|decompressed]; run; [done|].
    match goal with |- context [showStatusText ?m ?t ?x] =>
      destruct (run_showStatusText m t x) as [update ->] end.
    by run.
  - by run.
Qed.

Lemma Script_downloadFile_state (fileName folderPath : string) (chunkCount : Z) (w : World) :
  let run := Script.downloadFile ungzip document_text fileName folderPath chunkCount w in
  (exists offered, fst run = Returned offered) /\ appState (snd run) = appState w.
Proof.
  intros r. subst r. unfold Script.downloadFile.
  rewrite run_bind, run_gets. cbn beta iota.
  destruct (isDownloading (appState w)) eqn:Hidle; run; [by eauto|].
  rewrite run_try_finally, !run_try_catch, !run_bind.
  set (w0 := with_appState (with_isDownloading true) w).
  assert (Hback : forall x, appState x = appState w0 ->
            with_isDownloading false (appState x) = appState w).
  { intros x ->. subst w0. cbn. by apply with_isDownloading_restore. }
  destruct (downloadFile_try_state fileName folderPath chunkCount w0) as [Happ1 Hfuel1].
  destruct (Script.downloadFile_try _ _ _ _ _ w0) as [[d|e|] w1]; cbn [fst snd] in *;
    [| |done].
  - run. world. split; [by eauto|]. by apply Hback.
  - run.
    match goal with |- context [showStatusText ?m ?t ?x] =>
      destruct (run_showStatusText m t x) as [update ->] end.
    run. world. split; [by eauto|]. by apply Hback.
Qed.

Lemma Part0_downloadChunks_loop_state (remaining : nat) (i : Z) (filename : string)
    (chunks : list Uint8Array) (w : World) :
  let run := Part0.downloadChunks_loop document_text remaining i filename chunks w in
  appState (snd run) = appState w /\ fst run <> OutOfFuel.
Proof.
  revert i chunks w. induction remaining as [|remaining IH]; intros i chunks w r; subst r;
    cbn [Part0.downloadChunks_loop]; [by run|].
  cbv zeta. rewrite run_bind.
  match goal with |- context [fetch ?rq w] =>
    destruct (fetch_state rq w) as [Happ Hfuel]; destruct (fetch rq w) as [[rs|e|] w1] end;
    cbn [fst snd] in *; [|done|done].
  destruct (negb (ok rs)); run; [done|].
  destruct (body_content rs) as [doc|]; run; [|done].
  match goal with |- context [Part0.downloadChunks_loop _ remaining ?j _ ?cs w1] =>
    destruct (IH j cs w1) as [Happ2 Hfuel2] end.
  split; [by rewrite Happ2|done].
Qed.

Lemma Part0_downloadFile_state (filename : string) (w : World) :
  let run := Part0.downloadFile ungzip document_text parse_other message_of filename w in
  (exists offered, fst run = Returned offered) /\ appState (snd run) = appState w.
Proof.
  intros r. subst r. unfold Part0.downloadFile.
  assert (Htry : let run := Part0.downloadFile_try ungzip document_text parse_other filename w in
                 appState (snd run) = appState w /\ fst run <> OutOfFuel).
  { unfold Part0.downloadFile_try, Part0.waitForCompressionLib. run.
    destruct (libraryLoaded w); cbn [negb]; run; [|done].
    cbv zeta.
    match goal with |- context [fetch ?rq w] =>
      destruct (fetch_state rq w) as [Happ Hfuel]; destruct (fetch rq w) as [[rs|e|] w1] end;
      cbn [fst snd] in *; [|done|done].
    destruct (negb (ok rs)); run; [done|].
    destruct (body_content rs) as [doc|]; run; [|done].
    destruct (Part0.parse_metadata parse_other doc) as [e|metadata]; run; [done|].
    match goal with |- context [Part0.downloadChunks_loop _ ?n 1 _ [] w1] =>
      destruct (Part0_downloadChunks_loop_state n 1 filename [] w1) as [Happ2 Hfuel2];
      destruct (Part0.downloadChunks_loop document_text n 1 filename [] w1)
        as [[chunks|e|] w2] end; cbn [fst snd] in *; [| |done].
    - rewrite combineChunks_concat. run.
      destruct (ungzip (concat chunks)) as [e|decompressed]; run.
      { cbn [fst snd]. split; [congruence|done]. }
      match goal with |- context [showStatusText ?m ?t ?x] =>
        destruct (run_showStatusText m t x) as [update ->] end.
      run. cbn [fst snd]. world. split; [congruence|done].
    - run. cbn [fst snd]. split; [congruence|done]. }
  cbv zeta in Htry. destruct Htry as [Happ Hfuel].
  rewrite run_try_catch, run_bind.
  destruct (Part0.downloadFile_try _ _ _ _ w) as [[d|e|] w1]; cbn [fst snd] in *; [| |done].
  - run. by eauto.
  - rewrite run_bind.
    match goal with |- context [showStatusText ?m ?t ?x] =>
      destruct (run_showStatusText m t x) as [update ->] end.
    run. world. by eauto.
Qed.

(** [deleteFile] changes nothing of the application state but the
    registry, whatever the network does. *)
Lemma Script_deleteFile_state (fileName folderPath : string) (w : World) :
  let run := Script.deleteFile fileName folderPath w in
  fst run = Returned tt
  /\ exists registry, appState (snd run) = with_dataJson (fun _ => registry) (appState w).
Proof.
  intros r. subst r.
  assert (Hsame : exists registry, appState w = with_dataJson (fun _ => registry) (appState w)).
  { exists (dataJson (appState w)). by destruct (appState w). }
  unfold Script.deleteFile.
  rewrite run_bind, run_confirm. cbn beta iota.
  destruct (userConfirms w); cbn [negb]; run; [|done].
  set (w0 := with_event (Confirmed true) w).
  match goal with |- context [Script.deleteGitHubFile ?p w0] =>
    destruct (deleteGitHubFile_frame p w0) as (Happ1 & _ & Hfuel1 & _);
    destruct (Script.deleteGitHubFile p w0) as [[[]|e1|] w1] end; cbn [fst snd] in *;
    [| |done].
  2: { run. world. by rewrite Happ1. }
  rewrite run_bind, run_files_find. cbn beta iota.
  destruct (list_find _ _) as [[k e]|]; cbn [mbind option_bind snd]; rewrite run_bind; run.
  2: { world. by rewrite Happ1. }
  match goal with |- context [Script.deleteChunks_loop ?n 1 folderPath w1] =>
    destruct (Script_deleteChunks_loop_frame n 1 folderPath w1) as (Happ2 & _ & Hfuel2 & _);
    destruct (Script.deleteChunks_loop n 1 folderPath w1) as [[[]|e2|] w2] end;
    cbn [fst snd] in *; [| |done].
  2: { run. world. by rewrite Happ2, Happ1. }
  rewrite run_bind, run_files_remove. cbn beta iota. rewrite run_bind.
  match goal with |- context [Script.updateRegistry ?a ?b ?c ?d ?e ?x] =>
    destruct (updateRegistry_run a b c d e x) as (g & p & rest & HretR & HappR & _);
    destruct (Script.updateRegistry a b c d e x) as [oR wR] end.
  cbn [fst snd] in *. subst oR. run. world. split; [done|].
  rewrite HappR. world. rewrite Happ2, Happ1. subst w0. world.
  eexists. cbn. reflexivity.
Qed.

Lemma Part0_deleteFile_state (filename : string) (w : World) :
  let run := Part0.deleteFile filename w in
  fst run = Returned tt
  /\ exists registry, appState (snd run) = with_dataJson (fun _ => registry) (appState w).
Proof.
  intros r. subst r.
  assert (Hsame : exists registry, appState w = with_dataJson (fun _ => registry) (appState w)).
  { exists (dataJson (appState w)). by destruct (appState w). }
  unfold Part0.deleteFile.
  rewrite run_bind, run_confirm. cbn beta iota.
  destruct (userConfirms w); cbn [negb]; run; [|done].
  set (w0 := with_event (Confirmed true) w).
  rewrite run_files_find. cbn beta iota.
  destruct (list_find _ _) as [[k e]|]; cbn [mbind option_bind snd]; run.
  2: { world. done. }
  match goal with |- context [Part0.deleteChunks_loop ?n 1 filename w0] =>
    destruct (deleteChunks_loop_frame n 1 filename w0) as (Happ1 & _ & Hfuel1 & _);
    destruct (Part0.deleteChunks_loop n 1 filename w0) as [[[]|e1|] w1] end;
    cbn [fst snd] in *; [| |done].
  2: { run. world. by rewrite Happ1. }
  rewrite run_bind.
  match goal with |- context [Part0.deleteFileFromGitHub ?p w1] =>
    destruct (deleteFileFromGitHub_frame p w1) as (Happ2 & _ & Hfuel2 & _);
    destruct (Part0.deleteFileFromGitHub p w1) as [[[]|e2|] w2] end; cbn [fst snd] in *;
    [| |done].
  2: { run. world. by rewrite Happ2, Happ1. }
  rewrite run_bind, run_files_remove. cbn beta iota.
  rewrite run_bind, run_touch_lastUpdated. cbn beta iota. rewrite run_bind.
  match goal with |- context [Part0.uploadDataJsonToGitHub ?x] =>
    destruct (uploadDataJsonToGitHub_run x) as (g & p & HretR & HappR & _);
    destruct (Part0.uploadDataJsonToGitHub x) as [oR wR] end.
  cbn [fst snd] in *. subst oR. run. world. split; [done|].
  rewrite HappR. world. rewrite Happ2, Happ1. subst w0. world.
  eexists. cbn. reflexivity.
Qed.

Lemma idle_registry (limit : Z) (registry : Registry) (w w' : World) :
  appState w' = with_dataJson (fun _ => registry) (appState w) -> idle limit w -> idle limit w'.
Proof. unfold idle. intros ->. done. Qed.

Lemma idle_state (limit : Z) (w w' : World) :
  appState w' = appState w -> idle limit w -> idle limit w'.
Proof. unfold idle. intros ->. done. Qed.

Lemma Script_handleFileSelect_idle (files : list File) (w : World) :
  idle Script.MAX_FILE_SIZE w ->
  let run := Script.handleFileSelect files w in
  fst run = Returned tt /\ idle Script.MAX_FILE_SIZE (snd run).
Proof.
  intros Hidle r. subst r. unfold Script.handleFileSelect.
  destruct files as [|file files]; run; [done|].
  destruct (Z.ltb_spec Script.MAX_FILE_SIZE (file_size file)) as [Hbig|Hfits].
  - match goal with |- context [showStatusText ?m ?t ?x] =>
      destruct (run_showStatusText m t x) as [update ->] end.
    done.
  - run. cbn [fst snd]. split; [done|].
    destruct Hidle as (Hup & Hdown & _). unfold idle. cbn. done.
Qed.

Lemma Part0_handleFileSelect_idle (files : list File) (w : World) :
  idle Part0.MAX_FILE_SIZE w ->
  let run := Part0.handleFileSelect files w in
  fst run = Returned tt /\ idle Part0.MAX_FILE_SIZE (snd run).
Proof.
  intros Hidle r. subst r. unfold Part0.handleFileSelect.
  destruct files as [|file files]; run; [done|].
  destruct (Z.ltb_spec Part0.MAX_FILE_SIZE (file_size file)) as [Hbig|Hfits].
  - rewrite run_bind.
    match goal with |- context [showStatusText ?m ?t ?x] =>
      destruct (run_showStatusText m t x) as [update ->] end.
    run. done.
  - run. cbn [fst snd]. split; [done|].
    destruct Hidle as (Hup & Hdown & _). unfold idle. cbn. done.
Qed.

Lemma Script_startUpload_idle (limit : Z) (w : World) :
  idle limit w ->
  let run := Script.startUpload w in
  fst run = Returned tt /\ idle limit (snd run).
Proof.
  intros Hidle r. subst r. unfold Script.startUpload. run.
  pose proof Hidle as (Hup & Hdown & Hsel). rewrite Hup.
  destruct (selectedFile (appState w)) as [file|] eqn:Hfile; run; [|done].
  unfold validateSettings. run.
  match goal with |- context [negb (?a && ?b && ?c)] => destruct (a && b && c) end;
    cbn [negb]; run; world.
  2: { split; [done|]. unfold idle. world. by rewrite Hfile. }
  rewrite run_try_finally, !run_try_catch.
  match goal with |- context [Script.startUpload_try file ?x] =>
    set (w0 := x) in *;
    pose proof (Script_startUpload_try_state file w0) as Hstate end.
  cbn zeta in Hstate.
  destruct (Script.startUpload_try file w0) as [[[]|e|] wT]; cbn [fst snd] in *; [| |done];
    run; world; (split; [done|]); unfold idle; world.
  - destruct Hstate as (entry & t & Hname & ->). subst w0. cbn. by rewrite Hfile.
  - rewrite Hstate. subst w0. cbn. by rewrite Hfile.
Qed.

Lemma Part0_startUpload_idle (limit : Z) (w : World) :
  idle limit w ->
  let run := Part0.startUpload w in
  fst run = Returned tt /\ idle limit (snd run).
Proof.
  intros Hidle r. subst r. unfold Part0.startUpload. run.
  pose proof Hidle as (Hup & Hdown & Hsel).
  destruct (selectedFile (appState w)) as [file|] eqn:Hfile; run.
  2: { split; [done|]. unfold idle. world. by rewrite Hfile. }
  unfold validateSettings. run.
  match goal with |- context [negb (?a && ?b && ?c)] => destruct (a && b && c) end;
    cbn [negb]; run; world.
  2: { split; [done|]. unfold idle. world. by rewrite Hfile. }
  unfold Part0.waitForCompressionLib. run.
  destruct (libraryLoaded w); cbn [negb]; run; cbn [negb]; run; world.
  2: { split; [done|]. unfold idle. world. by rewrite Hfile. }
  rewrite run_try_finally, !run_try_catch.
  match goal with |- context [Part0.startUpload_try file ?x] =>
    set (w0 := x) in *;
    pose proof (Part0_startUpload_try_state file w0) as Hstate end.
  cbn zeta in Hstate.
  destruct (Part0.startUpload_try file w0) as [[[]|e|] wT]; cbn [fst snd] in *; [| |done];
    run; world; (split; [done|]); unfold idle; world.
  - destruct Hstate as (entry & t & Hname & ->). subst w0. cbn. by rewrite Hfile.
  - rewrite Hstate. subst w0. cbn. by rewrite Hfile.
Qed.

Lemma Script_perform_idle (action : ScriptAction) (w : World) :
  idle Script.MAX_FILE_SIZE w ->
  let run := Script_perform ungzip document_text action w in
  fst run = Returned tt /\ idle Script.MAX_FILE_SIZE (snd run).
Proof.
  intros Hidle r. subst r. destruct action as [files| |fileName folderPath chunkCount
                                                 |fileName folderPath]; cbn [Script_perform].
  - by apply Script_handleFileSelect_idle.
  - by apply Script_startUpload_idle.
  - rewrite run_bind.
    destruct (Script_downloadFile_state fileName folderPath chunkCount w) as [[offered Hret] Happ].
    destruct (Script.downloadFile _ _ _ _ _ w) as [o w1]. cbn [fst snd] in *. subst o.
    run. cbn [fst snd]. split; [done|]. by apply (idle_state _ w).
  - destruct (Script_deleteFile_state fileName folderPath w) as (Hret & registry & Happ).
    split; [done|]. by apply (idle_registry _ registry w).
Qed.

Lemma Part0_perform_idle (action : Part0Action) (w : World) :
  idle Part0.MAX_FILE_SIZE w ->
  let run := Part0_perform ungzip document_text parse_other message_of action w in
  fst run = Returned tt /\ idle Part0.MAX_FILE_SIZE (snd run).
Proof.
  intros Hidle r. subst r. destruct action as [files| |filename|filename]; cbn [Part0_perform].
  - by apply Part0_handleFileSelect_idle.
  - by apply Part0_startUpload_idle.
  - rewrite run_bind.
    destruct (Part0_downloadFile_state filename w) as [[offered Hret] Happ].
    destruct (Part0.downloadFile _ _ _ _ _ w) as [o w1]. cbn [fst snd] in *. subst o.
    run. cbn [fst snd]. split; [done|]. by apply (idle_state _ w).
  - destruct (Part0_deleteFile_state filename w) as (Hret & registry & Happ).
    split; [done|]. by apply (idle_registry _ registry w).
Qed.

Lemma session_idle {Action} (perform : Action -> M unit) (limit : Z) :
  (forall action w, idle limit w ->
     fst (perform action w) = Returned tt /\ idle limit (snd (perform action w))) ->
  forall actions w, idle limit w ->
    Forall (fun o => o = Returned tt) (fst (session perform actions w))
    /\ idle limit (snd (session perform actions w)).
Proof.
  intros Hstep actions. induction actions as [|action actions IH]; intros w Hidle;
    cbn [session]; [by split|].
  destruct (Hstep action w Hidle) as [Hret Hidle1].
  destruct (perform action w) as [o w1]. cbn [fst snd] in *.
  destruct (IH w1 Hidle1) as [Hrets Hidle2].
  destruct (session perform actions w1) as [os w2]. cbn [fst snd] in *.
  split; [by constructor|done].
Qed.

(** X17. Sessions stay idle and within the size limit.  Take any sequence
    of user actions (choosing files, upload, download, delete), each
    handler running after the one before it has settled, on any network
    and with any codec.  If at the start no transfer is marked as under
    way and the selected file, if any, has at most [MAX_FILE_SIZE] bytes,
    then in both variants every handler returns, and at the end
    [isUploading] and [isDownloading] are false and the selected file, if
    any, has at most [MAX_FILE_SIZE] bytes: a file over the limit is never
    the one that [startUpload] takes. *)
Theorem sessions_stay_idle (w : World) :
  (forall actions : list ScriptAction,
     idle Script.MAX_FILE_SIZE w ->
     let run := session (Script_perform ungzip document_text) actions w in
     Forall (fun o => o = Returned tt) (fst run) /\ idle Script.MAX_FILE_SIZE (snd run))
  /\ (forall actions : list Part0Action,
        idle Part0.MAX_FILE_SIZE w ->
        let run := session (Part0_perform ungzip document_text parse_other message_of)
                     actions w in
        Forall (fun o => o = Returned tt) (fst run) /\ idle Part0.MAX_FILE_SIZE (snd run)).
Proof.
  split.
  - intros actions Hidle r. subst r. apply session_idle; [|exact Hidle].
    intros action w1 Hidle1. by apply Script_perform_idle.
  - intros actions Hidle r. subst r. apply session_idle; [|exact Hidle].
    intros action w1 Hidle1. by apply Part0_perform_idle.
Qed.

End SessionProofs.

Lemma sessions_stay_idle_witness :
  let w := sampleWorld [earlierEntry] earlierChunkStore [Unreachable; Refuse 500] in
  let run := session (Script_perform sampleUngzip sampleText)
               [ScriptUpload; ScriptPick [sampleFile]; ScriptDownload "report.pdf" "files/report.pdf" 1;
                ScriptDelete "report.pdf" "files/report.pdf"] w in
  Forall (fun o => o = Returned tt) (fst run) /\ idle Script.MAX_FILE_SIZE (snd run).
Proof.
  intros w.
  destruct (sessions_stay_idle sampleUngzip sampleText (fun _ => inl CompressionFailed)
              (fun _ => "failed"%string) w) as [Hscript _].
  apply Hscript. split; [reflexivity|]. split; [reflexivity|]. vm_compute. discriminate.
Defined.

(** ** Deleting what the registry does not know, and refused deletes *)

(** X18. In the batched variant a confirmed [deleteFile] of a name that no
    entry of the registry in memory has is reported as failed, but it is
    not without effect: the metadata object of the folder is deleted
    first, and only then does the read of the chunk count of the missing
    entry throw.  When every request is delivered the store afterwards is
    the earlier one without [<folderPath>/metadata.json] (the chunks of
    the folder are kept), the application state is unchanged, and what
    happened after the confirmation is the requests of that one delete and
    the status 'Delete failed'. *)
Theorem delete_of_unregistered_name (fileName folderPath : string) (w : World) :
  network w = [] ->
  userConfirms w = true ->
  Forall (fun f => fe_name f <> fileName) (cached_files w) ->
  let w' := snd (Script.deleteFile fileName folderPath w) in
  remote w' = delete (folderPath +:+ "/metadata.json") (remote w)
  /\ appState w' = appState w
  /\ exists requests,
       Forall is_fetch requests
       /\ trace w' = trace w ++ Confirmed true :: requests
                             ++ [Status (SDeleteFailed None) error].
Proof.
  intros Hnet Hconfirm Hnone w'. subst w'. unfold Script.deleteFile.
  rewrite run_bind, run_confirm, Hconfirm. cbn beta iota. cbn [negb].
  set (w0 := with_event (Confirmed true) w).
  rewrite run_try_catch, run_bind.
  destruct (deleteGitHubFile_quiet (folderPath +:+ "/metadata.json") w0 Hnet)
    as (w1 & Hrun1 & Hst1 & _ & Happ1 & _).
  destruct (deleteGitHubFile_frame (folderPath +:+ "/metadata.json") w0)
    as (_ & _ & _ & requests & Htr1 & Hall1).
  rewrite Hrun1 in Htr1 |- *. cbn [fst snd] in Htr1. cbn beta iota.
  rewrite run_bind, run_files_find. cbn beta iota.
  replace (cached_files w1) with (cached_files w) by (unfold cached_files; by rewrite Happ1).
  assert (Hfind : list_find (fun f => fe_name f = fileName) (cached_files w) = None).
  { by apply list_find_None. }
  rewrite Hfind. cbn [mbind option_bind]. run. cbn [snd]. world.
  split; [exact Hst1|]. split; [exact Happ1|].
  exists requests. split; [exact Hall1|].
  rewrite Htr1. subst w0. world. by rewrite <- !app_assoc.
Qed.

Lemma delete_of_unregistered_name_witness :
  let w := sampleWorld [] earlierChunkStore [] in
  let w' := snd (Script.deleteFile "report.pdf" "files/report.pdf" w) in
  remote w' = delete ("files/report.pdf" +:+ "/metadata.json") (remote w)
  /\ appState w' = appState w.
Proof.
  intros w w'.
  destruct (delete_of_unregistered_name "report.pdf" "files/report.pdf" w)
    as (Hst & Happ & _); [reflexivity|reflexivity|apply Forall_nil_2|].
  split; [exact Hst|exact Happ].
Defined.

(** A request that the network refuses with an error status: the store is
    not reached. *)
Lemma refused_not_ok (st : Z) (c : option Document) (t : option Z) (m : option string) :
  ok (reply (if 400 <=? st then st else 500) c t m) = false.
Proof.
  unfold ok, reply. cbn [status]. apply andb_false_iff. right.
  destruct (Z.leb_spec 400 st); apply Z.leb_gt; lia.
Qed.

Lemma fetch_refused (rq : Request) (st : Z) (rest : list NetEvent) (w : World) :
  network w = Refuse st :: rest ->
  exists rs w',
    fetch rq w = (Returned rs, w')
    /\ ok rs = false
    /\ network w' = rest
    /\ remote w' = remote w /\ fresh w' = fresh w /\ appState w' = appState w
    /\ clock w' = clock w.
Proof.
  intros Hnet. unfold fetch, transport. rewrite Hnet.
  eexists _, _. split; [reflexivity|]. split; [apply refused_not_ok|]. by repeat split.
Qed.

Lemma deleteGitHubFile_refused (filePath : string) (st : Z) (rest : list NetEvent)
    (w : World) :
  network w = Refuse st :: rest ->
  exists w',
    Script.deleteGitHubFile filePath w = (Returned tt, w')
    /\ network w' = rest
    /\ remote w' = remote w /\ fresh w' = fresh w /\ appState w' = appState w
    /\ clock w' = clock w.
Proof.
  intros Hnet. unfold Script.deleteGitHubFile. rewrite run_bind.
  match goal with |- context [fetch ?rq w] =>
    destruct (fetch_refused rq st rest w Hnet)
      as (rs & w1 & Hrun & Hok & Hnet1 & Hst1 & Hfresh1 & Happ1 & Hclock1) end.
  rewrite Hrun. cbn beta iota. rewrite Hok. cbn [negb]. run.
  eexists. split; [reflexivity|]. by repeat split.
Qed.

Lemma Script_deleteChunks_loop_refused (remaining : nat) (i : Z) (folderPath : string)
    (st : Z) (rest : list NetEvent) (w : World) :
  network w = replicate remaining (Refuse st) ++ rest ->
  exists w',
    Script.deleteChunks_loop remaining i folderPath w = (Returned tt, w')
    /\ network w' = rest
    /\ remote w' = remote w /\ fresh w' = fresh w /\ appState w' = appState w
    /\ clock w' = clock w.
Proof.
  revert i w. induction remaining as [|remaining IH]; intros i w Hnet;
    cbn [Script.deleteChunks_loop].
  - run. eexists. split; [reflexivity|]. by repeat split.
  - cbn zeta. rewrite run_bind.
    match goal with |- context [Script.deleteGitHubFile ?p w] =>
      destruct (deleteGitHubFile_refused p st (replicate remaining (Refuse st) ++ rest) w Hnet)
        as (w1 & Hrun1 & Hnet1 & Hst1 & Hfresh1 & Happ1 & Hclock1) end.
    rewrite Hrun1. cbn beta iota.
    destruct (IH (i + 1) w1 Hnet1) as (w2 & Hrun2 & Hnet2 & Hst2 & Hfresh2 & Happ2 & Hclock2).
    rewrite Hrun2. eexists. split; [reflexivity|].
    split; [done|]. repeat split; congruence.
Qed.

Lemma updateRegistry_refused (fileName : string) (chunkCount originalSize compressedSize : Z)
    (category : string) (st : Z) (rest : list NetEvent) (w : World) :
  network w = Refuse st :: Refuse st :: rest ->
  let entry := Script.newEntry fileName chunkCount originalSize compressedSize category (clock w) in
  let cache := with_lastUpdated (clock w)
                 (with_files (fun fs => fs ++ [entry]) (dataJson (appState w))) in
  exists w',
    Script.updateRegistry fileName chunkCount originalSize compressedSize category w
    = (Returned tt, w')
    /\ network w' = rest
    /\ remote w' = remote w /\ fresh w' = fresh w
    /\ appState w' = with_dataJson (fun _ => cache) (appState w).
Proof.
  intros Hnet entry cache. unfold Script.updateRegistry.
  rewrite run_bind, run_Date_now. cbn beta iota zeta. fold entry.
  unfold files_push, touch_lastUpdated. run. world.
  match goal with |- context [fetch Script.registryGet ?x] =>
    destruct (fetch_refused Script.registryGet st (Refuse st :: rest) x Hnet)
      as (rs1 & w1 & Hrun1 & Hok1 & Hnet1 & Hst1 & Hfresh1 & Happ1 & Hclock1) end.
  rewrite Hrun1. cbn beta iota. rewrite Hok1. run.
  match goal with |- context [fetch ?rq w1] =>
    destruct (fetch_refused rq st rest w1 Hnet1)
      as (rs2 & w2 & Hrun2 & Hok2 & Hnet2 & Hst2 & Hfresh2 & Happ2 & Hclock2) end.
  rewrite Hrun2. run. eexists. split; [reflexivity|]. world.
  split; [done|]. split; [congruence|]. split; [congruence|].
  rewrite Happ2, Happ1. world. done.
Qed.

Lemma deleteFileFromGitHub_refused (filePath : string) (st : Z) (rest : list NetEvent)
    (w : World) :
  network w = Refuse st :: Refuse st :: rest ->
  exists w',
    Part0.deleteFileFromGitHub filePath w = (Thrown CouldNotDelete, w')
    /\ network w' = rest
    /\ remote w' = remote w /\ fresh w' = fresh w /\ appState w' = appState w.
Proof.
  intros Hnet. unfold Part0.deleteFileFromGitHub. rewrite run_bind.
  match goal with |- context [fetch ?rq w] =>
    destruct (fetch_refused rq st (Refuse st :: rest) w Hnet)
      as (rs1 & w1 & Hrun1 & Hok1 & Hnet1 & Hst1 & Hfresh1 & Happ1 & _) end.
  rewrite Hrun1. cbn beta iota. rewrite run_bind.
  match goal with |- context [fetch ?rq w1] =>
    destruct (fetch_refused rq st rest w1 Hnet1)
      as (rs2 & w2 & Hrun2 & Hok2 & Hnet2 & Hst2 & Hfresh2 & Happ2 & _) end.
  rewrite Hrun2. cbn beta iota. rewrite Hok2. cbn [negb]. run.
  eexists. split; [reflexivity|]. split; [done|]. repeat split; congruence.
Qed.

(** X19. A refused delete.  Let the network answer every request with an
    error status (such as 401, 403 or 500), so that nothing reaches the
    store, and let the user confirm the delete of a name that the registry
    in memory has.  In the batched variant [deleteFile] nevertheless
    reports the delete as done: the answers of the deletes and of the
    registry write are not looked at, the entries of that name leave the
    registry in memory (and the entry with the empty name is appended),
    while the store, its registry included, is exactly as before.  In the
    sequential variant the first refused delete makes [deleteFile] report
    'Delete failed: Could not delete file' and the application state and
    the store are as before. *)
Theorem refused_delete (fileName folderPath : string) (e : FileEntry) (st : Z)
    (rest : list NetEvent) (w : World) :
  userConfirms w = true ->
  files_find fileName w = (Returned (Some e), w) ->
  (network w = replicate (Z.to_nat (fe_chunkCount e) + 3) (Refuse st) ++ rest ->
   let w' := snd (Script.deleteFile fileName folderPath w) in
   remote w' = remote w
   /\ cached_files w' = filter (fun f => fe_name f <> fileName) (cached_files w)
                        ++ [Script.newEntry "" 0 0 0 "" (clock w)]
   /\ network w' = rest
   /\ exists earlier,
        trace w' = earlier ++ [Status (SDeleted fileName) success;
                               Spawned "loadUploadedFiles"])
  /\ (network w = Refuse st :: Refuse st :: rest ->
      let w' := snd (Part0.deleteFile fileName w) in
      remote w' = remote w
      /\ appState w' = appState w
      /\ network w' = rest
      /\ exists earlier,
           trace w' = earlier ++ [Status (SDeleteFailed (Some CouldNotDelete)) error]).
Proof.
  intros Hconfirm Hfind.
  rewrite run_files_find in Hfind. injection Hfind as Hfind. split.
  - intros Hnet w'. subst w'. unfold Script.deleteFile.
    rewrite run_bind, run_confirm, Hconfirm. cbn beta iota. cbn [negb].
    set (w0 := with_event (Confirmed true) w).
    rewrite run_try_catch, run_bind.
    replace (Z.to_nat (fe_chunkCount e) + 3)%nat
      with (S (Z.to_nat (fe_chunkCount e) + 2)) in Hnet by lia.
    cbn [replicate app] in Hnet.
    destruct (deleteGitHubFile_refused (folderPath +:+ "/metadata.json") st _ w0 Hnet)
      as (w1 & Hrun1 & Hnet1 & Hst1 & Hfresh1 & Happ1 & Hclock1).
    rewrite Hrun1. cbn beta iota.
    rewrite run_bind, run_files_find. cbn beta iota.
    replace (cached_files w1) with (cached_files w) by (unfold cached_files; by rewrite Happ1).
    rewrite Hfind. run.
    rewrite replicate_add, <- app_assoc in Hnet1.
    destruct (Script_deleteChunks_loop_refused (Z.to_nat (fe_chunkCount e)) 1 folderPath st _ w1
                Hnet1) as (w2 & Hrun2 & Hnet2 & Hst2 & Hfresh2 & Happ2 & Hclock2).
    rewrite Hrun2. cbn beta iota. rewrite run_bind, run_files_remove. cbn beta iota.
    rewrite run_bind.
    match goal with |- context [Script.updateRegistry _ _ _ _ _ ?x] => set (w3 := x) end.
    destruct (updateRegistry_refused "" 0 0 0 "" st rest w3)
      as (w4 & Hrun4 & Hnet4 & Hst4 & Hfresh4 & Happ4); [exact Hnet2|].
    rewrite Hrun4. run. cbn [snd]. world.
    split; [rewrite Hst4; subst w3; world; by rewrite Hst2, Hst1|].
    split.
    { unfold cached_files. world. rewrite Happ4. subst w3. world. cbn.
      rewrite Happ2, Happ1, Hclock2, Hclock1. done. }
    split; [exact Hnet4|]. exists (trace w4). by rewrite <- app_assoc.
  - intros Hnet w'. subst w'. unfold Part0.deleteFile.
    rewrite run_bind, run_confirm, Hconfirm. cbn beta iota. cbn [negb].
    set (w0 := with_event (Confirmed true) w).
    rewrite run_try_catch, run_bind, run_files_find. cbn beta iota.
    change (cached_files w0) with (cached_files w). rewrite Hfind. run.
    destruct (Z.to_nat (fe_chunkCount e)) as [|remaining]; cbn [Part0.deleteChunks_loop]; run.
    + match goal with |- context [Part0.deleteFileFromGitHub ?p w0] =>
        destruct (deleteFileFromGitHub_refused p st rest w0 Hnet)
          as (w1 & Hrun1 & Hnet1 & Hst1 & Hfresh1 & Happ1) end.
      rewrite Hrun1. run. cbn [snd]. world.
      split; [done|]. split; [done|]. split; [done|]. by eexists.
    + cbn zeta.
      match goal with |- context [Part0.deleteFileFromGitHub ?p w0] =>
        destruct (deleteFileFromGitHub_refused p st rest w0 Hnet)
          as (w1 & Hrun1 & Hnet1 & Hst1 & Hfresh1 & Happ1) end.
      rewrite Hrun1. run. cbn [snd]. world.
      split; [done|]. split; [done|]. split; [done|]. by eexists.
Qed.

Lemma refused_delete_witness :
  let w := sampleWorld [earlierEntry] earlierChunkStore
             [Refuse 403; Refuse 403; Refuse 403; Refuse 403] in
  let w' := snd (Script.deleteFile "report.pdf" "files/report.pdf" w) in
  remote w' = remote w
  /\ cached_files w' = [Script.newEntry "" 0 0 0 "" (clock w)].
Proof.
  intros w w'.
  destruct (refused_delete "report.pdf" "files/report.pdf" earlierEntry 403 [] w)
    as [Hscript _]; [reflexivity|reflexivity|].
  destruct Hscript as (Hst & Hfiles & _); [reflexivity|].
  split; [exact Hst|exact Hfiles].
Defined.

(** ** A failed upload in the sequential variant *)









(** ** The filter of the list of files *)

Lemma string_app_assoc (a b c : string) : (a +:+ b) +:+ c = a +:+ (b +:+ c).
Proof.
  induction a as [|x a IH]; [done|].
  rewrite !string_app_cons. by rewrite IH.
Qed.

Lemma string_app_nil_r (a : string) : a +:+ "" = a.
Proof. induction a as [|x a IH]; [done|]. rewrite string_app_cons. by rewrite IH. Qed.

Lemma toLowerCase_app (a b : string) :
  toLowerCase (a +:+ b) = toLowerCase a +:+ toLowerCase b.
Proof.
  induction a as [|x a IH]; [done|].
  rewrite string_app_cons. cbn [toLowerCase]. rewrite string_app_cons. by rewrite IH.
Qed.

Lemma toLowerCase_length (s : string) : String.length (toLowerCase s) = String.length s.
Proof. induction s as [|x s IH]; [done|]. cbn. by rewrite IH. Qed.

Lemma starts_with_spec (s sub : string) :
  starts_with s sub = true <-> exists post, s = sub +:+ post.
Proof.
  revert s. induction sub as [|b sub IH]; intros s; cbn [starts_with].
  - split; [intros _; by exists s|done].
  - destruct s as [|a s].
    + split; [done|]. intros [post H]. rewrite string_app_cons in H. discriminate H.
    + rewrite andb_true_iff, IH. split.
      * intros [Hab [post ->]]. apply Ascii.eqb_eq in Hab as ->. exists post.
        by rewrite string_app_cons.
      * intros [post H]. rewrite string_app_cons in H. injection H as -> ->.
        split; [apply Ascii.eqb_refl|by exists post].
Qed.

Lemma string_includes_spec (s sub : string) :
  string_includes s sub = true <-> exists pre post, s = pre +:+ sub +:+ post.
Proof.
  induction s as [|a s IH]; cbn [string_includes]; rewrite orb_true_iff, starts_with_spec.
  - split.
    + intros [[post H]|H]; [|done]. exists ""%string, post. by rewrite string_app_nil_l.
    + intros (pre & post & H). left. destruct pre as [|x pre].
      * exists post. by rewrite string_app_nil_l in H.
      * rewrite string_app_cons in H. discriminate H.
  - rewrite IH. split.
    + intros [[post H]|(pre & post & ->)].
      * exists ""%string, post. by rewrite string_app_nil_l.
      * exists (String a pre), post. by rewrite string_app_cons.
    + intros (pre & post & H). destruct pre as [|x pre].
      * left. exists post. by rewrite string_app_nil_l in H.
      * right. rewrite string_app_cons in H. injection H as -> ->. by exists pre, post.
Qed.

(** X21. The filter of the list of files, for names and search texts of
    code units below 256, where [toLowerCase] maps each code unit by
    itself.  With an empty search text and
    no category chosen every item is shown.  The search does not
    distinguish upper and lower case, in the text typed or in the names.
    Narrowing can only hide: an item shown for a search text is shown for
    every part of that text, so typing more characters never brings an
    item back.  An item is shown for a search text only if the text is no
    longer than the name.  The category 'other' shows, of the items that
    the search shows, those whose entry has the category 'other' or none. *)
Theorem filter_narrows (file : FileEntry) :
  displayed "" "" file = true
  /\ (forall search category,
        displayed (toLowerCase search) category file = displayed search category file)
  /\ (forall search category name,
        toLowerCase name = toLowerCase (fe_name file) ->
        displayed search category file
        = (string_includes (toLowerCase name) (toLowerCase search)
           && (String.eqb category "" || String.eqb (category_or_other file) category)))
  /\ (forall before search after category,
        displayed (before +:+ search +:+ after) category file = true ->
        displayed search category file = true)
  /\ (forall search category,
        displayed search category file = true ->
        (String.length search <= String.length (fe_name file))%nat)
  /\ (forall search,
        displayed search "other" file = true
        <-> displayed search "" file = true
            /\ (fe_category file = ""%string \/ fe_category file = "other"%string)).
Proof.
  unfold displayed, dataset_name. cbn zeta. split; [|split; [|split; [|split; [|split]]]].
  - cbn [toLowerCase String.eqb orb]. rewrite andb_true_r.
    apply string_includes_spec. exists ""%string, (toLowerCase (fe_name file)).
    by rewrite !string_app_nil_l.
  - intros search category. by rewrite toLowerCase_idemp.
  - intros search category name Hname. by rewrite Hname.
  - intros before search after category. rewrite !andb_true_iff.
    intros [Hin Hcat]. split; [|exact Hcat].
    apply string_includes_spec in Hin as (pre & post & Hin).
    apply string_includes_spec.
    exists (pre +:+ toLowerCase before), (toLowerCase after +:+ post).
    rewrite Hin, !toLowerCase_app, !string_app_assoc. done.
  - intros search category. rewrite andb_true_iff. intros [Hin _].
    apply string_includes_spec in Hin as (pre & post & Hin).
    apply (f_equal String.length) in Hin.
    rewrite !string_length_app, !toLowerCase_length in Hin. lia.
  - intros search. cbn [String.eqb orb]. rewrite andb_true_r, andb_true_iff.
    unfold category_or_other.
    destruct (String.eqb_spec (fe_category file) "") as [Hnone|Hsome].
    + cbn. split; [intros [H _]; split; [done|by left]|by intros [H _]].
    + rewrite String.eqb_eq. split.
      * intros [H Hother]. split; [done|by right].
      * intros [H [Hnone|Hother]]; [done|by split].
Qed.
